(** * OnsenUI custom elements: lifecycle and structural compilation

    A shallow embedding of the element lifecycle code of the repository
    (ons-list-item, ons-tab, ons-tabbar, ons-list-title, ons-list-header and
    the content-ready coordinator), followed by the properties established
    about it. *)

From stdpp Require Import gmap strings list pretty.
From Stdlib Require Import Lia.

#[local] Set Warnings "-register-all,-clear-no-such-hyp".
Local Open Scope string_scope.
Local Open Scope list_scope.

(** ** The DOM fragment the components work on *)

Module Dom.

(** A DOM node.  [nid] stands for the identity of the JavaScript object
    (the code compares nodes with [===] and [Array.prototype.includes]);
    [nodeName] is upper case for HTML elements, as the DOM reports it. *)
Inductive node : Type :=
| Text (nid : nat) (data : string)
| Elem (nid : nat) (nodeName : string) (attributes : list (string * string))
       (classList : list string) (childNodes : list node).

Definition node_id (n : node) : nat :=
  match n with Text i _ => i | Elem i _ _ _ _ => i end.

Definition node_name (n : node) : string :=
  match n with Text _ _ => "#text" | Elem _ t _ _ _ => t end.

Definition children (n : node) : list node :=
  match n with Text _ _ => [] | Elem _ _ _ _ k => k end.

Definition classes (n : node) : list string :=
  match n with Text _ _ => [] | Elem _ _ _ c _ => c end.

Definition node_attributes (n : node) : list (string * string) :=
  match n with Text _ _ => [] | Elem _ _ a _ _ => a end.

Definition is_element (n : node) : bool :=
  match n with Text _ _ => false | Elem _ _ _ _ _ => true end.

(** [a === b] on node references. *)
Definition is_node (i : nat) (n : node) : bool := Nat.eqb (node_id n) i.

(** [node.classList?.contains(c)]: text nodes have no class list. *)
Definition has_class (c : string) (n : node) : bool :=
  existsb (String.eqb c) (classes n).

(** [hasAttribute(name)] and [getAttribute(name)]. *)
Definition has_attr (name : string) (attrs : list (string * string)) : bool :=
  existsb (fun kv => String.eqb name (fst kv)) attrs.

Definition get_attr (name : string) (attrs : list (string * string))
  : option string :=
  snd <$> List.find (fun kv => String.eqb name (fst kv)) attrs.

(** The selector [tag.class] of [querySelector(':scope > tag.class')]. *)
Definition matches_tag_class (tag c : string) (n : node) : bool :=
  is_element n && String.eqb (node_name n) tag && has_class c n.

(** The selector [.class]. *)
Definition matches_class (c : string) (n : node) : bool :=
  is_element n && has_class c n.

(** The selector [tag]. *)
Definition matches_tag (tag : string) (n : node) : bool :=
  is_element n && String.eqb (node_name n) tag.

(** [node.classList.add(c)]; adding a class twice changes nothing, so the
    guarded form [if (!contains(c)) add(c)] is the same operation. *)
Definition add_class (c : string) (n : node) : node :=
  match n with
  | Text _ _ => n
  | Elem i t a cl k =>
      if existsb (String.eqb c) cl then n else Elem i t a (cl ++ [c]) k
  end.

Definition set_children (k : list node) (n : node) : node :=
  match n with Text _ _ => n | Elem i t a cl _ => Elem i t a cl k end.

(** [moved.forEach(node => parent.appendChild(node))] seen from [parent]. *)
Definition append_children (moved : list node) (n : node) : node :=
  set_children (children n ++ moved) n.

(** [child.remove()] seen from the parent's child list. *)
Definition remove_node (i : nat) (kids : list node) : list node :=
  List.filter (fun n => negb (is_node i n)) kids.

(** A mutation of the object referenced by [i], seen from a child list
    that may or may not hold it. *)
Definition update_node (i : nat) (f : node -> node) (kids : list node)
  : list node :=
  map (fun n => if is_node i n then f n else n) kids.

(** A mutation through a reference that may be [null] / [undefined]. *)
Definition update_ref (r : option nat) (f : node -> node) (kids : list node)
  : list node :=
  match r with Some i => update_node i f kids | None => kids end.

Definition is_ref (r : option nat) (n : node) : bool :=
  match r with Some i => is_node i n | None => false end.

Definition find_node (i : nat) (kids : list node) : option node :=
  List.find (is_node i) kids.

(** Identities of the nodes of a subtree, in document order. *)
Fixpoint node_ids (n : node) : list nat :=
  match n with
  | Text i _ => [i]
  | Elem i _ _ _ k => i :: flat_map node_ids k
  end.

(** Identities of the element nodes of a subtree. *)
Fixpoint element_ids (n : node) : list nat :=
  match n with
  | Text _ _ => []
  | Elem i _ _ _ k => i :: flat_map element_ids k
  end.

(** An identity no node of the subtree has: what [document.createElement]
    hands out next. *)
Definition next_id (n : node) : nat := S (list_max (node_ids n)).

(** The serialised form of a subtree: everything but object identities. *)
Inductive markup : Type :=
| MText (data : string)
| MElem (nodeName : string) (attributes : list (string * string))
        (classList : list string) (childNodes : list markup).

Fixpoint serialize (n : node) : markup :=
  match n with
  | Text _ s => MText s
  | Elem _ t a cl k => MElem t a cl (map serialize k)
  end.

End Dom.

Import Dom.

(** ** ons-list-item: structural compilation *)

Module ListItem.

Definition is_ripple (n : node) : bool := String.eqb (node_name n) "ONS-RIPPLE".

(** One [switch (wrappers.length)] block of [_compile]: with no wrapper the
    freshly created one (if the configuration asks for one) is inserted
    before the first child; with one it is adopted; with more the first is
    removed and the second adopted.  Returns the child list and the
    reference held by the local variable. *)
Definition adopt (sel : node -> bool) (created : option node)
           (kids : list node) : list node * option nat :=
  match List.filter sel kids with
  | [] =>
      match created with
      | Some n => (n :: kids, Some (node_id n))
      | None => (kids, None)
      end
  | [a] => (kids, Some (node_id a))
  | a :: b :: _ => (remove_node (node_id a) kids, Some (node_id b))
  end.

(** What the second half of [_compile] leaves in its local variables. *)
Record content_result := ContentResult {
  left_ref : option nat;
  right_ref : option nat;
  center_ref : option nat;
  content_out : list node
}.

Definition stray (l r c : option nat) (n : node) : bool :=
  negb (is_ref l n || is_ref r n || is_ref c n) && negb (is_ripple n).

(** The first part of the work on [topContent]: the left wrapper is looked
    up, the right and center wrappers are adopted, each gets its
    [list-item__...] class.  [content] is the child list of [topContent],
    [fresh] the next unused identity.  Returns the three references and the
    child list. *)
Definition adopt_wrappers (expandable : bool) (fresh : nat)
           (content : list node)
  : option nat * option nat * option nat * list node :=
  let lref :=
    node_id <$> List.find (matches_tag_class "DIV" "left") content in
  let c1 := update_ref lref (add_class "list-item__left") content in
  let chevron := Elem fresh "SPAN" [] ["list-item__expand-chevron"] [] in
  let new_right := Elem (fresh + 1) "DIV" [] ["right"] [chevron] in
  let '(c2, rref) :=
    adopt (matches_tag_class "DIV" "right")
          (if expandable then Some new_right else None) c1 in
  let c3 := update_ref rref (add_class "list-item__right") c2 in
  let new_center := Elem (fresh + 2) "DIV" [] ["center"] [] in
  let '(c4, cref) :=
    adopt (matches_tag_class "DIV" "center") (Some new_center) c3 in
  let c5 := update_ref cref (add_class "list-item__center") c4 in
  (lref, rref, cref, c5).

(** The part of [_compile] that works on [topContent]: the wrappers are
    adopted, then every child that is none of them and no ripple is moved
    to the end of the center wrapper. *)
Definition compile_content (expandable : bool) (fresh : nat)
           (content : list node) : content_result :=
  let '(lref, rref, cref, c5) := adopt_wrappers expandable fresh content in
  let moved := List.filter (stray lref rref cref) c5 in
  let kept := List.filter (fun n => negb (stray lref rref cref n)) c5 in
  ContentResult lref rref cref
                (update_ref cref (append_children moved) kept).

Definition stray_top (top : nat) (n : node) : bool :=
  negb (is_node top n) && negb (has_class "expandable-content" n)
  && negb (is_ripple n).

(** The wrappers the [if (this.expandable)] block creates. *)
Definition new_top (fresh : nat) : node := Elem fresh "DIV" [] ["top"] [].

Definition new_expandable_content (fresh : nat) : node :=
  Elem (fresh + 1) "DIV" [] ["expandable-content"] [].

(** The first part of the [if (this.expandable)] block: the top wrapper and
    the expandable content are adopted and get their [list-item__...]
    class.  Returns the reference to the top wrapper, the child list of the
    element, and the top wrapper as an object: it can have been detached
    when it was also the first of several [div.expandable-content], and the
    code goes on filling the detached node, which the element's child list
    no longer shows. *)
Definition adopt_outer (fresh : nat) (kids : list node)
  : nat * list node * node :=
  let '(k1, top_ref) :=
    adopt (matches_tag_class "DIV" "top") (Some (new_top fresh)) kids in
  let top := default fresh top_ref in
  let k2 := update_node top (add_class "list-item__top") k1 in
  let '(k3, ec) :=
    adopt (matches_tag_class "DIV" "expandable-content")
          (Some (new_expandable_content fresh)) k2 in
  let k4 := update_ref ec (add_class "list-item__expandable-content") k3 in
  let top_node :=
    match find_node top k4 with
    | Some t => t
    | None => default (new_top fresh) (find_node top k2)
    end in
  (top, k4, top_node).

(** The [if (this.expandable)] block of [_compile] followed by the work on
    the top wrapper: every child that is not the top wrapper, has no class
    [expandable-content] and is no ripple is moved to the end of the top
    wrapper, whose children are then compiled. *)
Definition compile_expandable (fresh : nat) (kids : list node) : list node :=
  let '(top, k4, top_node) := adopt_outer fresh kids in
  let moved := List.filter (stray_top top) k4 in
  let kept := List.filter (fun n => negb (stray_top top n)) k4 in
  let inner :=
    compile_content true (fresh + 2) (children top_node ++ moved) in
  update_node top (set_children (content_out inner)) kept.

(** Modelled from the spec: [util.updateRipple] lives in [ons/util.js],
    which is not among the sources.  It keeps an [ons-ripple] element as
    first child of the target exactly when the [ripple] attribute is
    present (the auto-styling pass "injects ... a ripple child", and the
    test of that pass finds it at [children[0]]); the first [ons-ripple]
    child is removed when the attribute is absent. *)
Definition updateRipple (fresh : nat) (target : node) : node :=
  match target with
  | Text _ _ => target
  | Elem i t a cl kids =>
      match List.find (matches_tag "ONS-RIPPLE") kids with
      | None =>
          if has_attr "ripple" a
          then Elem i t a cl (Elem fresh "ONS-RIPPLE" [] [] [] :: kids)
          else target
      | Some r =>
          if has_attr "ripple" a then target
          else Elem i t a cl (remove_node (node_id r) kids)
      end
  end.

(** [ListItemElement.prototype._compile], applied to the element. *)
Definition _compile (this : node) : node :=
  match this with
  | Text _ _ => this
  | Elem i t a cl kids =>
      let fresh := next_id this in
      let kids' :=
        if has_attr "expandable" a
        then compile_expandable fresh kids
        else content_out (compile_content false fresh kids) in
      updateRipple (fresh + 5) (Elem i t a cl kids')
  end.

(** Markup without duplicate wrappers: at most one [div.right] and one
    [div.center] among the children of [topContent] and, in expandable
    mode, at most one [div.top] and one [div.expandable-content] among the
    children of the element ([topContent] then receives the children of the
    top wrapper and children of the element). *)
Definition no_duplicate_wrappers (this : node) : bool :=
  match this with
  | Text _ _ => true
  | Elem _ _ a _ kids =>
      let content :=
        if has_attr "expandable" a
        then flat_map children
                      (List.filter (matches_tag_class "DIV" "top") kids) ++ kids
        else kids in
      (negb (has_attr "expandable" a)
       || Nat.leb (length (List.filter (matches_tag_class "DIV" "top") kids)) 1
          && Nat.leb (length (List.filter
                                (matches_tag_class "DIV" "expandable-content")
                                kids)) 1)
      && Nat.leb (length (List.filter (matches_tag_class "DIV" "right") content)) 1
      && Nat.leb (length (List.filter (matches_tag_class "DIV" "center") content)) 1
  end.

(** The ripple update removes nothing: the [ripple] attribute is present,
    or no child is an [ons-ripple] element. *)
Definition keeps_ripple (this : node) : bool :=
  match this with
  | Text _ _ => true
  | Elem _ _ a _ kids =>
      has_attr "ripple" a
      || forallb (fun n => negb (matches_tag "ONS-RIPPLE" n)) kids
  end.

(** The classes that name a wrapper role. *)
Definition role_classes : list string :=
  ["top"; "expandable-content"; "left"; "right"; "center"].

(** A node that carries at most one of the role classes. *)
Definition one_role (n : node) : bool :=
  Nat.leb (length (List.filter (fun c => has_class c n) role_classes)) 1.

(** The two classes [_compile] writes on wrappers of an expandable item. *)
Definition outer_classes : list string :=
  ["list-item__top"; "list-item__expandable-content"].

(** The three classes [_compile] writes on wrappers of [topContent]. *)
Definition wrapper_classes : list string :=
  ["list-item__left"; "list-item__right"; "list-item__center"].

(** [m] is the object [o] up to the classes [cs] that a compilation may have
    added: same identity, same name, same children. *)
Definition same_object (cs : list string) (m o : node) : Prop :=
  node_id m = node_id o /\ node_name m = node_name o
  /\ is_element m = is_element o /\ children m = children o
  /\ node_attributes m = node_attributes o
  /\ (forall c, ~ In c cs -> has_class c m = has_class c o).

(** The wrappers [_compile] creates in [topContent]. *)
Definition new_right (fresh : nat) : node :=
  Elem (fresh + 1) "DIV" [] ["right"]
       [Elem fresh "SPAN" [] ["list-item__expand-chevron"] []].

Definition new_center (fresh : nat) : node :=
  Elem (fresh + 2) "DIV" [] ["center"] [].

End ListItem.

(** ** The content-ready coordinator (ons/content-ready.js) *)

Module Ready.

(** [document.readyState]. *)
Inductive ready_state := Loading | Interactive | Complete.

(** The two module-level [WeakMap]s, the part of the host the function
    talks to, and an observation log.  Elements and callbacks are named by
    numbers; a callback is an opaque effect, and running it appends the
    pair (element whose queue held it, callback) to [log]. *)
Record state := State {
  queueMap : gmap nat (list nat);
  readyMap : gset nat;
  readyState : ready_state;
  immediates : list nat;  (* tasks [setImmediate(() => setContentReady(e))] *)
  listeners : list nat;   (* once-listeners for [readystatechange] *)
  log : list (nat * nat)
}.

Definition init (rs : ready_state) : state := State ∅ ∅ rs [] [] [].

Definition consumeQueue (element : nat) (st : state) : state :=
  let callbacks := default [] (queueMap st !! element) in
  State (delete element (queueMap st)) (readyMap st) (readyState st)
        (immediates st) (listeners st)
        (log st ++ map (pair element) callbacks).

Definition setContentReady (element : nat) (st : state) : state :=
  consumeQueue element
    (State (queueMap st) ({[element]} ∪ readyMap st) (readyState st)
           (immediates st) (listeners st) (log st)).

Definition contentReady (element fn : nat) (st : state) : state :=
  let queue := default [] (queueMap st !! element) ++ [fn] in
  let qm := <[element := queue]> (queueMap st) in
  if decide (element ∈ readyMap st) then
    consumeQueue element
      (State qm (readyMap st) (readyState st) (immediates st) (listeners st)
             (log st))
  else
    match readyState st with
    | Interactive | Complete =>
        State qm (readyMap st) (readyState st) (immediates st ++ [element])
              (listeners st) (log st)
    | Loading =>
        State qm (readyMap st) (readyState st) (immediates st)
              (listeners st ++ [element]) (log st)
    end.

(** What can happen to the module: a call of [contentReady], the host
    running the oldest [setImmediate] task, the document moving to its
    next ready state and firing [readystatechange]. *)
Inductive event :=
| Call (element fn : nat)
| RunImmediate
| ReadyStateChange.

Definition fire (ls : list nat) (st : state) : state :=
  fold_left (fun s e => setContentReady e s) ls st.

Definition step (st : state) (ev : event) : state :=
  match ev with
  | Call e fn => contentReady e fn st
  | RunImmediate =>
      match immediates st with
      | [] => st
      | e :: rest =>
          setContentReady e
            (State (queueMap st) (readyMap st) (readyState st) rest
                   (listeners st) (log st))
      end
  | ReadyStateChange =>
      match readyState st with
      | Complete => st
      | rs =>
          fire (listeners st)
            (State (queueMap st) (readyMap st)
                   (match rs with Loading => Interactive | _ => Complete end)
                   (immediates st) [] (log st))
      end
  end.

Definition run (evs : list event) (st : state) : state :=
  fold_left step evs st.

(** The callbacks registered for [element], in registration order. *)
Definition registered (element : nat) (evs : list event) : list nat :=
  flat_map (fun ev => match ev with
                      | Call e fn => if Nat.eqb e element then [fn] else []
                      | _ => []
                      end) evs.

(** The callbacks run for [element], in execution order. *)
Definition ran (element : nat) (st : state) : list nat :=
  map snd (List.filter (fun p => Nat.eqb (fst p) element) (log st)).

(** The callbacks waiting in the element's queue. *)
Definition queued (element : nat) (st : state) : list nat :=
  default [] (queueMap st !! element).

End Ready.

(** ** First connection of the components *)

Module Lifecycle.

Inductive component :=
| ListItemElement | TabElement | ListTitleElement | ListHeaderElement
| TabbarElement.

(** The calls a lifecycle hook makes, as written in its body. *)
Inductive call :=
| AddDefaultClass       (* classList.add(defaultClassName) / _applyDefaultClass() *)
| AutoStylePrepare      (* autoStyle.prepare(this) / _applyAutoStyling() *)
| Compile               (* this._compile() *)
| UpgradeProperties     (* this._upgradeProperties() *)
| SetupListeners (add : bool)
| ResetTapState         (* _originalBackgroundColor, _tapped *)
| SetupOnClick
| SetupDefaultOnClick.

Record instance := Instance {
  _connectedOnce : bool;
  calls : list call
}.

(** The constructors set [_connectedOnce = false]. *)
Definition construct : instance := Instance false [].

Definition ListItem_connectedCallback (this : instance) : instance :=
  let this :=
    if negb (_connectedOnce this)
    then Instance true (calls this ++ [AddDefaultClass; AutoStylePrepare; Compile])
    else this in
Instance (_connectedOnce this)
         (calls this ++ [SetupListeners true; ResetTapState]).

Definition ListItem_disconnectedCallback (this : instance) : instance :=
Instance (_connectedOnce this) (calls this ++ [SetupListeners false]).

Definition Tab_connectedCallback (this : instance) : instance :=
  let this :=
    if negb (_connectedOnce this)
    then Instance true (calls this ++ [AddDefaultClass; Compile; AutoStylePrepare])
    else this in
Instance (_connectedOnce this)
         (calls this ++ [SetupOnClick; SetupDefaultOnClick]).

Definition Tab_disconnectedCallback (this : instance) : instance :=
Instance (_connectedOnce this)
         (calls this ++ [SetupOnClick; SetupDefaultOnClick]).

Definition ListTitle_connectedCallback (this : instance) : instance :=
  if negb (_connectedOnce this)
  then Instance true (calls this ++ [AddDefaultClass; AutoStylePrepare])
  else this.

Definition ListHeader_connectedCallback (this : instance) : instance :=
  if negb (_connectedOnce this)
  then Instance true (calls this ++ [AddDefaultClass; AutoStylePrepare])
  else this.

Definition Tabbar_connectedCallback (this : instance) : instance :=
  if negb (_connectedOnce this)
  then Instance true (calls this ++ [UpgradeProperties])
  else this.

Definition connectedCallback (c : component) : instance -> instance :=
  match c with
  | ListItemElement => ListItem_connectedCallback
  | TabElement => Tab_connectedCallback
  | ListTitleElement => ListTitle_connectedCallback
  | ListHeaderElement => ListHeader_connectedCallback
  | TabbarElement => Tabbar_connectedCallback
  end.

(** List title and list header define no [disconnectedCallback]; the tab
    bar's is empty. *)
Definition disconnectedCallback (c : component) : instance -> instance :=
  match c with
  | ListItemElement => ListItem_disconnectedCallback
  | TabElement => Tab_disconnectedCallback
  | _ => fun this => this
  end.

(** The host attaches and detaches the element any number of times. *)
Inductive hook := Connected | Disconnected.

Definition fire (c : component) (this : instance) (h : hook) : instance :=
  match h with
  | Connected => connectedCallback c this
  | Disconnected => disconnectedCallback c this
  end.

Definition lifetime (c : component) (hs : list hook) : instance :=
  fold_left (fire c) hs construct.

(** The work guarded by [_connectedOnce] in each component. *)
Definition first_connection_work (c : component) : list call :=
  match c with
  | ListItemElement => [AddDefaultClass; AutoStylePrepare; Compile]
  | TabElement => [AddDefaultClass; Compile; AutoStylePrepare]
  | ListTitleElement | ListHeaderElement => [AddDefaultClass; AutoStylePrepare]
  | TabbarElement => [UpgradeProperties]
  end.

#[global] Instance call_eq_dec : EqDecision call.
Proof. solve_decision. Defined.

#[global] Instance hook_eq_dec : EqDecision hook.
Proof. solve_decision. Defined.

Definition count (x : call) (l : list call) : nat :=
  length (List.filter (fun y => bool_decide (x = y)) l).

End Lifecycle.

(** ** ons-list-item: the expansion animation hook *)

Module Expansion.

(** The part of a list item [_animateExpansion] reads and writes, with two
    observation fields: the arguments of the animator invocations made so
    far, and the number of animations whose completion callback has not
    run yet. *)
Record item := Item {
  expandable : bool;       (* hasAttribute('expandable') *)
  expanded : bool;         (* the boolean property over the attribute *)
  expanded_class : bool;   (* classList.contains('list-item--expanded') *)
  _expanding : bool;
  dispatched : nat;        (* 'expansion' events dispatched *)
  animations : list bool;  (* animator._animateExpansion(this, expanded, cb) *)
  in_flight : nat
}.

(** The constructor leaves [_expanding] undefined, which is falsy. *)
Definition construct (expandable expanded expanded_class : bool) : item :=
  Item expandable expanded expanded_class false 0 [] 0.

Definition _animateExpansion (this : item) : item :=
  let expandedAtStartup := expanded this && expanded_class this in
  if negb (expandable this) || _expanding this || expandedAtStartup then this
  else
    Item (expandable this) (expanded this) (expanded_class this) true
         (S (dispatched this)) (animations this ++ [expanded this])
         (S (in_flight this)).

(** The completion callback handed to the animator. *)
Definition on_complete (this : item) : item :=
  Item (expandable this) (expanded this) (expanded this) false
       (dispatched this) (animations this) (pred (in_flight this)).

(** What reaches the element: the [expanded] attribute changes (the hook
    [attributeChangedCallback('expanded')] calls [_animateExpansion]), the
    [expandable] attribute or the class list changes, an animator finishes
    an animation it was given (it calls the completion callback once), or
    [_animateExpansion] is called directly. *)
Inductive event :=
| ExpandedChanged (value : bool)
| ExpandableChanged (value : bool)
| ExpandedClassChanged (value : bool)
| AnimationDone
| AnimateExpansion.

Definition step (this : item) (ev : event) : item :=
  match ev with
  | ExpandedChanged v =>
      _animateExpansion
        (Item (expandable this) v (expanded_class this) (_expanding this)
              (dispatched this) (animations this) (in_flight this))
  | ExpandableChanged v =>
      Item v (expanded this) (expanded_class this) (_expanding this)
           (dispatched this) (animations this) (in_flight this)
  | ExpandedClassChanged v =>
      Item (expandable this) (expanded this) v (_expanding this)
           (dispatched this) (animations this) (in_flight this)
  | AnimationDone =>
      match in_flight this with
      | 0 => this
      | S _ => on_complete this
      end
  | AnimateExpansion => _animateExpansion this
  end.

Definition run (evs : list event) (this : item) : item :=
  fold_left step evs this.

End Expansion.

(** ** Modifier classes *)

Module Modifier.

(** Space, tab, line feed, carriage return. *)
Definition is_space (c : Ascii.ascii) : bool :=
  let n := Ascii.nat_of_ascii c in
  Nat.eqb n 32 || Nat.eqb n 9 || Nat.eqb n 10 || Nat.eqb n 13.

Fixpoint split_aux (s cur : string) : list string :=
  match s with
  | EmptyString => if bool_decide (cur = "") then [] else [cur]
  | String c rest =>
      if is_space c
      then (if bool_decide (cur = "") then split_aux rest ""
            else cur :: split_aux rest "")
      else split_aux rest (cur +:+ String c EmptyString)
  end.

(** Modelled from the spec: the modifier attribute is "a space-separated
    token list" ([ons/internal/modifier-util.js] is not among the
    sources). *)
Definition split (modifier : string) : list string := split_aux modifier "".

(** Modelled from the spec: a scheme maps a selector to "a class-name
    template containing one substitution point for the modifier token",
    such as [list-item--*__left]. *)
Record template := Template { before_star : string; after_star : string }.

Definition derive (tpl : template) (token : string) : string :=
  before_star tpl +:+ token +:+ after_star tpl.

Definition removed (last current : string) : list string :=
  List.filter (fun t => negb (bool_decide (t ∈ split current))) (split last).

Definition added (last current : string) : list string :=
  List.filter (fun t => negb (bool_decide (t ∈ split last))) (split current).

Definition class_remove (c : string) (classList : list string) : list string :=
  List.filter (fun x => negb (String.eqb c x)) classList.

Definition class_add (c : string) (classList : list string) : list string :=
  if existsb (String.eqb c) classList then classList else classList ++ [c].

(** Modelled from the spec: [ModifierUtil.onModifierChanged(oldValue,
    newValue, element, scheme)] "computes the symmetric difference of the
    tokenized old/new modifier strings, removes derived classes for tokens
    only in old, adds derived classes for tokens only in new"; seen here
    from the class list of one target element and the template the scheme
    gives for it. *)
Definition onModifierChanged (last current : string) (tpl : template)
           (classList : list string) : list string :=
  let cl := fold_left (fun cl t => class_remove (derive tpl t) cl)
                      (removed last current) classList in
  fold_left (fun cl t => class_add (derive tpl t) cl) (added last current) cl.

(** The entry of the list item scheme for the element itself:
    ['.list-item': 'list-item--*']. *)
Definition list_item_template : template := Template "list-item--" "".

End Modifier.

(** ** ons-tabbar: the members of the class *)

Module Tabbar.

(** The members defined in the body of [class TabbarElement]; everything
    below the [// JUNK] comment, [setActiveTab] included, is commented
    out. *)
Definition TabbarElement_members : list string :=
  ["constructor"; "connectedCallback"; "disconnectedCallback";
   "_onSlotChange"; "attributeChangedCallback"; "activeIndex";
   "_createShadow"; "_upgradeProperties"; "_onActive"].

(** What a method call on an instance produces. *)
Inductive outcome :=
| Rejected (message : string)   (* returns a rejected promise *)
| Returned                      (* returns anything else *)
| Thrown (error : string).      (* throws before returning *)

(** [tabbar[name](...)]: the member is looked up on the class, then on
    what it inherits ([inherited]: [BaseElement] is not among the
    sources); calling a property that resolves to [undefined] throws a
    [TypeError].  None of the members the class does define returns a
    rejected promise. *)
Definition invoke (inherited : list string) (name : string) : outcome :=
  if bool_decide (name ∈ TabbarElement_members ++ inherited)
  then Returned
  else Thrown "TypeError".

Definition setActiveTab (inherited : list string) (index : nat) : outcome :=
  invoke inherited "setActiveTab".

End Tabbar.

(** ** ons-tab: structural compilation *)

Module Tab.

(** A JavaScript value handed to an attribute setter. *)
Inductive value := Undefined | Null | Str (s : string).

(** [setAttribute(name, v)] stores the string form of [v]. *)
Definition to_attribute (v : value) : string :=
  match v with Undefined => "undefined" | Null => "null" | Str s => s end.

(** Truthiness of [getAttribute(name)]: [null] and the empty string are
    falsy. *)
Definition truthy (a : option string) : bool :=
  match a with Some s => negb (String.eqb s "") | None => false end.

Record tab := Tab {
  icon : option string;          (* getAttribute('icon') *)
  activeIcon : option string;    (* getAttribute('active-icon') *)
  label : option string;
  badge : option string;
  ripple : bool;                 (* hasAttribute('ripple') *)
  _iconPropertiesTouched : bool;
  _labelPropertyTouched : bool;
  _badgePropertyTouched : bool;
  _ripplePropertyTouched : bool;
  _automaticallyAddedButton : option nat;
  _inputElement : option nat;
  _iconElement : option nat;
  _labelElement : option nat;
  _badgeElement : option nat;
  childNodes : list node;
  fresh : nat                    (* next identity of document.createElement *)
}.

Definition set_icon (v : option string) (t : tab) : tab :=
  Tab v (activeIcon t) (label t) (badge t) (ripple t)
      (_iconPropertiesTouched t) (_labelPropertyTouched t)
      (_badgePropertyTouched t) (_ripplePropertyTouched t)
      (_automaticallyAddedButton t) (_inputElement t) (_iconElement t)
      (_labelElement t) (_badgeElement t) (childNodes t) (fresh t).

Definition set_label (v : option string) (t : tab) : tab :=
  Tab (icon t) (activeIcon t) v (badge t) (ripple t)
      (_iconPropertiesTouched t) (_labelPropertyTouched t)
      (_badgePropertyTouched t) (_ripplePropertyTouched t)
      (_automaticallyAddedButton t) (_inputElement t) (_iconElement t)
      (_labelElement t) (_badgeElement t) (childNodes t) (fresh t).

Definition set_badge (v : option string) (t : tab) : tab :=
  Tab (icon t) (activeIcon t) (label t) v (ripple t)
      (_iconPropertiesTouched t) (_labelPropertyTouched t)
      (_badgePropertyTouched t) (_ripplePropertyTouched t)
      (_automaticallyAddedButton t) (_inputElement t) (_iconElement t)
      (_labelElement t) (_badgeElement t) (childNodes t) (fresh t).

Definition set_ripple (v : bool) (t : tab) : tab :=
  Tab (icon t) (activeIcon t) (label t) (badge t) v
      (_iconPropertiesTouched t) (_labelPropertyTouched t)
      (_badgePropertyTouched t) (_ripplePropertyTouched t)
      (_automaticallyAddedButton t) (_inputElement t) (_iconElement t)
      (_labelElement t) (_badgeElement t) (childNodes t) (fresh t).


Definition set_automaticallyAddedButton (v : option nat) (t : tab) : tab :=
  Tab (icon t) (activeIcon t) (label t) (badge t) (ripple t)
      (_iconPropertiesTouched t) (_labelPropertyTouched t)
      (_badgePropertyTouched t) (_ripplePropertyTouched t)
      v (_inputElement t) (_iconElement t)
      (_labelElement t) (_badgeElement t) (childNodes t) (fresh t).

Definition set_inputElement (v : option nat) (t : tab) : tab :=
  Tab (icon t) (activeIcon t) (label t) (badge t) (ripple t)
      (_iconPropertiesTouched t) (_labelPropertyTouched t)
      (_badgePropertyTouched t) (_ripplePropertyTouched t)
      (_automaticallyAddedButton t) v (_iconElement t)
      (_labelElement t) (_badgeElement t) (childNodes t) (fresh t).

Definition set_iconElement (v : option nat) (t : tab) : tab :=
  Tab (icon t) (activeIcon t) (label t) (badge t) (ripple t)
      (_iconPropertiesTouched t) (_labelPropertyTouched t)
      (_badgePropertyTouched t) (_ripplePropertyTouched t)
      (_automaticallyAddedButton t) (_inputElement t) v
      (_labelElement t) (_badgeElement t) (childNodes t) (fresh t).

Definition set_labelElement (v : option nat) (t : tab) : tab :=
  Tab (icon t) (activeIcon t) (label t) (badge t) (ripple t)
      (_iconPropertiesTouched t) (_labelPropertyTouched t)
      (_badgePropertyTouched t) (_ripplePropertyTouched t)
      (_automaticallyAddedButton t) (_inputElement t) (_iconElement t)
      v (_badgeElement t) (childNodes t) (fresh t).

Definition set_badgeElement (v : option nat) (t : tab) : tab :=
  Tab (icon t) (activeIcon t) (label t) (badge t) (ripple t)
      (_iconPropertiesTouched t) (_labelPropertyTouched t)
      (_badgePropertyTouched t) (_ripplePropertyTouched t)
      (_automaticallyAddedButton t) (_inputElement t) (_iconElement t)
      (_labelElement t) v (childNodes t) (fresh t).

Definition set_childNodes (k : list node) (t : tab) : tab :=
  Tab (icon t) (activeIcon t) (label t) (badge t) (ripple t)
      (_iconPropertiesTouched t) (_labelPropertyTouched t)
      (_badgePropertyTouched t) (_ripplePropertyTouched t)
      (_automaticallyAddedButton t) (_inputElement t) (_iconElement t)
      (_labelElement t) (_badgeElement t) k (fresh t).

(** [document.createElement] hands out [fresh t]. *)
Definition allocate (n : nat) (t : tab) : tab :=
  Tab (icon t) (activeIcon t) (label t) (badge t) (ripple t)
      (_iconPropertiesTouched t) (_labelPropertyTouched t)
      (_badgePropertyTouched t) (_ripplePropertyTouched t)
      (_automaticallyAddedButton t) (_inputElement t) (_iconElement t)
      (_labelElement t) (_badgeElement t) (childNodes t) (fresh t + n).

(** [node.textContent]. *)
Fixpoint text_content (n : node) : string :=
  match n with
  | Text _ s => s
  | Elem _ _ _ _ k => String.concat "" (map text_content k)
  end.

(** [further.forEach(node => node.remove())]. *)
Definition remove_all (further : list node) (kids : list node) : list node :=
  fold_left (fun k n => remove_node (node_id n) k) further kids.

(** The [// BUTTON] step: picks the button and returns its identity.  The
    automatically added button is a child of the tab whenever it is
    attached, so its removal is seen in the tab's child list. *)
Definition compile_button (t : tab) : tab * nat :=
  let allButtons :=
    List.filter (matches_class "tabbar__button") (childNodes t) in
  let auto := _automaticallyAddedButton t in
  match List.find (fun n => negb (is_ref auto n)) allButtons with
  | Some userAddedButton =>
      (match auto with
       | Some a =>
           set_automaticallyAddedButton None
             (set_childNodes (remove_node a (childNodes t)) t)
       | None => t
       end, node_id userAddedButton)
  | None =>
      match auto with
      | Some a => (t, a)
      | None =>
          let button := Elem (fresh t) "BUTTON" [] ["tabbar__button"] [] in
          (set_automaticallyAddedButton (Some (fresh t))
             (allocate 1 (set_childNodes (childNodes t ++ [button]) t)),
           fresh t)
      end
  end.

(** The [// INPUT] step and the move of every other child into the
    button.  Returns the tab and the child list of the button object,
    which stays the button's even if the button has just been detached as
    a further input. *)
Definition compile_input (button : nat) (t : tab) : tab * list node :=
  let button_children :=
    from_option children [] (find_node button (childNodes t)) in
  let '(t1, input) :=
    match List.filter (matches_tag "INPUT") (childNodes t) with
    | [] =>
        let input :=
          Elem (fresh t) "INPUT"
               [("type", "radio"); ("style", "display: none;")] [] [] in
        (allocate 1 (set_childNodes (childNodes t ++ [input]) t), fresh t)
    | input :: furtherInputs =>
        (set_childNodes (remove_all furtherInputs (childNodes t)) t,
         node_id input)
    end in
  let other n := negb (is_node button n) && negb (is_node input n) in
  let moved := List.filter other (childNodes t1) in
  let kept := List.filter (fun n => negb (other n)) (childNodes t1) in
  (set_inputElement (Some input) (set_childNodes kept t1),
   button_children ++ moved).

Section IconProperty.

(** The [icon] property of an [ons-icon] element; [ons-icon.js] is not
    among the sources, so the property is a parameter. *)
Variable icon_of : node -> value.

(** The [// ICON] step, on the child list of the button. *)
Definition compile_icon (t : tab) (bkids : list node) : tab * list node :=
  let wrappers := List.filter (matches_class "tabbar__icon") bkids in
  let wanted := truthy (icon t) || truthy (activeIcon t) in
  let '(t1, b1, iconWrapper) :=
    match head wrappers with
    | None =>
        if wanted then
          let icon := Elem (fresh t + 1) "ONS-ICON" [] [] [] in
          let w := Elem (fresh t) "DIV" [] ["tabbar__icon"] [icon] in
          (allocate 2 t, bkids ++ [w], Some w)
        else (t, bkids, None)
    | Some w =>
        if wanted then (t, bkids, Some w)
        else if _iconPropertiesTouched t
             then (t, remove_node (node_id w) bkids, None)
             else
               let v :=
                 match List.find (matches_tag "ONS-ICON") (children w) with
                 | Some i => icon_of i
                 | None => Undefined
                 end in
               (set_icon (Some (to_attribute v)) t, bkids, Some w)
    end in
  let b2 := remove_all (tail wrappers) b1 in
  let iconElement :=
    w ← iconWrapper;
    node_id <$> List.find (matches_tag "ONS-ICON") (children w) in
  (set_iconElement iconElement t1, b2).

(** The [// LABEL] step. *)
Definition compile_label (t : tab) (bkids : list node) : tab * list node :=
  let labels := List.filter (matches_class "tabbar__label") bkids in
  let '(t1, b1, labelElement) :=
    match head labels with
    | None =>
        if truthy (label t) then
          let l := Elem (fresh t) "DIV" [] ["tabbar__label"] [] in
          (allocate 1 t, bkids ++ [l], Some (fresh t))
        else (t, bkids, None)
    | Some l =>
        if truthy (label t) then (t, bkids, Some (node_id l))
        else if _labelPropertyTouched t
             then (t, remove_node (node_id l) bkids, None)
             else (set_label (Some (text_content l)) t, bkids,
                   Some (node_id l))
    end in
  (set_labelElement labelElement t1, remove_all (tail labels) b1).

(** The [// BADGE] step. *)
Definition compile_badge (t : tab) (bkids : list node) : tab * list node :=
  let badges := List.filter (matches_class "tabbar__badge") bkids in
  let '(t1, b1, badgeElement) :=
    match head badges with
    | None =>
        if truthy (badge t) then
          let b :=
            Elem (fresh t) "DIV" [] ["tabbar__badge"; "notification"] [] in
          (allocate 1 t, bkids ++ [b], Some (fresh t))
        else (t, bkids, None)
    | Some b =>
        if truthy (badge t) then (t, bkids, Some (node_id b))
        else if _badgePropertyTouched t
             then (t, remove_node (node_id b) bkids, None)
             else (set_badge (Some (text_content b)) t, bkids,
                   Some (node_id b))
    end in
  (set_badgeElement badgeElement t1, remove_all (tail badges) b1).

(** The [// RIPPLE] step. *)
Definition compile_ripple (t : tab) (bkids : list node) : tab * list node :=
  let ripples := List.filter (matches_tag "ONS-RIPPLE") bkids in
  let '(t1, b1) :=
    match head ripples with
    | None =>
        if ripple t then
          (allocate 1 t, Elem (fresh t) "ONS-RIPPLE" [] [] [] :: bkids)
        else (t, bkids)
    | Some r =>
        if ripple t then (t, bkids)
        else if _ripplePropertyTouched t
             then (t, remove_node (node_id r) bkids)
             else (set_ripple true t, bkids)
    end in
  (t1, remove_all (tail ripples) b1).

(** [TabElement.prototype._compile].  The property setters it uses
    ([this.icon = ...] and the like) are the attribute writes of the
    class's accessors; the hook the host runs for such a write is
    [attributeChangedCallback] below. *)
Definition _compile (this : tab) : tab :=
  let '(t1, button) := compile_button this in
  let '(t2, b2) := compile_input button t1 in
  let '(t3, b3) := compile_icon t2 b2 in
  let '(t4, b4) := compile_label t3 b3 in
  let '(t5, b5) := compile_badge t4 b4 in
  let '(t6, b6) := compile_ripple t5 b5 in
  set_childNodes (update_node button (set_children b6) (childNodes t6)) t6.


End IconProperty.

(** The constructor: nothing touched, no button yet. *)
Definition construct (icon activeIcon label badge : option string)
           (ripple : bool) (childNodes : list node) (fresh : nat) : tab :=
  Tab icon activeIcon label badge ripple false false false false
      None None None None None childNodes fresh.

End Tab.

(** ** ons-tab: the nodes the steps of [_compile] look for *)

Module TabContent.

(** A child of the button one of the ICON, LABEL, BADGE and RIPPLE steps
    selects: [.tabbar__icon], [.tabbar__label], [.tabbar__badge] or
    [ons-ripple]. *)
Definition role_node (n : node) : bool :=
  matches_class "tabbar__icon" n || matches_class "tabbar__label" n
  || matches_class "tabbar__badge" n || matches_tag "ONS-RIPPLE" n.

End TabContent.

(** ** ons-tab: click listeners *)

Module TabClick.

(** A listener registered for [click] on the tab: the function the
    [onClick] property holds, or one of the closures
    [_setupDefaultOnClick] creates (each call evaluates its arrow function
    anew, so each closure is a new object). *)
Inductive listener := OnClick (f : nat) | DefaultOnClick (k : nat).

#[global] Instance listener_eq_dec : EqDecision listener.
Proof. solve_decision. Defined.

Record tab := Tab {
  isConnected : bool;
  handler : option nat;      (* the variable [handler] of [_defineOnClickProperty] *)
  closures : nat;            (* closures [_setupDefaultOnClick] has created *)
  listeners : list listener  (* the click listeners, in registration order *)
}.

(** [addEventListener('click', cb)]: a [null] or [undefined] callback is
    ignored, and so is a callback that is registered already. *)
Definition addEventListener (cb : option listener) (ls : list listener)
  : list listener :=
  match cb with
  | None => ls
  | Some l => if bool_decide (l ∈ ls) then ls else ls ++ [l]
  end.

Definition removeEventListener (cb : option listener) (ls : list listener)
  : list listener :=
  match cb with
  | None => ls
  | Some l => List.filter (fun x => negb (bool_decide (x = l))) ls
  end.

(** The constructor: [handler] is declared without a value. *)
Definition construct : tab := Tab false None 0 [].

Definition _setupOnClick (this : tab) : tab :=
  let onClick := OnClick <$> handler this in
  Tab (isConnected this) (handler this) (closures this)
      (if isConnected this
       then addEventListener onClick (listeners this)
       else removeEventListener onClick (listeners this)).

(** The setter of the [onClick] property. *)
Definition set_onClick (newHandler : option nat) (this : tab) : tab :=
  _setupOnClick
    (Tab (isConnected this) newHandler (closures this)
         (removeEventListener (OnClick <$> handler this) (listeners this))).

Definition _setupDefaultOnClick (this : tab) : tab :=
  let handler' := Some (DefaultOnClick (closures this)) in
  Tab (isConnected this) (handler this) (S (closures this))
      (if isConnected this
       then addEventListener handler' (listeners this)
       else removeEventListener handler' (listeners this)).

(** The listener part of [connectedCallback] and [disconnectedCallback];
    the work of the first connection registers no click listener. *)
Definition connectedCallback (this : tab) : tab :=
  _setupDefaultOnClick (_setupOnClick this).

Definition disconnectedCallback (this : tab) : tab :=
  _setupDefaultOnClick (_setupOnClick this).

(** The host connects or disconnects the element ([isConnected] is true
    inside [connectedCallback] and false inside [disconnectedCallback]),
    or a script assigns [onClick] a function or [null]. *)
Inductive event := Connect | Disconnect | SetOnClick (f : option nat).

Definition step (this : tab) (ev : event) : tab :=
  match ev with
  | Connect =>
      connectedCallback
        (Tab true (handler this) (closures this) (listeners this))
  | Disconnect =>
      disconnectedCallback
        (Tab false (handler this) (closures this) (listeners this))
  | SetOnClick f => set_onClick f this
  end.

Definition run (evs : list event) : tab := fold_left step evs construct.

Definition is_default (l : listener) : bool :=
  match l with DefaultOnClick _ => true | OnClick _ => false end.

Definition is_connect (ev : event) : bool :=
  match ev with Connect => true | _ => false end.

End TabClick.

(** ** ons-tabbar: the tabs in the slot *)

Module TabbarTabs.

(** What [array[key]] gives for a property key. *)
Inductive looked_up := Element (x : nat) | NoValue | Other.

Record tabbar := Tabbar {
  _tabElements : option (list nat);   (* [undefined] until the first slot change *)
  _watchedTabs : gset nat;
  active_listeners : list (nat * nat); (* (tab, bound function) for 'active' *)
  bound : nat;                        (* functions [_onActive.bind(this)] made *)
  active_index : option string;       (* getAttribute('active-index') *)
  deactivated : list nat              (* the writes [tab.active = false] *)
}.

(** The constructor. *)
Definition construct : tabbar := Tabbar None ∅ [] 0 None [].

(** [watch]: one turn of [added.forEach]: a new bound function is
    registered on the tab, and the tab joins [_watchedTabs]. *)
Definition watch (this : tabbar) (tab : nat) : tabbar :=
  Tabbar (_tabElements this) ({[tab]} ∪ _watchedTabs this)
         (active_listeners this ++ [(tab, bound this)]) (S (bound this))
         (active_index this) (deactivated this).

(** [_onSlotChange], given [slot.assignedElements()]. *)
Definition _onSlotChange (assigned : list node) (this : tabbar) : tabbar :=
  let tabElements :=
    map node_id
        (List.filter (fun e => String.eqb (node_name e) "ONS-TAB") assigned) in
  let added :=
    List.filter (fun tab => negb (bool_decide (tab ∈ _watchedTabs this)))
                tabElements in
  fold_left watch added
    (Tabbar (Some tabElements) (_watchedTabs this) (active_listeners this)
            (bound this) (active_index this) (deactivated this)).

(** [Array.prototype.indexOf]: the first position, or -1. *)
Fixpoint indexOf (x : nat) (l : list nat) : Z :=
  match l with
  | [] => (-1)%Z
  | y :: l' =>
      if Nat.eqb y x then 0%Z
      else let i := indexOf x l' in
           if Z.ltb i 0 then (-1)%Z else (i + 1)%Z
  end.

Section ArrayMembers.

(** Whether an array has a property of that name besides its indexed
    elements ([length] and what [Array.prototype] provides; the language's
    library is not among the sources). *)
Variable array_member : string -> bool.

(** [array[key]] for a key that is a string or [null]: an element when the
    key is the decimal form of an index within bounds. *)
Definition array_get (key : option string) (l : list nat) : looked_up :=
  match key with
  | None => if array_member "null" then Other else NoValue
  | Some k =>
      match List.find (fun i => String.eqb (pretty (Z.of_nat i)) k)
                      (seq 0 (length l)) with
      | Some i => match nth_error l i with
                  | Some x => Element x
                  | None => NoValue
                  end
      | None => if array_member k then Other else NoValue
      end
  end.

(** [_onActive(event)] for [event.target = target].  [None] stands for
    what is outside the model: [_tabElements] still [undefined] (the
    lookup throws), or [_tabElements[activeIndex]] a value that is not a
    tab. *)
Definition _onActive (target : nat) (this : tabbar) : option tabbar :=
  match _tabElements this with
  | None => None
  | Some tabs =>
      let activeIndex := Some (pretty (indexOf target tabs)) in
      match array_get (active_index this) tabs with
      | Other => None
      | NoValue =>
          Some (Tabbar (_tabElements this) (_watchedTabs this)
                       (active_listeners this) (bound this) activeIndex
                       (deactivated this))
      | Element lastActive =>
          Some (Tabbar (_tabElements this) (_watchedTabs this)
                       (active_listeners this) (bound this) activeIndex
                       (deactivated this ++ [lastActive]))
      end
  end.

(** The slot's content changes, or a tab dispatches [active]: every bound
    function registered on that tab runs. *)
Inductive event := SlotChange (assigned : list node) | Active (target : nat).

Definition dispatch (target : nat) (this : tabbar) : option tabbar :=
  fold_left (fun st _ => st ≫= _onActive target)
            (List.filter (fun l => Nat.eqb (fst l) target)
                         (active_listeners this))
            (Some this).

Definition step (this : tabbar) (ev : event) : option tabbar :=
  match ev with
  | SlotChange assigned => Some (_onSlotChange assigned this)
  | Active target => dispatch target this
  end.

Definition run (evs : list event) : option tabbar :=
  fold_left (fun st ev => st ≫= fun this => step this ev) evs (Some construct).

End ArrayMembers.

(** The [ons-tab] elements of the slot changes among the events. *)
Definition assigned_tabs (evs : list event) : list nat :=
  flat_map (fun ev => match ev with
                      | SlotChange assigned =>
                          map node_id
                              (List.filter
                                 (fun e => String.eqb (node_name e) "ONS-TAB")
                                 assigned)
                      | Active _ => []
                      end) evs.

End TabbarTabs.

(** ** Worked examples *)

Module Examples.
Import ListItem.

Definition div (i : nat) (cl : list string) (k : list node) : node :=
  Elem i "DIV" [] cl k.

Definition list_item (attrs : list (string * string)) (k : list node) : node :=
  Elem 0 "ONS-LIST-ITEM" attrs ["list-item"] k.


(** [<ons-list-item expandable>content<div class="expandable-content">more</div></ons-list-item>] *)
Definition item_expandable : node :=
  list_item [("expandable", "")]
    [Text 1 "content"; div 2 ["expandable-content"] [Text 3 "more"]].

(** An expandable item whose content holds a user element. *)
Definition item_expandable_with_span : node :=
  list_item [("expandable", "")]
    [Text 1 "content";
     div 2 ["expandable-content"] [Elem 3 "SPAN" [] [] []]].

(** Three [div.expandable-content] in an expandable item. *)
Definition item_three_contents : node :=
  list_item [("expandable", "")]
    [div 1 ["expandable-content"] []; div 2 ["expandable-content"] [];
     div 3 ["expandable-content"] []].

(** Two [div.right], the first holding a user element. *)
Definition item_two_rights : node :=
  list_item [] [div 1 ["right"] [Elem 2 "SPAN" [] [] []]; div 3 ["right"] []].

(** Two [div.center], two [div.top] and two [div.expandable-content]. *)
Definition item_two_centers : node :=
  list_item [] [div 1 ["center"] []; Text 2 "text"; div 3 ["center"] []].

Definition item_two_tops : node :=
  list_item [("expandable", "")] [div 1 ["top"] []; div 2 ["top"] []].

Definition item_two_contents : node :=
  list_item [("expandable", "")]
    [div 1 ["expandable-content"] []; div 2 ["expandable-content"] []].

(** An [icon] property that reflects the [icon] attribute. *)
Definition icon_attribute (n : node) : Tab.value :=
  match get_attr "icon" (node_attributes n) with
  | Some s => Tab.Str s
  | None => Tab.Null
  end.



(** [<ons-tab><input id="a">Home<input id="b"></ons-tab>] *)
Definition tab_two_inputs : Tab.tab :=
  Tab.construct None None None None false
    [Elem 1 "INPUT" [("id", "a")] [] []; Text 2 "Home";
     Elem 3 "INPUT" [("id", "b")] [] []] 4.

(** [<ons-tab><button class="tabbar__button"><div class="tabbar__label">Home
    </div><div class="tabbar__badge">3</div><ons-ripple></ons-ripple>
    <span>text</span></button></ons-tab>] *)
Definition label_wrapper : node :=
  Elem 2 "DIV" [] ["tabbar__label"] [Text 3 "Home"].

Definition badge_wrapper : node :=
  Elem 4 "DIV" [] ["tabbar__badge"] [Text 5 "3"].

Definition ripple_element : node := Elem 6 "ONS-RIPPLE" [] [] [].

Definition tab_with_wrappers : Tab.tab :=
  Tab.construct None None None None false
    [Elem 1 "BUTTON" [] ["tabbar__button"]
          [label_wrapper; badge_wrapper; ripple_element;
           Elem 7 "SPAN" [] [] [Text 8 "text"]]] 9.

(** [<ons-tab>Home<span>!</span></ons-tab>] *)
Definition tab_with_content : Tab.tab :=
  Tab.construct None None None None false
    [Text 1 "Home"; Elem 2 "SPAN" [] [] [Text 3 "!"]] 4.

(** An array's own and inherited property names that matter here. *)
Definition array_members (key : string) : bool :=
  bool_decide (key ∈ ["length"; "constructor"; "indexOf"; "filter"]).

(** Two tabs and a [div] are slotted, the second tab dispatches [active],
    then the first tab leaves the slot and dispatches [active]. *)
Definition tabbar_events : list TabbarTabs.event :=
  [TabbarTabs.SlotChange [Elem 1 "ONS-TAB" [] [] []; Elem 2 "DIV" [] [] [];
                          Elem 3 "ONS-TAB" [] [] []];
   TabbarTabs.Active 3;
   TabbarTabs.SlotChange [Elem 3 "ONS-TAB" [] [] []]].

(** A string that starts with a decimal digit or a minus sign. *)
Definition numeric_head (s : string) : bool :=
  match s with
  | String c _ => bool_decide (String c EmptyString
                                 ∈ ["0"; "1"; "2"; "3"; "4"; "5"; "6"; "7";
                                    "8"; "9"; "-"])
  | EmptyString => false
  end.

End Examples.

Import Examples.

(** * Properties *)

(** ** First connection runs once *)

Section LifecycleFacts.
Import Lifecycle.

Lemma count_app x l1 l2 : count x (l1 ++ l2) = count x l1 + count x l2.
Proof. unfold count. rewrite List.filter_app, length_app. reflexivity. Qed.

Lemma lifetime_snoc c hs h :
  lifetime c (hs ++ [h]) = fire c (lifetime c hs) h.
Proof. unfold lifetime. rewrite fold_left_app. reflexivity. Qed.

(** The flag records whether the element was ever connected, and the
    guarded calls were made once if so and never otherwise. *)
Lemma lifetime_invariant c hs :
  _connectedOnce (lifetime c hs) = bool_decide (Connected ∈ hs)
  ∧ Forall (fun x => count x (calls (lifetime c hs))
                     = if _connectedOnce (lifetime c hs) then 1 else 0)
           (first_connection_work c).
Proof.
  induction hs as [|h hs IH] using rev_ind.
  - split; [reflexivity|]. destruct c; repeat constructor.
  - rewrite lifetime_snoc. destruct IH as [Hflag Hcount].
    assert (Hmem : bool_decide (Connected ∈ hs ++ [h])
                   = bool_decide (Connected ∈ hs) || bool_decide (h = Connected)).
    { apply eq_true_iff_eq. rewrite orb_true_iff, !bool_decide_eq_true.
      rewrite elem_of_app, list_elem_of_singleton. intuition congruence. }
    rewrite Hmem, <- Hflag. clear Hmem Hflag.
    destruct (lifetime c hs) as [once cs]. simpl in *.
    destruct c, h, once; simpl in *; split; try reflexivity;
      repeat match goal with
             | H : Forall _ (_ :: _) |- _ => inversion H; subst; clear H
             | H : Forall _ [] |- _ => clear H
             end;
      repeat constructor; rewrite ?count_app; simpl;
      repeat match goal with H : count _ _ = _ |- _ => rewrite H end;
      reflexivity.
Qed.

End LifecycleFacts.

(** C10.  For each of the five components (list item, tab, list title, list
  header, tab bar) and every sequence of connections and disconnections
  the host puts an instance through, each call of the first-connection
  block (default class, compilation where the component has one,
  auto-styling; property upgrade for the tab bar) has been made exactly
  once if the instance was ever connected and never otherwise, hence at
  most once, however often [connectedCallback] fires; [_connectedOnce] is
  set exactly when a connection has happened. *)
Theorem first_connection_work_runs_once :
forall (c : Lifecycle.component) (hs : list Lifecycle.hook),
  Lifecycle._connectedOnce (Lifecycle.lifetime c hs)
  = bool_decide (Lifecycle.Connected ∈ hs)
  /\ Forall (fun x =>
               Lifecycle.count x (Lifecycle.calls (Lifecycle.lifetime c hs))
               = (if bool_decide (Lifecycle.Connected ∈ hs) then 1 else 0)
               /\ Lifecycle.count x (Lifecycle.calls (Lifecycle.lifetime c hs)) <= 1)
            (Lifecycle.first_connection_work c).
Proof.
intros c hs. destruct (lifetime_invariant c hs) as [Hflag Hcount].
split; [exact Hflag|]. rewrite <- Hflag.
eapply Forall_impl; [exact Hcount|]. simpl. intros x Hx. rewrite Hx.
split; [reflexivity|]. destruct (Lifecycle._connectedOnce _); lia.
Qed.

(** ** The expansion animation is not re-entered *)

Section ExpansionFacts.
Import Expansion.






End ExpansionFacts.


(** ** The tab bar has no [setActiveTab] *)

(** C9 as stated fails: on a tab bar without tabs, [setActiveTab(5)] does
    not return a rejected promise; the call throws, the class defining no
    such method. *)
Lemma setActiveTab_is_not_rejected :
  Tabbar.setActiveTab [] 5 = Tabbar.Thrown "TypeError"
  /\ Tabbar.setActiveTab [] 5
     <> Tabbar.Rejected "Specified index does not match any tab.".
Proof. split; [reflexivity | discriminate]. Qed.

(** C9, amended.  [TabbarElement] defines no [setActiveTab] (its only
    definition is commented out): unless an inherited member of that name
    exists, calling it with any index throws a [TypeError] synchronously
    and no rejected promise is returned. *)
Theorem setActiveTab_is_undefined :
  forall (inherited : list string) (index : nat),
    "setActiveTab" ∉ inherited ->
    Tabbar.setActiveTab inherited index = Tabbar.Thrown "TypeError".
Proof.
  intros inherited index Hno. unfold Tabbar.setActiveTab, Tabbar.invoke.
  rewrite bool_decide_eq_false_2; [reflexivity|].
  assert (Hown : "setActiveTab" ∉ Tabbar.TabbarElement_members)
    by (apply (bool_decide_unpack _); vm_compute; exact I).
  rewrite elem_of_app. intros [Hin|Hin]; contradiction.
Qed.

Lemma setActiveTab_is_undefined_witness :
  ("setActiveTab" ∉ @nil string)
  /\ Tabbar.setActiveTab [] 0 = Tabbar.Thrown "TypeError".
Proof.
  split.
  - apply not_elem_of_nil.
  - apply (setActiveTab_is_undefined [] 0). apply not_elem_of_nil.
Defined.

(** ** Modifier classes follow the token difference *)

Section ModifierFacts.
Import Modifier.

Lemma string_length_append (a b : string) :
  String.length (a +:+ b) = String.length a + String.length b.
Proof. induction a as [|c a IH]; simpl; [reflexivity | rewrite IH; reflexivity]. Qed.

Lemma append_cancel_r (s : string) : forall a b : string,
  a +:+ s = b +:+ s -> a = b.
Proof.
  induction a as [|c a IH]; destruct b as [|d b]; intros Heq.
  - reflexivity.
  - apply (f_equal String.length) in Heq.
    rewrite !string_length_append in Heq. simpl in Heq. lia.
  - apply (f_equal String.length) in Heq.
    rewrite !string_length_append in Heq. simpl in Heq. lia.
  - change (String c (a +:+ s) = String d (b +:+ s)) in Heq.
    injection Heq as Hc Hrest. f_equal; [assumption | apply IH, Hrest].
Qed.

Lemma derive_inj tpl (t1 t2 : string) : derive tpl t1 = derive tpl t2 -> t1 = t2.
Proof.
  unfold derive. intros Heq. apply String.app_inj in Heq.
  apply append_cancel_r in Heq. exact Heq.
Qed.

Lemma in_class_remove c x cl : In x (class_remove c cl) <-> In x cl /\ x <> c.
Proof.
  unfold class_remove. rewrite filter_In, negb_true_iff.
  split; intros [Hin Hne]; split; try assumption.
  - intros ->. rewrite String.eqb_refl in Hne. discriminate.
  - apply String.eqb_neq. congruence.
Qed.

Lemma in_class_add c x cl : In x (class_add c cl) <-> In x cl \/ x = c.
Proof.
  unfold class_add. destruct (existsb (String.eqb c) cl) eqn:Hex.
  - apply existsb_exists in Hex as (y & Hy & Heq).
    apply String.eqb_eq in Heq. subst y. split; [tauto|].
    intros [H| ->]; assumption.
  - rewrite in_app_iff. simpl. intuition congruence.
Qed.

Lemma in_fold_class_remove tpl ts : forall cl x,
  In x (fold_left (fun cl t => class_remove (derive tpl t) cl) ts cl)
  <-> In x cl /\ ~ (exists t, In t ts /\ x = derive tpl t).
Proof.
  induction ts as [|t ts IH]; intros cl x; simpl.
  - split; [intros H; split; [exact H | intros (t & [] & _)] | tauto].
  - rewrite IH, in_class_remove. split.
    + intros [[Hin Hne] Hno]. split; [assumption|].
      intros (t' & [<-|Ht'] & Heq); [contradiction|].
      apply Hno. exists t'. split; assumption.
    + intros [Hin Hno]. split; [split; [assumption|]|].
      * intros ->. apply Hno. exists t. split; [left|]; reflexivity.
      * intros (t' & Ht' & Heq). apply Hno. exists t'. split; [right|]; assumption.
Qed.

Lemma in_fold_class_add tpl ts : forall cl x,
  In x (fold_left (fun cl t => class_add (derive tpl t) cl) ts cl)
  <-> In x cl \/ (exists t, In t ts /\ x = derive tpl t).
Proof.
  induction ts as [|t ts IH]; intros cl x; simpl.
  - split; [tauto | intros [H|(t & [] & _)]; exact H].
  - rewrite IH, in_class_add. split.
    + intros [[Hin| ->]|(t' & Ht' & Heq)].
      * left; assumption.
      * right. exists t. split; [left|]; reflexivity.
      * right. exists t'. split; [right|]; assumption.
    + intros [Hin|(t' & [<-|Ht'] & Heq)].
      * left; left; assumption.
      * left; right; assumption.
      * right. exists t'. split; assumption.
Qed.

Lemma in_removed last current t :
  In t (removed last current) <-> In t (split last) /\ ~ In t (split current).
Proof.
  unfold removed. rewrite filter_In, negb_true_iff, bool_decide_eq_false.
  rewrite list_elem_of_In. reflexivity.
Qed.

Lemma in_added last current t :
  In t (added last current) <-> In t (split current) /\ ~ In t (split last).
Proof.
  unfold added. rewrite filter_In, negb_true_iff, bool_decide_eq_false.
  rewrite list_elem_of_In. reflexivity.
Qed.

End ModifierFacts.

(** C5.  spec-modelled.  When the modifier attribute changes from [last]
    to [current], a class is on the target element afterwards exactly when
    it was there before and is not derived from a token present only in
    [last], or it is derived from a token present only in [current]: the
    derived classes of old-only tokens go, those of new-only tokens come,
    classes unrelated to the scheme stay; the derived class of a token
    present in both lists is there afterwards exactly when it was there
    before.  Changing ["a b"] to ["b c"] on a list item removes
    [list-item--a], adds [list-item--c] and leaves [list-item--b]. *)
Theorem modifier_change_applies_token_difference :
  forall (last current : string) (tpl : Modifier.template)
         (classList : list string),
    (forall c : string,
        In c (Modifier.onModifierChanged last current tpl classList)
        <-> (In c classList
             /\ ~ (exists t, In t (Modifier.split last)
                             /\ ~ In t (Modifier.split current)
                             /\ c = Modifier.derive tpl t))
            \/ (exists t, In t (Modifier.split current)
                          /\ ~ In t (Modifier.split last)
                          /\ c = Modifier.derive tpl t))
    /\ (forall t : string,
          In t (Modifier.split last) -> In t (Modifier.split current) ->
          (In (Modifier.derive tpl t)
              (Modifier.onModifierChanged last current tpl classList)
           <-> In (Modifier.derive tpl t) classList))
    /\ Modifier.onModifierChanged "a b" "b c" Modifier.list_item_template
         ["list-item"; "list-item--a"; "list-item--b"; "mine"]
       = ["list-item"; "list-item--b"; "mine"; "list-item--c"].
Proof.
  intros last current tpl classList.
  assert (Hmain : forall c : string,
        In c (Modifier.onModifierChanged last current tpl classList)
        <-> (In c classList
             /\ ~ (exists t, In t (Modifier.split last)
                             /\ ~ In t (Modifier.split current)
                             /\ c = Modifier.derive tpl t))
            \/ (exists t, In t (Modifier.split current)
                          /\ ~ In t (Modifier.split last)
                          /\ c = Modifier.derive tpl t)).
  { intros c. unfold Modifier.onModifierChanged.
    rewrite in_fold_class_add, in_fold_class_remove.
    split.
    - intros [[Hin Hno]|(t & Ht & Heq)].
      + left. split; [assumption|]. intros (t & H1 & H2 & H3).
        apply Hno. exists t. split; [apply in_removed; split|]; assumption.
      + right. apply in_added in Ht as [H1 H2]. exists t. repeat split; assumption.
    - intros [[Hin Hno]|(t & H1 & H2 & H3)].
      + left. split; [assumption|]. intros (t & Ht & Heq).
        apply in_removed in Ht as [H1 H2]. apply Hno. exists t.
        repeat split; assumption.
      + right. exists t. split; [apply in_added; split|]; assumption. }
  split; [exact Hmain|]. split; [|reflexivity].
  intros t Hl Hc. rewrite Hmain. split.
  - intros [[Hin _]|(t' & H1 & H2 & Heq)]; [assumption|].
    apply derive_inj in Heq. subst t'. contradiction.
  - intros Hin. left. split; [assumption|].
    intros (t' & H1 & H2 & Heq). apply derive_inj in Heq. subst t'.
    contradiction.
Qed.

(** ** Content-ready callbacks run once, in order *)

Section ReadyFacts.
Import Ready.

Lemma ran_log_app e st extra :
  map snd (List.filter (fun p => Nat.eqb (fst p) e) (log st ++ extra))
  = ran e st ++ map snd (List.filter (fun p => Nat.eqb (fst p) e) extra).
Proof. unfold ran. rewrite List.filter_app, map_app. reflexivity. Qed.

Lemma ran_pairs_same (e : nat) (cbs : list nat) :
  map snd (List.filter (fun p => Nat.eqb (fst p) e) (map (pair e) cbs)) = cbs.
Proof.
  induction cbs as [|c cbs IH]; simpl; [reflexivity|].
  rewrite Nat.eqb_refl. simpl. rewrite IH. reflexivity.
Qed.

Lemma ran_pairs_other (e e' : nat) (cbs : list nat) :
  e' <> e ->
  map snd (List.filter (fun p => Nat.eqb (fst p) e) (map (pair e') cbs)) = [].
Proof.
  intros Hne. induction cbs as [|c cbs IH]; simpl; [reflexivity|].
  destruct (Nat.eqb_spec e' e); [contradiction | exact IH].
Qed.

Lemma registered_snoc e evs ev :
  registered e (evs ++ [ev])
  = registered e evs
    ++ match ev with
       | Call e' fn => if Nat.eqb e' e then [fn] else []
       | _ => []
       end.
Proof.
  unfold registered. rewrite flat_map_app. simpl. rewrite app_nil_r.
  reflexivity.
Qed.

(** The invariant: a ready element has an empty queue and has run what was
    registered for it, in order; an element that is not ready has run
    nothing, holds what was registered in its queue, and has a task pending
    ([extra] lists the listeners being fired). *)
Lemma setContentReady_invariant evs extra e0 st :
  (forall e,
      (e ∈ readyMap st -> queueMap st !! e = None /\ ran e st = registered e evs)
      /\ (e ∉ readyMap st ->
          ran e st = [] /\ queued e st = registered e evs
          /\ (registered e evs <> [] ->
              In e (immediates st ++ listeners st ++ e0 :: extra)))) ->
  forall e,
    (e ∈ readyMap (setContentReady e0 st) ->
     queueMap (setContentReady e0 st) !! e = None
     /\ ran e (setContentReady e0 st) = registered e evs)
    /\ (e ∉ readyMap (setContentReady e0 st) ->
        ran e (setContentReady e0 st) = []
        /\ queued e (setContentReady e0 st) = registered e evs
        /\ (registered e evs <> [] ->
            In e (immediates (setContentReady e0 st)
                  ++ listeners (setContentReady e0 st) ++ extra))).
Proof.
  intros Hinv e. destruct (Hinv e) as [Hready Hwait].
  unfold setContentReady, consumeQueue, ran, queued in *. simpl.
  destruct (decide (e = e0)) as [->|Hne].
  - split; [|intros Hnot; exfalso; apply Hnot; set_solver].
    intros _. rewrite lookup_delete_eq. split; [reflexivity|].
    rewrite List.filter_app, map_app, ran_pairs_same.
    destruct (decide (e0 ∈ readyMap st)) as [Hin|Hnin].
    + destruct (Hready Hin) as [Hq Hr]. rewrite Hq, Hr. simpl.
      apply app_nil_r.
    + destruct (Hwait Hnin) as (Hr & Hq & _). rewrite Hr, Hq. reflexivity.
  - rewrite lookup_delete_ne by congruence.
    rewrite List.filter_app, map_app, ran_pairs_other, app_nil_r by congruence.
    split.
    + intros Hin. apply Hready. set_solver.
    + intros Hnin. assert (Hnin' : e ∉ readyMap st) by set_solver.
      destruct (Hwait Hnin') as (Hr & Hq & Hp).
      split; [assumption|]. split; [assumption|].
      intros Hreg. specialize (Hp Hreg).
      rewrite !in_app_iff in *. simpl in Hp.
      destruct Hp as [?|[?|[?|?]]]; auto. congruence.
Qed.

Lemma fire_invariant evs ls : forall extra st,
  (forall e,
      (e ∈ readyMap st -> queueMap st !! e = None /\ ran e st = registered e evs)
      /\ (e ∉ readyMap st ->
          ran e st = [] /\ queued e st = registered e evs
          /\ (registered e evs <> [] ->
              In e (immediates st ++ listeners st ++ ls ++ extra)))) ->
  forall e,
    (e ∈ readyMap (fire ls st) ->
     queueMap (fire ls st) !! e = None /\ ran e (fire ls st) = registered e evs)
    /\ (e ∉ readyMap (fire ls st) ->
        ran e (fire ls st) = [] /\ queued e (fire ls st) = registered e evs
        /\ (registered e evs <> [] ->
            In e (immediates (fire ls st) ++ listeners (fire ls st) ++ extra))).
Proof.
  induction ls as [|e0 ls IH]; intros extra st Hinv; simpl.
  - exact Hinv.
  - apply IH. apply setContentReady_invariant. exact Hinv.
Qed.

Lemma fire_keeps_host ls : forall st,
  readyState (fire ls st) = readyState st
  /\ listeners (fire ls st) = listeners st
  /\ immediates (fire ls st) = immediates st.
Proof.
  induction ls as [|e ls IH]; intros st; simpl; [tauto|].
  destruct (IH (setContentReady e st)) as (H1 & H2 & H3).
  rewrite H1, H2, H3. simpl. tauto.
Qed.

Lemma run_snoc evs ev st : run (evs ++ [ev]) st = step (run evs st) ev.
Proof. unfold run. rewrite fold_left_app. reflexivity. Qed.

Lemma run_invariant rs evs :
  (forall e,
      (e ∈ readyMap (run evs (init rs)) ->
       queueMap (run evs (init rs)) !! e = None
       /\ ran e (run evs (init rs)) = registered e evs)
      /\ (e ∉ readyMap (run evs (init rs)) ->
          ran e (run evs (init rs)) = []
          /\ queued e (run evs (init rs)) = registered e evs
          /\ (registered e evs <> [] ->
              In e (immediates (run evs (init rs))
                    ++ listeners (run evs (init rs)) ++ []))))
  /\ (listeners (run evs (init rs)) = []
      \/ readyState (run evs (init rs)) = Loading).
Proof.
  induction evs as [|ev evs IH] using rev_ind.
  - split; [|left; reflexivity]. intros e. split.
    + intros Hin. exfalso. revert Hin. apply not_elem_of_empty.
    + intros _. repeat split. intros Hreg. contradiction.
  - rewrite run_snoc. destruct IH as [Hinv Hhost].
    set (st := run evs (init rs)) in *.
    destruct ev as [e0 fn| |]; simpl.
    + (* Call *)
      split.
      * intros e. rewrite registered_snoc. destruct (Hinv e) as [Hready Hwait].
        unfold contentReady.
        destruct (decide (e0 ∈ readyMap st)) as [Hin0|Hnin0].
        -- unfold consumeQueue, ran, queued in *. simpl.
           rewrite lookup_insert_eq. simpl.
           destruct (Hinv e0) as [Hready0 _]. destruct (Hready0 Hin0) as [Hq0 _].
           rewrite Hq0. simpl.
           destruct (Nat.eqb_spec e0 e) as [->|Hne].
           ++ rewrite lookup_delete_eq. rewrite List.filter_app, map_app. simpl.
              rewrite Nat.eqb_refl. simpl.
              split; [|intros Hnot; contradiction].
              intros _. destruct (Hready Hin0) as [_ Hr]. rewrite Hr. tauto.
           ++ rewrite lookup_delete_ne, lookup_insert_ne by congruence.
              rewrite List.filter_app, map_app. simpl.
              destruct (Nat.eqb_spec e0 e); [contradiction|]. simpl.
              rewrite !app_nil_r in *. split; assumption.
        -- assert (Hsame : forall qm im ls,
                     ran e (State qm (readyMap st) (readyState st) im ls (log st))
                     = ran e st) by reflexivity.
           destruct (Hinv e0) as [_ Hwait0]. destruct (Hwait0 Hnin0) as (_ & Hq0 & _).
           unfold queued in Hq0.
           destruct (readyState st); unfold queued; simpl; rewrite Hsame;
             (destruct (Nat.eqb_spec e0 e) as [->|Hne];
              [ rewrite lookup_insert_eq; simpl; rewrite Hq0;
                split; [intros Hin; contradiction|];
                intros _; destruct (Hwait Hnin0) as (Hr & _ & _);
                split; [assumption|]; split; [reflexivity|];
                intros _; rewrite !in_app_iff; simpl; tauto
              | rewrite lookup_insert_ne by congruence; rewrite app_nil_r;
                split; [assumption|];
                intros Hnin; destruct (Hwait Hnin) as (Hr & Hq & Hp);
                split; [assumption|]; split; [assumption|];
                intros Hreg; specialize (Hp Hreg);
                rewrite !in_app_iff in *; simpl in *; tauto ]).
      * unfold contentReady.
        destruct (decide (e0 ∈ readyMap st)); simpl; [exact Hhost|].
        destruct (readyState st) eqn:Hrs; simpl; auto;
          destruct Hhost as [Hl|Hl]; auto; discriminate.
    + (* RunImmediate *)
      assert (Hreg : forall e, registered e (evs ++ [RunImmediate])
                               = registered e evs)
        by (intros e; rewrite registered_snoc; apply app_nil_r).
      setoid_rewrite Hreg. clear Hreg.
      destruct (immediates st) as [|e0 rest] eqn:Him;
        [split; [rewrite Him|]; assumption|].
      split; [|exact Hhost].
      apply (setContentReady_invariant evs []). intros e.
      destruct (Hinv e) as [Hready Hwait]. split; [exact Hready|].
      intros Hnin. destruct (Hwait Hnin) as (Hr & Hq & Hp).
      split; [assumption|]. split; [assumption|].
      intros Hreg. specialize (Hp Hreg). simpl.
      rewrite ?Him in Hp. rewrite !in_app_iff in *. simpl in *. tauto.
    + (* ReadyStateChange *)
      assert (Hreg : forall e, registered e (evs ++ [ReadyStateChange])
                               = registered e evs)
        by (intros e; rewrite registered_snoc; apply app_nil_r).
      setoid_rewrite Hreg. clear Hreg.
      assert (Hfire : forall s',
        queueMap s' = queueMap st -> readyMap s' = readyMap st ->
        immediates s' = immediates st -> listeners s' = [] ->
        log s' = log st ->
        (forall e,
          (e ∈ readyMap (fire (listeners st) s') ->
           queueMap (fire (listeners st) s') !! e = None
           /\ ran e (fire (listeners st) s') = registered e evs)
          /\ (e ∉ readyMap (fire (listeners st) s') ->
              ran e (fire (listeners st) s') = []
              /\ queued e (fire (listeners st) s') = registered e evs
              /\ (registered e evs <> [] ->
                  In e (immediates (fire (listeners st) s')
                        ++ listeners (fire (listeners st) s') ++ []))))
        /\ (listeners (fire (listeners st) s') = []
            \/ readyState (fire (listeners st) s') = Loading)).
      { intros s' Hq Hr Hi Hl Hlog. split.
        - apply (fire_invariant evs (listeners st) []). intros e'.
          unfold ran, queued. rewrite Hq, Hr, Hi, Hl, Hlog.
          destruct (Hinv e') as [Hready Hwait]. split; [exact Hready|].
          intros Hnin. destruct (Hwait Hnin) as (Hr' & Hq' & Hp).
          split; [assumption|]. split; [assumption|].
          intros Hreg. specialize (Hp Hreg). simpl.
          rewrite !in_app_iff in *. simpl in *. tauto.
        - left. destruct (fire_keeps_host (listeners st) s') as (_ & Hl' & _).
          rewrite Hl'. exact Hl. }
      destruct (readyState st) eqn:Hrs.
      * apply Hfire; reflexivity.
      * apply Hfire; reflexivity.
      * split; [exact Hinv|].
        destruct Hhost as [Hl|Hl]; [left; exact Hl | discriminate].
Qed.

Lemma setContentReady_marks e st : e ∈ readyMap (setContentReady e st).
Proof. unfold setContentReady, consumeQueue. simpl. set_solver. Qed.

Lemma setContentReady_keeps_ready e e0 st :
  e ∈ readyMap st -> e ∈ readyMap (setContentReady e0 st).
Proof. unfold setContentReady, consumeQueue. simpl. set_solver. Qed.

Lemma fire_keeps_ready e ls : forall st,
  e ∈ readyMap st -> e ∈ readyMap (fire ls st).
Proof.
  induction ls as [|e0 ls IH]; intros st Hin; simpl; [exact Hin|].
  apply IH, setContentReady_keeps_ready, Hin.
Qed.

Lemma fire_marks e ls : forall st, In e ls -> e ∈ readyMap (fire ls st).
Proof.
  induction ls as [|e0 ls IH]; intros st Hin; simpl; [destruct Hin|].
  destruct Hin as [->|Hin].
  - apply fire_keeps_ready, setContentReady_marks.
  - apply IH, Hin.
Qed.

Lemma step_keeps_ready e st ev :
  match ev with Call _ _ => False | _ => True end ->
  e ∈ readyMap st -> e ∈ readyMap (step st ev).
Proof.
  intros Hhost Hin. destruct ev as [? ?| |]; [destruct Hhost| |]; simpl.
  - destruct (immediates st); [exact Hin|].
    apply setContentReady_keeps_ready. exact Hin.
  - destruct (readyState st); try exact Hin; apply fire_keeps_ready; exact Hin.
Qed.

Lemma immediates_run e : forall im st,
  immediates st = im -> In e im ->
  e ∈ readyMap (run (repeat RunImmediate (length im)) st).
Proof.
  induction im as [|e0 im IH]; intros st Him Hin; [destruct Hin|].
  simpl. rewrite Him.
  destruct Hin as [->|Hin].
  - clear IH. generalize (length im). intros n.
    assert (Hk : forall n s, e ∈ readyMap s ->
                 e ∈ readyMap (run (repeat RunImmediate n) s)).
    { clear. induction n as [|n IHn]; intros s Hs; simpl; [exact Hs|].
      apply IHn. apply (step_keeps_ready e s RunImmediate I Hs). }
    apply Hk, setContentReady_marks.
  - apply IH; [reflexivity | exact Hin].
Qed.

End ReadyFacts.

(** C4.  After any sequence of [contentReady] calls and host events, for
    every element: once the element is ready, the callbacks run for it are
    exactly the callbacks registered for it, each once and in registration
    order, and its queue is empty; before that none has run and the queue
    holds them all in order.  The ready transition ([setContentReady]) runs
    the queued callbacks in registration order; a callback registered when
    the element is already ready is the one thing that call runs, at once.
    An element that is not ready and has a callback registered has its
    transition pending: some host events (no further call) make it ready.
    Callbacks are opaque: they do not call [contentReady] themselves. *)
Theorem content_ready_callbacks_run_once_in_order :
  forall (rs : Ready.ready_state) (evs : list Ready.event) (e : nat),
    let st := Ready.run evs (Ready.init rs) in
    (e ∈ Ready.readyMap st ->
     Ready.ran e st = Ready.registered e evs /\ Ready.queued e st = [])
    /\ (e ∉ Ready.readyMap st ->
        Ready.ran e st = [] /\ Ready.queued e st = Ready.registered e evs)
    /\ (e ∉ Ready.readyMap st ->
        Ready.log (Ready.setContentReady e st)
        = Ready.log st ++ map (pair e) (Ready.registered e evs)
        /\ e ∈ Ready.readyMap (Ready.setContentReady e st))
    /\ (e ∈ Ready.readyMap st ->
        forall fn : nat,
          Ready.log (Ready.contentReady e fn st) = Ready.log st ++ [(e, fn)]
          /\ Ready.queued e (Ready.contentReady e fn st) = [])
    /\ (e ∉ Ready.readyMap st -> Ready.registered e evs <> [] ->
        exists host : list Ready.event,
          Forall (fun ev => match ev with
                            | Ready.Call _ _ => False
                            | _ => True
                            end) host
          /\ e ∈ Ready.readyMap (Ready.run host st)).
Proof.
  intros rs evs e st. destruct (run_invariant rs evs) as [Hinv Hhost].
  fold st in Hinv, Hhost. destruct (Hinv e) as [Hready Hwait].
  split; [|split; [|split; [|split]]].
  - intros Hin. destruct (Hready Hin) as [Hq Hr]. split; [exact Hr|].
    unfold Ready.queued. rewrite Hq. reflexivity.
  - intros Hnin. destruct (Hwait Hnin) as (Hr & Hq & _). split; assumption.
  - intros Hnin. destruct (Hwait Hnin) as (_ & Hq & _).
    split; [|apply setContentReady_marks].
    unfold Ready.setContentReady, Ready.consumeQueue. simpl.
    unfold Ready.queued in Hq. rewrite Hq. reflexivity.
  - intros Hin fn. destruct (Hready Hin) as [Hq _].
    unfold Ready.contentReady, Ready.consumeQueue, Ready.queued.
    destruct (decide (e ∈ Ready.readyMap st)); [|contradiction]. simpl.
    rewrite lookup_insert_eq, lookup_delete_eq, Hq. split; reflexivity.
  - intros Hnin Hreg. destruct (Hwait Hnin) as (_ & _ & Hp).
    specialize (Hp Hreg). rewrite app_nil_r, in_app_iff in Hp.
    destruct Hp as [Him|Hls].
    + exists (repeat Ready.RunImmediate (length (Ready.immediates st))).
      split; [|apply immediates_run; [reflexivity | exact Him]].
      apply Forall_forall. intros ev Hev. apply list_elem_of_In in Hev.
      apply repeat_spec in Hev.
      subst ev. exact I.
    + exists [Ready.ReadyStateChange]. split; [repeat constructor|].
      destruct Hhost as [Hl|Hl]; [rewrite Hl in Hls; destruct Hls|].
      simpl. rewrite Hl. apply fire_marks. exact Hls.
Qed.

(** ** General facts about child lists *)

Section DomFacts.

Lemma is_node_true i n : is_node i n = true <-> node_id n = i.
Proof. unfold is_node. apply Nat.eqb_eq. Qed.

Lemma is_node_false i n : is_node i n = false <-> node_id n <> i.
Proof. unfold is_node. apply Nat.eqb_neq. Qed.

Lemma in_remove_node i n kids :
  In n (remove_node i kids) <-> In n kids /\ node_id n <> i.
Proof.
  unfold remove_node. rewrite filter_In, negb_true_iff, is_node_false.
  reflexivity.
Qed.

Lemma NoDup_map_filter {A B} (f : A -> B) (p : A -> bool) (l : list A) :
  List.NoDup (map f l) -> List.NoDup (map f (List.filter p l)).
Proof.
  induction l as [|a l IH]; simpl; intros Hnd; [constructor|].
  inversion Hnd as [|? ? Hnotin Hnd']; subst.
  destruct (p a); simpl; [|apply IH, Hnd'].
  constructor; [|apply IH, Hnd'].
  intros Hin. apply Hnotin. apply in_map_iff in Hin as (x & Hx & Hin).
  apply filter_In in Hin as [Hin _]. apply in_map_iff. exists x. tauto.
Qed.

Lemma filter_head_in {A} (p : A -> bool) (l : list A) a rest :
  List.filter p l = a :: rest -> In a l /\ p a = true.
Proof.
  intros Heq. apply filter_In. rewrite Heq. left. reflexivity.
Qed.

Lemma filter_tail_in {A} (p : A -> bool) (l : list A) a rest x :
  List.filter p l = a :: rest -> In x rest -> In x l /\ p x = true.
Proof.
  intros Heq Hin. apply filter_In. rewrite Heq. right. exact Hin.
Qed.

End DomFacts.

(** ** ons-tab: the icon wrapper *)

Section TabFacts.
Import Tab.

Lemma in_remove_all further : forall kids n,
  In n (remove_all further kids)
  <-> In n kids /\ ~ In (node_id n) (map node_id further).
Proof.
  unfold remove_all.
  induction further as [|f further IH]; intros kids n; simpl.
  - tauto.
  - rewrite IH, in_remove_node. intuition congruence.
Qed.








End TabFacts.



(** ** ons-list-item: what a compilation does to the children *)

Section ListItemFacts.
Import ListItem.

Lemma add_class_id c n : node_id (add_class c n) = node_id n.
Proof. destruct n as [|i t a cl k]; simpl; [reflexivity|]. destruct (existsb _ cl); reflexivity. Qed.

Lemma add_class_name c n : node_name (add_class c n) = node_name n.
Proof. destruct n as [|i t a cl k]; simpl; [reflexivity|]. destruct (existsb _ cl); reflexivity. Qed.

Lemma add_class_children c n : children (add_class c n) = children n.
Proof. destruct n as [|i t a cl k]; simpl; [reflexivity|]. destruct (existsb _ cl); reflexivity. Qed.

Lemma add_class_is_element c n : is_element (add_class c n) = is_element n.
Proof. destruct n as [|i t a cl k]; simpl; [reflexivity|]. destruct (existsb _ cl); reflexivity. Qed.

Lemma add_class_has_class c n :
  is_element n = true -> has_class c (add_class c n) = true.
Proof.
  destruct n as [|i t a cl k]; simpl; [discriminate|]. intros _.
  unfold has_class. destruct (existsb (String.eqb c) cl) eqn:Hex; simpl.
  - exact Hex.
  - rewrite existsb_app. simpl. rewrite String.eqb_refl. apply orb_true_r.
Qed.

Lemma add_class_has_other c c' n :
  c' <> c -> has_class c' (add_class c n) = has_class c' n.
Proof.
  intros Hne. destruct n as [|i t a cl k]; simpl; [reflexivity|].
  unfold has_class. destruct (existsb (String.eqb c) cl); simpl; [reflexivity|].
  rewrite existsb_app. simpl.
  destruct (String.eqb_spec c' c); [contradiction|].
  rewrite !orb_false_r. reflexivity.
Qed.

Lemma add_class_matches tag c c' n :
  c' <> c ->
  matches_tag_class tag c' (add_class c n) = matches_tag_class tag c' n.
Proof.
  intros Hne. unfold matches_tag_class.
  rewrite add_class_is_element, add_class_name, add_class_has_other by assumption.
  reflexivity.
Qed.

Lemma add_class_idem c n : add_class c (add_class c n) = add_class c n.
Proof.
  destruct n as [|i t a cl k]; simpl; [reflexivity|].
  destruct (existsb (String.eqb c) cl) eqn:Hex; simpl; rewrite ?Hex; [reflexivity|].
  rewrite existsb_app. simpl. rewrite String.eqb_refl, orb_true_r. reflexivity.
Qed.

Lemma add_class_present c n : has_class c n = true -> add_class c n = n.
Proof.
  destruct n as [|i t a cl k]; simpl; [reflexivity|]. unfold has_class. simpl.
  intros ->. reflexivity.
Qed.

Lemma append_children_id moved n : node_id (append_children moved n) = node_id n.
Proof. destruct n; reflexivity. Qed.

Lemma append_children_name moved n : node_name (append_children moved n) = node_name n.
Proof. destruct n; reflexivity. Qed.

Lemma append_children_classes moved n : classes (append_children moved n) = classes n.
Proof. destruct n; reflexivity. Qed.

Lemma set_children_id k n : node_id (set_children k n) = node_id n.
Proof. destruct n; reflexivity. Qed.

Lemma in_update_node i f kids n :
  In n (update_node i f kids)
  <-> exists m, In m kids /\ n = (if is_node i m then f m else m).
Proof.
  unfold update_node. rewrite in_map_iff. split; intros (m & H1 & H2); exists m; auto.
Qed.

Lemma update_node_ids i f kids :
  (forall n, node_id (f n) = node_id n) ->
  map node_id (update_node i f kids) = map node_id kids.
Proof.
  intros Hf. unfold update_node. rewrite map_map. apply map_ext.
  intros n. destruct (is_node i n); [apply Hf | reflexivity].
Qed.

Lemma update_ref_ids r f kids :
  (forall n, node_id (f n) = node_id n) ->
  map node_id (update_ref r f kids) = map node_id kids.
Proof. destruct r; simpl; [apply update_node_ids | reflexivity]. Qed.

Lemma filter_update_node p i f kids :
  (forall n, p (f n) = p n) ->
  List.filter p (update_node i f kids) = update_node i f (List.filter p kids).
Proof.
  intros Hp. induction kids as [|n kids IH]; simpl; [reflexivity|].
  destruct (is_node i n) eqn:Hi.
  - rewrite Hp. destruct (p n); simpl; rewrite ?Hi, IH; reflexivity.
  - destruct (p n); simpl; rewrite ?Hi, IH; reflexivity.
Qed.

Lemma filter_update_ref p r f kids :
  (forall n, p (f n) = p n) ->
  List.filter p (update_ref r f kids) = update_ref r f (List.filter p kids).
Proof. destruct r; simpl; [apply filter_update_node | reflexivity]. Qed.

(** Updating through a reference that the filter rejects changes nothing
    of what the filter keeps. *)
Lemma filter_update_node_out p i f kids :
  (forall n, is_node i n = true -> p n = false) ->
  (forall n, is_node i n = true -> p (f n) = false) ->
  List.filter p (update_node i f kids) = List.filter p kids.
Proof.
  intros H1 H2. induction kids as [|n kids IH]; simpl; [reflexivity|].
  destruct (is_node i n) eqn:Hi.
  - rewrite (H1 n Hi), (H2 n Hi). exact IH.
  - rewrite IH. reflexivity.
Qed.

Lemma update_node_length i f kids : length (update_node i f kids) = length kids.
Proof. unfold update_node. apply length_map. Qed.

Lemma stray_false l r c n :
  stray l r c n = false
  <-> is_ref l n = true \/ is_ref r n = true \/ is_ref c n = true
      \/ is_ripple n = true.
Proof.
  unfold stray. rewrite andb_false_iff, !negb_false_iff, !orb_true_iff. tauto.
Qed.

Lemma is_ref_same r n m : node_id n = node_id m -> is_ref r n = is_ref r m.
Proof. intros H. destruct r; simpl; [|reflexivity]. unfold is_node. rewrite H. reflexivity. Qed.

Lemma stray_same l r c n m :
  node_id n = node_id m -> node_name n = node_name m ->
  stray l r c n = stray l r c m.
Proof.
  intros Hid Hname. unfold stray, is_ripple.
  rewrite (is_ref_same l n m), (is_ref_same r n m), (is_ref_same c n m), Hname
    by assumption.
  reflexivity.
Qed.

(** The cases of an adoption. *)
Lemma adopt_cases sel created kids :
  (List.filter sel kids = []
   /\ adopt sel created kids
      = match created with
        | Some n => (n :: kids, Some (node_id n))
        | None => (kids, None)
        end)
  \/ (exists a, List.filter sel kids = [a]
                /\ adopt sel created kids = (kids, Some (node_id a)))
  \/ (exists a b more, List.filter sel kids = a :: b :: more
                       /\ adopt sel created kids
                          = (remove_node (node_id a) kids, Some (node_id b))).
Proof.
  unfold adopt. destruct (List.filter sel kids) as [|a [|b more]].
  - left. split; reflexivity.
  - right; left. exists a. split; reflexivity.
  - right; right. exists a, b, more. split; reflexivity.
Qed.

Lemma add_class_attributes c n : node_attributes (add_class c n) = node_attributes n.
Proof. destruct n as [|i t a cl k]; simpl; [reflexivity|]. destruct (existsb _ cl); reflexivity. Qed.

Lemma same_object_refl cs n : same_object cs n n.
Proof. unfold same_object. tauto. Qed.

Lemma same_object_trans cs a b c :
  same_object cs a b -> same_object cs b c -> same_object cs a c.
Proof.
  unfold same_object.
  intros (H1 & H2 & H3 & H4 & H5 & H6) (K1 & K2 & K3 & K4 & K5 & K6).
  repeat split; try congruence.
  intros x Hx. rewrite H6, K6 by assumption. reflexivity.
Qed.

Lemma same_object_add_class cs c n : In c cs -> same_object cs (add_class c n) n.
Proof.
  intros Hc. unfold same_object.
  rewrite add_class_id, add_class_name, add_class_is_element,
    add_class_children, add_class_attributes.
  repeat split. intros x Hx. apply add_class_has_other. congruence.
Qed.

Lemma same_object_matches cs tag c m o :
  ~ In c cs -> same_object cs m o ->
  matches_tag_class tag c m = matches_tag_class tag c o.
Proof.
  intros Hc (H1 & H2 & H3 & H4 & H5 & H6). unfold matches_tag_class.
  rewrite H2, H3, H6 by assumption. reflexivity.
Qed.

Lemma same_object_stray cs l r c m o :
  same_object cs m o -> stray l r c m = stray l r c o.
Proof. intros (H1 & H2 & _). apply stray_same; assumption. Qed.

(** A class update through a reference keeps every object. *)
Lemma update_ref_back cs c r kids m :
  In c cs -> In m (update_ref r (add_class c) kids) ->
  exists o, In o kids /\ same_object cs m o.
Proof.
  intros Hc Hin. destruct r as [i|]; simpl in Hin.
  - apply in_update_node in Hin as (o & Ho & ->). exists o. split; [assumption|].
    destruct (is_node i o); [apply same_object_add_class, Hc | apply same_object_refl].
  - exists m. split; [assumption | apply same_object_refl].
Qed.

Lemma update_ref_forth cs c r kids o :
  In c cs -> In o kids ->
  exists m, In m (update_ref r (add_class c) kids) /\ same_object cs m o
            /\ (is_ref r o = true -> is_element o = true -> has_class c m = true).
Proof.
  intros Hc Hin. destruct r as [i|]; simpl.
  - exists (if is_node i o then add_class c o else o). split.
    + apply in_update_node. exists o. split; [assumption | reflexivity].
    + destruct (is_node i o); split.
      * apply same_object_add_class, Hc.
      * intros _ He. apply add_class_has_class, He.
      * apply same_object_refl.
      * discriminate.
  - exists o. split; [assumption|]. split; [apply same_object_refl | discriminate].
Qed.

Lemma filter_update_ref_class tag c' c r kids :
  c' <> c ->
  List.filter (matches_tag_class tag c') (update_ref r (add_class c) kids)
  = update_ref r (add_class c) (List.filter (matches_tag_class tag c') kids).
Proof.
  intros Hne. apply filter_update_ref. intros n. apply add_class_matches, Hne.
Qed.

Lemma update_ref_length r f kids : length (update_ref r f kids) = length kids.
Proof. destruct r; simpl; [apply update_node_length | reflexivity]. Qed.

(** What an adoption keeps, adds and removes. *)
Lemma adopt_back sel created kids kids' r m :
  adopt sel created kids = (kids', r) -> In m kids' ->
  In m kids \/ created = Some m.
Proof.
  intros Ha Hin.
  destruct (adopt_cases sel created kids)
    as [[_ He]|[(a & _ & He)|(a & b & more & _ & He)]];
    rewrite He in Ha.
  - destruct created as [n|]; simplify_eq; [|left; assumption].
    destruct Hin as [<-|Hin]; [right; reflexivity | left; assumption].
  - simplify_eq. left; assumption.
  - simplify_eq. apply in_remove_node in Hin as [Hin _]. left; assumption.
Qed.

Lemma adopt_forth sel created kids kids' r o :
  adopt sel created kids = (kids', r) -> In o kids ->
  In o kids'
  \/ (exists a b more, List.filter sel kids = a :: b :: more
                       /\ node_id o = node_id a).
Proof.
  intros Ha Hin.
  destruct (adopt_cases sel created kids)
    as [[_ He]|[(a & _ & He)|(a & b & more & Hf & He)]];
    rewrite He in Ha.
  - destruct created as [n|]; simplify_eq; left; [right|]; assumption.
  - simplify_eq. left; assumption.
  - simplify_eq. destruct (Nat.eq_dec (node_id o) (node_id a)) as [Heq|Hne].
    + right. exists a, b, more. split; assumption.
    + left. apply in_remove_node. split; assumption.
Qed.

Lemma adopt_created sel created kids kids' r n :
  adopt sel created kids = (kids', r) -> created = Some n ->
  List.filter sel kids = [] -> In n kids' /\ r = Some (node_id n).
Proof.
  intros Ha -> Hf. unfold adopt in Ha. rewrite Hf in Ha. simplify_eq.
  split; [left|]; reflexivity.
Qed.

Lemma adopt_few sel created kids :
  length (List.filter sel kids) <= 1 ->
  adopt sel created kids
  = match List.filter sel kids, created with
    | [], Some n => (n :: kids, Some (node_id n))
    | [], None => (kids, None)
    | a :: _, _ => (kids, Some (node_id a))
    end.
Proof.
  unfold adopt. destruct (List.filter sel kids) as [|a [|b more]]; simpl;
    intros Hlen; try reflexivity. lia.
Qed.

Lemma wrapper_class_left : In "list-item__left" wrapper_classes.
Proof. simpl. tauto. Qed.

Lemma wrapper_class_right : In "list-item__right" wrapper_classes.
Proof. simpl. tauto. Qed.

Lemma wrapper_class_center : In "list-item__center" wrapper_classes.
Proof. simpl. tauto. Qed.

Lemma role_not_wrapper_class c :
  c = "left" \/ c = "right" \/ c = "center" \/ c = "top"
  \/ c = "expandable-content" ->
  ~ In c wrapper_classes.
Proof.
  intros [->|[->|[->|[->| ->]]]]; simpl; intros [H|[H|[H|[]]]]; discriminate.
Qed.

Lemma filter_remove_node (p : node -> bool) i kids :
  List.filter p (remove_node i kids) = remove_node i (List.filter p kids).
Proof.
  unfold remove_node. induction kids as [|n kids IH]; simpl; [reflexivity|].
  destruct (is_node i n) eqn:Hi, (p n) eqn:Hp; simpl;
    rewrite ?Hi, ?Hp, ?IH; reflexivity.
Qed.

Lemma remove_node_length i kids : length (remove_node i kids) <= length kids.
Proof. unfold remove_node. apply List.filter_length_le. Qed.

(** Every child [adopt_wrappers] leaves is a child that was there, or one
    of the two wrappers it may create. *)
Lemma adopt_wrappers_back e fresh content lref rref cref c5 m :
  adopt_wrappers e fresh content = (lref, rref, cref, c5) -> In m c5 ->
  exists o, same_object wrapper_classes m o
            /\ (In o content \/ (e = true /\ o = new_right fresh)
                \/ o = new_center fresh).
Proof.
  unfold adopt_wrappers. intros Ha Hin.
  destruct (adopt (matches_tag_class "DIV" "right") _ _) as [c2 rref'] eqn:Hr.
  destruct (adopt (matches_tag_class "DIV" "center") _ _) as [c4 cref'] eqn:Hc.
  simplify_eq.
  apply (update_ref_back wrapper_classes) in Hin as (m4 & Hin4 & S4);
    [|apply wrapper_class_center].
  destruct (adopt_back _ _ _ _ _ _ Hc Hin4) as [Hin3|Hnew].
  - apply (update_ref_back wrapper_classes) in Hin3 as (m2 & Hin2 & S2);
      [|apply wrapper_class_right].
    destruct (adopt_back _ _ _ _ _ _ Hr Hin2) as [Hin1|Hnew].
    + apply (update_ref_back wrapper_classes) in Hin1 as (o & Hin0 & S0);
        [|apply wrapper_class_left].
      exists o. split; [|left; assumption].
      eapply same_object_trans; [exact S4|].
      eapply same_object_trans; [exact S2 | exact S0].
    + destruct e; [|discriminate]. simplify_eq.
      exists (new_right fresh). split; [|right; left; split; reflexivity].
      eapply same_object_trans; [exact S4 | exact S2].
  - simplify_eq. exists (new_center fresh). split; [exact S4 | right; right; reflexivity].
Qed.

Lemma filter_two_length {A} (p : A -> bool) (l : list A) a b more :
  List.filter p l = a :: b :: more -> 2 <= length (List.filter p l).
Proof. intros ->. simpl. lia. Qed.

(** Every child that was there is still there after [adopt_wrappers],
    unless it has the identity of a first duplicate. *)
Lemma adopt_wrappers_forth e fresh content lref rref cref c5 o :
  adopt_wrappers e fresh content = (lref, rref, cref, c5) -> In o content ->
  (exists m, In m c5 /\ same_object wrapper_classes m o)
  \/ (2 <= length (List.filter (matches_tag_class "DIV" "right") content)
      /\ exists a, In a content /\ node_id a = node_id o
                   /\ matches_tag_class "DIV" "right" a = true)
  \/ (2 <= length (List.filter (matches_tag_class "DIV" "center") content)
      /\ exists a, In a content /\ node_id a = node_id o
                   /\ matches_tag_class "DIV" "center" a = true).
Proof.
  unfold adopt_wrappers. intros Ha Hin.
  destruct (adopt (matches_tag_class "DIV" "right") _ _) as [c2 rref'] eqn:Hr.
  destruct (adopt (matches_tag_class "DIV" "center") _ _) as [c4 cref'] eqn:Hc.
  injection Ha as El Er Ec E5. subst lref rref cref c5.
  set (l := node_id <$> List.find (matches_tag_class "DIV" "left") content) in *.
  set (c1 := update_ref l (add_class "list-item__left") content) in *.
  destruct (update_ref_forth wrapper_classes "list-item__left" l content o
              wrapper_class_left Hin) as (m1 & Hin1 & S1 & _).
  fold c1 in Hin1.
  destruct (adopt_forth _ _ _ _ _ _ Hr Hin1)
    as [Hin2|(a & b & more & Hf & Hid)].
  2:{ right; left.
      unfold c1 in Hf. rewrite filter_update_ref_class in Hf by discriminate.
      split.
      - pose proof (f_equal length Hf) as Hlen.
        rewrite update_ref_length in Hlen. simpl in Hlen. lia.
      - assert (Ha : In a (update_ref l (add_class "list-item__left")
                             (List.filter (matches_tag_class "DIV" "right") content)))
          by (rewrite Hf; left; reflexivity).
        apply (update_ref_back wrapper_classes) in Ha as (a0 & Ha0 & Sa);
          [|apply wrapper_class_left].
        apply filter_In in Ha0 as [Ha0 Hsel]. exists a0.
        destruct S1 as (E1 & _). destruct Sa as (E2 & _).
        repeat split; [assumption | congruence | assumption]. }
  destruct (update_ref_forth wrapper_classes "list-item__right" rref' c2 m1
              wrapper_class_right Hin2) as (m3 & Hin3 & S3 & _).
  set (c3 := update_ref rref' (add_class "list-item__right") c2) in *.
  destruct (adopt_forth _ _ _ _ _ _ Hc Hin3)
    as [Hin4|(a & b & more & Hf & Hid)].
  2:{ right; right.
      assert (Hsub : forall x, In x c2 ->
                matches_tag_class "DIV" "center" x = true ->
                exists x0, In x0 content /\ same_object wrapper_classes x x0).
      { intros x Hx Hsel.
        destruct (adopt_back _ _ _ _ _ _ Hr Hx) as [Hx1|Hnew].
        - apply (update_ref_back wrapper_classes) in Hx1 as (x0 & Hx0 & Sx);
            [|apply wrapper_class_left].
          exists x0. split; assumption.
        - destruct e; simplify_eq. }
      assert (Hlen : length (List.filter (matches_tag_class "DIV" "center") c2)
                     <= length (List.filter (matches_tag_class "DIV" "center") content)).
      { destruct (adopt_cases (matches_tag_class "DIV" "right")
                    (if e then Some (Elem (fresh + 1) "DIV" [] ["right"]
                       [Elem fresh "SPAN" [] ["list-item__expand-chevron"] []])
                     else None) c1)
          as [[_ He]|[(x & _ & He)|(x & y & z & _ & He)]]; rewrite He in Hr.
        - destruct e; injection Hr as E2 _; subst c2; simpl; unfold c1;
            rewrite filter_update_ref_class, update_ref_length by discriminate;
            lia.
        - injection Hr as E2 _; subst c2. unfold c1.
          rewrite filter_update_ref_class, update_ref_length by discriminate. lia.
        - injection Hr as E2 _; subst c2. rewrite filter_remove_node.
          etransitivity; [apply remove_node_length|]. unfold c1.
          rewrite filter_update_ref_class, update_ref_length by discriminate. lia. }
      unfold c3 in Hf. rewrite filter_update_ref_class in Hf by discriminate.
      split.
      - pose proof (f_equal length Hf) as Hlen2.
        rewrite update_ref_length in Hlen2. simpl in Hlen2. lia.
      - assert (Ha : In a (update_ref rref' (add_class "list-item__right")
                             (List.filter (matches_tag_class "DIV" "center") c2)))
          by (rewrite Hf; left; reflexivity).
        apply (update_ref_back wrapper_classes) in Ha as (a2 & Ha2 & Sa);
          [|apply wrapper_class_right].
        apply filter_In in Ha2 as [Ha2 Hsel].
        destruct (Hsub a2 Ha2 Hsel) as (a0 & Ha0 & Sa0). exists a0.
        split; [assumption|]. split.
        + destruct S1 as (E1 & _), S3 as (E3 & _), Sa as (E2 & _), Sa0 as (E0 & _).
          congruence.
        + rewrite <- (same_object_matches wrapper_classes "DIV" "center" a2 a0);
            [assumption | apply role_not_wrapper_class; tauto | assumption]. }
  destruct (update_ref_forth wrapper_classes "list-item__center" cref' c4 m3
              wrapper_class_center Hin4) as (m5 & Hin5 & S5 & _).
  left. exists m5. split; [assumption|].
  eapply same_object_trans; [exact S5|].
  eapply same_object_trans; [exact S3 | exact S1].
Qed.

Lemma filter_of_remove_node (p : node -> bool) i kids :
  List.filter p (remove_node i kids)
  = List.filter (fun n => p n && negb (is_node i n)) kids.
Proof.
  unfold remove_node. induction kids as [|n kids IH]; simpl; [reflexivity|].
  destruct (is_node i n) eqn:Hi, (p n) eqn:Hp; simpl;
    rewrite ?Hi, ?Hp, ?IH; reflexivity.
Qed.

(** Every child the work on [topContent] leaves is one of the three
    wrappers or a ripple. *)
Lemma content_out_not_stray e fresh content n :
  In n (content_out (compile_content e fresh content)) ->
  stray (left_ref (compile_content e fresh content))
        (right_ref (compile_content e fresh content))
        (center_ref (compile_content e fresh content)) n = false.
Proof.
  unfold compile_content.
  destruct (adopt_wrappers e fresh content) as [[[l r] c] c5]. simpl.
  intros Hin.
  assert (Hk : exists m, In m (List.filter (fun n => negb (stray l r c n)) c5)
                         /\ node_id n = node_id m /\ node_name n = node_name m).
  { destruct c as [i|]; simpl in Hin.
    - apply in_update_node in Hin as (m & Hm & ->). exists m.
      split; [assumption|].
      destruct (is_node i m);
        rewrite ?append_children_id, ?append_children_name; split; reflexivity.
    - exists n. repeat split; assumption. }
  destruct Hk as (m & Hm & Hid & Hname).
  apply filter_In in Hm as [_ Hm]. apply negb_true_iff in Hm.
  rewrite (stray_same l r c n m); assumption.
Qed.

(** The references [adopt_wrappers] returns are identities of children it
    leaves; the right one is absent only in plain mode without a
    [div.right]. *)
Lemma adopt_ref_in sel created kids kids' r i :
  List.NoDup (map node_id (List.filter sel kids)) ->
  (forall n, created = Some n -> sel n = true) ->
  adopt sel created kids = (kids', r) -> r = Some i ->
  exists n, In n kids' /\ node_id n = i /\ sel n = true.
Proof.
  intros Hnd Hsel Ha ->.
  destruct (adopt_cases sel created kids)
    as [[_ He]|[(a & Hf & He)|(a & b & more & Hf & He)]];
    rewrite He in Ha.
  - destruct created as [n|]; simplify_eq.
    exists n. split; [left; reflexivity|]. split; [reflexivity | apply Hsel; reflexivity].
  - simplify_eq. destruct (filter_head_in _ _ _ _ Hf) as [Hin Hs].
    exists a. repeat split; assumption.
  - simplify_eq.
    assert (Hb : In b kids /\ sel b = true).
    { apply filter_In. rewrite Hf. right; left; reflexivity. }
    destruct Hb as [Hb Hs]. exists b. split; [|split; [reflexivity | assumption]].
    apply in_remove_node. split; [assumption|].
    rewrite Hf in Hnd. simpl in Hnd. inversion Hnd as [|? ? Hnotin _]; subst.
    intros Heq. apply Hnotin. left. exact Heq.
Qed.

Lemma update_ref_filter_ids sel c' c r kids :
  c' <> c -> sel = matches_tag_class "DIV" c' ->
  map node_id (List.filter sel (update_ref r (add_class c) kids))
  = map node_id (List.filter sel kids).
Proof.
  intros Hne ->. rewrite filter_update_ref_class by assumption.
  apply update_ref_ids. intros n. apply add_class_id.
Qed.

Lemma NoDup_remove_node_ids i kids :
  List.NoDup (map node_id kids) -> List.NoDup (map node_id (remove_node i kids)).
Proof. apply NoDup_map_filter. Qed.

(** The center reference always names a child [adopt_wrappers] leaves, an
    element [div.center] carrying [list-item__center]. *)
Lemma adopt_wrappers_center e fresh content lref rref cref c5 :
  List.NoDup (map node_id
                (List.filter (matches_tag_class "DIV" "center") content)) ->
  adopt_wrappers e fresh content = (lref, rref, cref, c5) ->
  exists cn, In cn c5 /\ cref = Some (node_id cn)
             /\ matches_tag_class "DIV" "center" cn = true
             /\ has_class "list-item__center" cn = true.
Proof.
  unfold adopt_wrappers. intros Hnd Ha.
  destruct (adopt (matches_tag_class "DIV" "right") _ _) as [c2 rref'] eqn:Hr.
  destruct (adopt (matches_tag_class "DIV" "center") _ _) as [c4 cref'] eqn:Hc.
  injection Ha as El Er Ec E5. subst lref rref cref c5.
  set (l := node_id <$> List.find (matches_tag_class "DIV" "left") content) in *.
  set (c1 := update_ref l (add_class "list-item__left") content) in *.
  set (c3 := update_ref rref' (add_class "list-item__right") c2) in *.
  assert (Hnd1 : List.NoDup (map node_id
                   (List.filter (matches_tag_class "DIV" "center") c1))).
  { unfold c1. erewrite update_ref_filter_ids; [exact Hnd | | reflexivity].
    discriminate. }
  assert (Hnd2 : List.NoDup (map node_id
                   (List.filter (matches_tag_class "DIV" "center") c2))).
  { destruct (adopt_cases (matches_tag_class "DIV" "right")
                (if e then Some (Elem (fresh + 1) "DIV" [] ["right"]
                   [Elem fresh "SPAN" [] ["list-item__expand-chevron"] []])
                 else None) c1)
      as [[_ He]|[(x & _ & He)|(x & y & z & _ & He)]]; rewrite He in Hr.
    - destruct e; injection Hr as E2 _; subst c2; simpl; exact Hnd1.
    - injection Hr as E2 _; subst c2. exact Hnd1.
    - injection Hr as E2 _; subst c2. rewrite filter_remove_node.
      apply NoDup_remove_node_ids, Hnd1. }
  assert (Hnd3 : List.NoDup (map node_id
                   (List.filter (matches_tag_class "DIV" "center") c3))).
  { unfold c3. erewrite update_ref_filter_ids; [exact Hnd2 | | reflexivity].
    discriminate. }
  assert (Hsome : exists i, cref' = Some i).
  { unfold adopt in Hc.
    destruct (List.filter (matches_tag_class "DIV" "center") c3) as [|x [|y z]];
      injection Hc as _ <-; eexists; reflexivity. }
  destruct Hsome as (i & ->).
  assert (Hcr : forall n, Some (Elem (fresh + 2) "DIV" [] ["center"] []) = Some n ->
                          matches_tag_class "DIV" "center" n = true)
    by (intros n H; injection H as <-; reflexivity).
  destruct (adopt_ref_in _ _ _ _ _ i Hnd3 Hcr Hc eq_refl)
    as (n4 & Hin4 & Hid & Hsel).
  exists (add_class "list-item__center" n4). simpl.
  split; [|split; [|split]].
  - apply in_update_node. exists n4. split; [assumption|].
    rewrite (proj2 (is_node_true i n4) Hid). reflexivity.
  - rewrite add_class_id, Hid. reflexivity.
  - rewrite add_class_matches by discriminate. exact Hsel.
  - apply add_class_has_class. unfold matches_tag_class in Hsel.
    apply andb_true_iff in Hsel as [Hsel _].
    apply andb_true_iff in Hsel as [Hsel _]. exact Hsel.
Qed.

Lemma stray_of_ref l r c x n :
  x = l \/ x = r \/ x = c -> is_ref x n = true -> stray l r c n = false.
Proof.
  intros Hx Hn. apply stray_false. destruct Hx as [->|[->| ->]]; tauto.
Qed.

(** A class update through one of the three references leaves the strays
    as they are. *)
Lemma filter_stray_update (g : node -> bool) l r c x cls kids :
  x = l \/ x = r \/ x = c ->
  List.filter (fun n => stray l r c n && g n) (update_ref x (add_class cls) kids)
  = List.filter (fun n => stray l r c n && g n) kids.
Proof.
  intros Hx. destruct x as [i|]; [|reflexivity]. simpl.
  apply filter_update_node_out.
  - intros n Hn. rewrite (stray_of_ref l r c (Some i) n Hx Hn). reflexivity.
  - intros n Hn. rewrite (stray_of_ref l r c (Some i) (add_class cls n) Hx).
    + reflexivity.
    + simpl. unfold is_node. rewrite add_class_id. exact Hn.
Qed.

(** An adoption leaves the strays as they are, up to the first duplicate it
    removes. *)
Lemma filter_stray_adopt (g : node -> bool) l r c sel created kids kids' x :
  adopt sel created kids = (kids', x) -> x = r \/ x = c ->
  exists rm,
    List.filter (fun n => stray l r c n && g n) kids'
    = List.filter (fun n => stray l r c n && (g n && negb (is_ref rm n))) kids.
Proof.
  intros Ha Hx.
  destruct (adopt_cases sel created kids)
    as [[_ He]|[(a & _ & He)|(a & b & more & _ & He)]];
    rewrite He in Ha.
  - exists None. destruct created as [n|]; injection Ha as <- <-.
    + simpl. rewrite (stray_of_ref l r c (Some (node_id n)) n).
      * simpl. apply filter_ext. intros m. rewrite andb_true_r. reflexivity.
      * destruct Hx as [<-| <-]; tauto.
      * simpl. apply Nat.eqb_refl.
    + apply filter_ext. intros m. simpl. rewrite andb_true_r. reflexivity.
  - exists None. injection Ha as <- <-.
    apply filter_ext. intros m. simpl. rewrite andb_true_r. reflexivity.
  - exists (Some (node_id a)). injection Ha as <- <-.
    rewrite filter_of_remove_node. apply filter_ext. intros m. simpl.
    rewrite andb_assoc. reflexivity.
Qed.

(** The children the work on [topContent] moves are children that were
    there, in their order: the strays but the first duplicates. *)
Lemma adopt_wrappers_strays e fresh content lref rref cref c5 :
  adopt_wrappers e fresh content = (lref, rref, cref, c5) ->
  exists rmr rmc,
    List.filter (stray lref rref cref) c5
    = List.filter (fun n => stray lref rref cref n
                            && (negb (is_ref rmc n) && negb (is_ref rmr n)))
                  content.
Proof.
  unfold adopt_wrappers. intros Ha.
  destruct (adopt (matches_tag_class "DIV" "right") _ _) as [c2 rref'] eqn:Hr.
  destruct (adopt (matches_tag_class "DIV" "center") _ _) as [c4 cref'] eqn:Hc.
  injection Ha as El Er Ec E5. subst lref rref cref c5.
  set (l := node_id <$> List.find (matches_tag_class "DIV" "left") content) in *.
  destruct (filter_stray_adopt (fun _ => true) l rref' cref' _ _ _ _ _ Hc
              (or_intror eq_refl)) as (rmc & H4).
  destruct (filter_stray_adopt (fun n => true && negb (is_ref rmc n))
              l rref' cref' _ _ _ _ _ Hr (or_introl eq_refl)) as (rmr & H2).
  exists rmr, rmc.
  transitivity (List.filter (fun n => stray l rref' cref' n && true)
                  (update_ref cref' (add_class "list-item__center") c4)).
  { apply filter_ext. intros n. rewrite andb_true_r. reflexivity. }
  rewrite filter_stray_update by tauto. rewrite H4.
  rewrite filter_stray_update by tauto. rewrite H2.
  rewrite filter_stray_update by tauto.
  apply filter_ext. intros n. reflexivity.
Qed.

End ListItemFacts.

(** ** Duplicate wrappers: what the code does on concrete markup *)

(** C2.  The claim fails on the code: an expandable list item holding three
    [div.expandable-content] children is not left alone by a second
    compilation.  The first run removes the first of the three and adopts
    the second, the third stays a child of the item; the second run finds
    two, removes the one adopted before and adopts the last, so the tree
    after the second run has one child less than after the first. *)
Theorem list_item_second_compile_changes_three_contents :
  serialize (ListItem._compile (ListItem._compile item_three_contents))
  <> serialize (ListItem._compile item_three_contents)
  /\ map node_id (children (ListItem._compile item_three_contents)) = [4; 2; 3]
  /\ map node_id (children (ListItem._compile
                              (ListItem._compile item_three_contents)))
     = [4; 3].
Proof.
  split; [|split]; [|reflexivity|reflexivity].
  vm_compute. discriminate.
Qed.

(** C1 as stated fails: with two [div.right] children the first one and the
    element inside it are gone after a compilation, and fewer of the
    elements present before are present after. *)
Lemma list_item_first_duplicate_is_destroyed :
  In 2 (element_ids item_two_rights)
  /\ ~ In 2 (element_ids (ListItem._compile item_two_rights))
  /\ length (List.filter
               (fun x => bool_decide (x ∈ element_ids item_two_rights))
               (element_ids (ListItem._compile item_two_rights)))
     < length (element_ids item_two_rights).
Proof.
  split; [|split].
  - vm_compute. tauto.
  - vm_compute. intros [H|[H|[H|[]]]]; discriminate.
  - vm_compute. lia.
Qed.

(** C3 as stated fails: of two [input] children of a tab the first stays
    and is the tab's input element, the second is removed. *)
Lemma tab_keeps_first_input :
  map node_id
      (List.filter (matches_tag "INPUT")
         (Tab.childNodes (Tab._compile icon_attribute tab_two_inputs)))
  = [1]
  /\ Tab._inputElement (Tab._compile icon_attribute tab_two_inputs) = Some 1
  /\ ~ In 3 (flat_map node_ids
               (Tab.childNodes (Tab._compile icon_attribute tab_two_inputs))).
Proof.
  split; [reflexivity|]. split; [reflexivity|].
  vm_compute. intros [H|[H|[H|[]]]]; discriminate.
Qed.

(** ** ons-list-item: the expandable wrappers *)

Section ExpandableFacts.
Import ListItem.

Lemma outer_class_top : In "list-item__top" outer_classes.
Proof. simpl. tauto. Qed.

Lemma outer_class_content : In "list-item__expandable-content" outer_classes.
Proof. simpl. tauto. Qed.

Lemma role_not_outer_class c :
  c = "left" \/ c = "right" \/ c = "center" \/ c = "top"
  \/ c = "expandable-content" ->
  ~ In c outer_classes.
Proof.
  intros [->|[->|[->|[->| ->]]]]; simpl; intros [H|[H|[]]]; discriminate.
Qed.

Lemma adopt_some sel n kids kids' r :
  adopt sel (Some n) kids = (kids', r) -> exists i, r = Some i.
Proof.
  unfold adopt. destruct (List.filter sel kids) as [|x [|y z]];
    intros H; injection H as _ <-; eexists; reflexivity.
Qed.

(** Every child [adopt_outer] leaves is a child that was there, or one of
    the two wrappers it may create. *)
Lemma adopt_outer_back fresh kids top k4 top_node m :
  adopt_outer fresh kids = (top, k4, top_node) -> In m k4 ->
  exists o, same_object outer_classes m o
            /\ (In o kids \/ o = new_top fresh
                \/ o = new_expandable_content fresh).
Proof.
  unfold adopt_outer. intros Ha Hin.
  destruct (adopt (matches_tag_class "DIV" "top") _ _) as [k1 tref] eqn:Ht.
  destruct (adopt (matches_tag_class "DIV" "expandable-content") _ _)
    as [k3 ec] eqn:He.
  injection Ha as Etop E4 _. subst top k4.
  apply (update_ref_back outer_classes) in Hin as (m3 & Hin3 & S3);
    [|apply outer_class_content].
  destruct (adopt_back _ _ _ _ _ _ He Hin3) as [Hin2|Hnew].
  - apply (update_ref_back outer_classes _ (Some (default fresh tref)))
      in Hin2 as (m1 & Hin1 & S1); [|apply outer_class_top].
    destruct (adopt_back _ _ _ _ _ _ Ht Hin1) as [Hin0|Hnew].
    + exists m1. split; [|left; assumption].
      eapply same_object_trans; [exact S3 | exact S1].
    + injection Hnew as <-. exists (new_top fresh).
      split; [|right; left; reflexivity].
      eapply same_object_trans; [exact S3 | exact S1].
  - injection Hnew as <-. exists (new_expandable_content fresh).
    split; [exact S3 | right; right; reflexivity].
Qed.

(** Every child that was there is still there after [adopt_outer], unless
    it has the identity of a first duplicate. *)
Lemma adopt_outer_forth fresh kids top k4 top_node o :
  adopt_outer fresh kids = (top, k4, top_node) -> In o kids ->
  (exists m, In m k4 /\ same_object outer_classes m o)
  \/ (2 <= length (List.filter (matches_tag_class "DIV" "top") kids)
      /\ exists a, In a kids /\ node_id a = node_id o
                   /\ matches_tag_class "DIV" "top" a = true)
  \/ (2 <= length (List.filter
                     (matches_tag_class "DIV" "expandable-content") kids)
      /\ exists a, In a kids /\ node_id a = node_id o
                   /\ matches_tag_class "DIV" "expandable-content" a = true).
Proof.
  unfold adopt_outer. intros Ha Hin.
  destruct (adopt (matches_tag_class "DIV" "top") _ _) as [k1 tref] eqn:Ht.
  destruct (adopt (matches_tag_class "DIV" "expandable-content") _ _)
    as [k3 ec] eqn:He.
  injection Ha as Etop E4 _. subst top k4.
  destruct (adopt_forth _ _ _ _ _ _ Ht Hin)
    as [Hin1|(a & b & more & Hf & Hid)].
  2:{ right; left. split; [rewrite Hf; simpl; lia|].
      destruct (filter_head_in _ _ _ _ Hf) as [Ha Hsel].
      exists a. repeat split; [assumption | congruence | assumption]. }
  set (top := default fresh tref) in *.
  destruct (update_ref_forth outer_classes "list-item__top" (Some top) k1 o
              outer_class_top Hin1) as (m2 & Hin2 & S2 & _).
  simpl in Hin2.
  set (k2 := update_node top (add_class "list-item__top") k1) in *.
  destruct (adopt_forth _ _ _ _ _ _ He Hin2)
    as [Hin3|(a & b & more & Hf & Hid)].
  2:{ right; right.
      assert (Hsub : forall x, In x k1 ->
                matches_tag_class "DIV" "expandable-content" x = true ->
                In x kids).
      { intros x Hx Hsel.
        destruct (adopt_back _ _ _ _ _ _ Ht Hx) as [Hx0|Hnew]; [assumption|].
        injection Hnew as <-. discriminate. }
      assert (Hlen : length (List.filter
                       (matches_tag_class "DIV" "expandable-content") k1)
                     <= length (List.filter
                       (matches_tag_class "DIV" "expandable-content") kids)).
      { destruct (adopt_cases (matches_tag_class "DIV" "top")
                    (Some (new_top fresh)) kids)
          as [[_ Hc]|[(x & _ & Hc)|(x & y & z & _ & Hc)]]; rewrite Hc in Ht;
          injection Ht as E1 _; subst k1; simpl.
        - lia.
        - lia.
        - rewrite filter_remove_node. apply remove_node_length. }
      change k2 with (update_ref (Some top) (add_class "list-item__top") k1) in Hf.
      rewrite filter_update_ref_class in Hf by discriminate.
      split.
      - pose proof (f_equal length Hf) as Hlen2.
        rewrite update_ref_length in Hlen2. simpl in Hlen2. lia.
      - assert (Ha : In a (update_ref (Some top) (add_class "list-item__top")
                             (List.filter
                                (matches_tag_class "DIV" "expandable-content") k1)))
          by (rewrite Hf; left; reflexivity).
        apply (update_ref_back outer_classes) in Ha as (a1 & Ha1 & Sa);
          [|apply outer_class_top].
        apply filter_In in Ha1 as [Ha1 Hsel].
        exists a1. split; [apply Hsub; assumption|]. split; [|assumption].
        destruct S2 as (E2 & _), Sa as (Ea & _). congruence. }
  destruct (update_ref_forth outer_classes "list-item__expandable-content" ec
              k3 m2 outer_class_content Hin3) as (m4 & Hin4 & S4 & _).
  left. exists m4. split; [assumption|].
  eapply same_object_trans; [exact S4 | exact S2].
Qed.

End ExpandableFacts.

(** ** ons-list-item: strays are relocated *)

Section RelocationFacts.
Import ListItem.

Lemma append_children_matches tag c moved n :
  matches_tag_class tag c (append_children moved n) = matches_tag_class tag c n.
Proof. destruct n; reflexivity. Qed.

Lemma append_children_has_class c moved n :
  has_class c (append_children moved n) = has_class c n.
Proof. destruct n; reflexivity. Qed.

Lemma append_children_children moved n :
  is_element n = true -> children (append_children moved n) = children n ++ moved.
Proof. destruct n; [discriminate | reflexivity]. Qed.

Lemma matches_is_element tag c n :
  matches_tag_class tag c n = true -> is_element n = true.
Proof.
  unfold matches_tag_class. intros H.
  apply andb_true_iff in H as [H _]. apply andb_true_iff in H as [H _]. exact H.
Qed.

(** The work on [topContent], seen from the children it is handed: the
    center wrapper is among the children it leaves, carries
    [list-item__center], and its children are the ones it had followed by
    the relocated ones, which are children of [topContent] in their
    original order; a child that is not relocated is one of the wrappers, a
    ripple, or has the identity of a first duplicate. *)
Lemma content_relocation e fresh content :
  List.NoDup (map node_id
                (List.filter (matches_tag_class "DIV" "center") content)) ->
  exists center before moved q,
    In center (content_out (compile_content e fresh content))
    /\ center_ref (compile_content e fresh content) = Some (node_id center)
    /\ matches_tag_class "DIV" "center" center = true
    /\ has_class "list-item__center" center = true
    /\ children center = before ++ moved
    /\ moved = List.filter q content
    /\ (forall n, In n content -> q n = false ->
        stray (left_ref (compile_content e fresh content))
              (right_ref (compile_content e fresh content))
              (center_ref (compile_content e fresh content)) n = false
        \/ (2 <= length (List.filter (matches_tag_class "DIV" "right") content)
            /\ exists a, In a content /\ node_id a = node_id n
                         /\ matches_tag_class "DIV" "right" a = true)
        \/ (2 <= length (List.filter (matches_tag_class "DIV" "center") content)
            /\ exists a, In a content /\ node_id a = node_id n
                         /\ matches_tag_class "DIV" "center" a = true)).
Proof.
  intros Hnd. unfold compile_content.
  destruct (adopt_wrappers e fresh content) as [[[l r] c] c5] eqn:Ha. simpl.
  destruct (adopt_wrappers_center _ _ _ _ _ _ _ Hnd Ha)
    as (cn & Hcn & -> & Hsel & Hcls).
  destruct (adopt_wrappers_strays _ _ _ _ _ _ _ Ha) as (rmr & rmc & Hmoved).
  set (cref := Some (node_id cn)) in *.
  exists (append_children (List.filter (stray l r cref) c5) cn), (children cn),
    (List.filter (stray l r cref) c5),
    (fun n => stray l r cref n && (negb (is_ref rmc n) && negb (is_ref rmr n))).
  split; [|split; [|split; [|split; [|split; [|split]]]]].
  - simpl. apply in_update_node. exists cn. split.
    + apply filter_In. split; [assumption|].
      rewrite (stray_of_ref l r cref cref cn); [reflexivity | tauto |].
      simpl. apply Nat.eqb_refl.
    + unfold is_node. rewrite Nat.eqb_refl. reflexivity.
  - rewrite append_children_id. reflexivity.
  - rewrite append_children_matches. exact Hsel.
  - rewrite append_children_has_class. exact Hcls.
  - apply append_children_children. apply (matches_is_element _ _ _ Hsel).
  - exact Hmoved.
  - intros n Hn Hq.
    destruct (adopt_wrappers_forth _ _ _ _ _ _ _ _ Ha Hn)
      as [(m & Hm & S)|[H|H]]; [|right; left; exact H|right; right; exact H].
    left. destruct (stray l r cref n) eqn:Hs; [exfalso|reflexivity].
    assert (Hin : In m (List.filter (stray l r cref) c5)).
    { apply filter_In. split; [assumption|].
      rewrite (same_object_stray _ _ _ _ _ _ S). exact Hs. }
    rewrite Hmoved in Hin. apply filter_In in Hin as [_ Hqm].
    destruct S as (Eid & Ename & _).
    rewrite (stray_same l r cref m n Eid Ename) in Hqm.
    rewrite (is_ref_same rmc m n Eid), (is_ref_same rmr m n Eid) in Hqm.
    congruence.
Qed.

Lemma in_list_max x l : In x l -> x <= list_max l.
Proof.
  intros Hin. pose proof (proj1 (list_max_le l (list_max l)) (le_n _)) as Hall.
  rewrite List.Forall_forall in Hall. apply Hall, Hin.
Qed.

(** [next_id] is above every identity of the subtree. *)
Lemma next_id_above n x : In x (node_ids n) -> x < next_id n.
Proof. intros Hin. unfold next_id. apply in_list_max in Hin. lia. Qed.

Lemma node_id_in_ids n : In (node_id n) (node_ids n).
Proof. destruct n; simpl; tauto. Qed.

Lemma child_id_above i t a cl kids n :
  In n kids -> node_id n < next_id (Elem i t a cl kids).
Proof.
  intros Hin. apply next_id_above. simpl. right. apply in_flat_map.
  exists n. split; [assumption | apply node_id_in_ids].
Qed.

(** What the ripple update leaves was there, or is a ripple. *)
Lemma updateRipple_children fresh i t a cl kids n :
  In n (children (updateRipple fresh (Elem i t a cl kids))) ->
  In n kids \/ n = Elem fresh "ONS-RIPPLE" [] [] [].
Proof.
  unfold updateRipple.
  destruct (List.find (matches_tag "ONS-RIPPLE") kids) as [r|];
    destruct (has_attr "ripple" a); simpl; intros Hin.
  - left; assumption.
  - apply in_remove_node in Hin as [Hin _]. left; assumption.
  - destruct Hin as [<-|Hin]; [right; reflexivity | left; assumption].
  - left; assumption.
Qed.

End RelocationFacts.

Section ExpandableRelocation.
Import ListItem.

Lemma filter_adopt (p : node -> bool) sel created kids kids' x :
  adopt sel created kids = (kids', x) ->
  (List.filter sel kids = [] -> forall n, created = Some n -> p n = false) ->
  exists rm,
    List.filter p kids'
    = List.filter (fun n => p n && negb (is_ref rm n)) kids.
Proof.
  intros Ha Hp.
  destruct (adopt_cases sel created kids)
    as [[Hf He]|[(a & _ & He)|(a & b & more & _ & He)]];
    rewrite He in Ha.
  - exists None. destruct created as [n|]; injection Ha as <- <-.
    + simpl. rewrite (Hp Hf n eq_refl).
      apply filter_ext. intros m. rewrite andb_true_r. reflexivity.
    + apply filter_ext. intros m. simpl. rewrite andb_true_r. reflexivity.
  - exists None. injection Ha as <- <-.
    apply filter_ext. intros m. simpl. rewrite andb_true_r. reflexivity.
  - exists (Some (node_id a)). injection Ha as <- <-.
    rewrite filter_of_remove_node. reflexivity.
Qed.

Lemma filter_update_node_out_in p i f kids :
  (forall n, In n kids -> is_node i n = true -> p n = false /\ p (f n) = false) ->
  List.filter p (update_node i f kids) = List.filter p kids.
Proof.
  induction kids as [|n kids IH]; simpl; intros H; [reflexivity|].
  destruct (is_node i n) eqn:Hi.
  - destruct (H n (or_introl eq_refl) Hi) as [-> ->]. apply IH.
    intros m Hm. apply H. right; assumption.
  - rewrite IH; [reflexivity|]. intros m Hm. apply H. right; assumption.
Qed.

Lemma NoDup_ids_inj kids n m :
  List.NoDup (map node_id kids) -> In n kids -> In m kids ->
  node_id n = node_id m -> n = m.
Proof.
  induction kids as [|k kids IH]; simpl; intros Hnd Hn Hm Heq; [destruct Hn|].
  inversion Hnd as [|? ? Hnotin Hnd']; subst.
  destruct Hn as [->|Hn], Hm as [->|Hm].
  - reflexivity.
  - exfalso. apply Hnotin. rewrite Heq. apply in_map. assumption.
  - exfalso. apply Hnotin. rewrite <- Heq. apply in_map. assumption.
  - apply IH; assumption.
Qed.

(** Identities after an adoption: still distinct, still bounded. *)
Lemma adopt_ids sel n kids kids' x bound :
  adopt sel (Some n) kids = (kids', x) ->
  List.NoDup (map node_id kids) ->
  (forall m, In m kids -> node_id m < node_id n) ->
  node_id n <= bound ->
  List.NoDup (map node_id kids')
  /\ (forall m, In m kids' -> node_id m <= bound)
  /\ (exists i, x = Some i /\ i <= bound).
Proof.
  intros Ha Hnd Hlt Hb.
  destruct (adopt_cases sel (Some n) kids)
    as [[Hf He]|[(a & Hf & He)|(a & b & more & Hf & He)]];
    rewrite He in Ha; injection Ha as <- <-.
  - split; [|split].
    + simpl. constructor; [|assumption]. intros Hin.
      apply in_map_iff in Hin as (m & Hid & Hm). specialize (Hlt m Hm). lia.
    + intros m [<-|Hm]; [assumption|]. specialize (Hlt m Hm). lia.
    + eexists. split; [reflexivity | assumption].
  - split; [assumption|]. split.
    + intros m Hm. specialize (Hlt m Hm). lia.
    + exists (node_id a). split; [reflexivity|].
      destruct (filter_head_in _ _ _ _ Hf) as [Hin _].
      specialize (Hlt a Hin). lia.
  - split; [apply NoDup_remove_node_ids; assumption|]. split.
    + intros m Hm. apply in_remove_node in Hm as [Hm _].
      specialize (Hlt m Hm). lia.
    + exists (node_id b). split; [reflexivity|].
      assert (Hin : In b kids /\ sel b = true)
        by (apply filter_In; rewrite Hf; right; left; reflexivity).
      destruct Hin as [Hin _]. specialize (Hlt b Hin). lia.
Qed.


Lemma matches_has_class tag c n :
  matches_tag_class tag c n = true -> has_class c n = true.
Proof.
  unfold matches_tag_class. intros H. apply andb_true_iff in H as [_ H]. exact H.
Qed.

(** The children the expandable block moves into the top wrapper are
    children of the element, in their order: the strays but the first
    duplicates. *)
Lemma adopt_outer_strays fresh kids top k4 top_node :
  List.NoDup (map node_id kids) ->
  (forall n, In n kids -> node_id n < fresh) ->
  adopt_outer fresh kids = (top, k4, top_node) ->
  exists rmt rme,
    List.filter (stray_top top) k4
    = List.filter (fun n => stray_top top n
                            && negb (is_ref rme n) && negb (is_ref rmt n))
                  kids.
Proof.
  unfold adopt_outer. intros Hnd Hfresh Ha.
  destruct (adopt (matches_tag_class "DIV" "top") _ _) as [k1 tref] eqn:Ht.
  destruct (adopt (matches_tag_class "DIV" "expandable-content") _ _)
    as [k3 ec] eqn:He.
  injection Ha as Etop E4 _. subst top k4.
  set (top := default fresh tref) in *.
  set (k2 := update_node top (add_class "list-item__top") k1) in *.
  destruct (adopt_ids _ (new_top fresh) _ _ _ fresh Ht Hnd Hfresh (le_n _))
    as (Hnd1 & Hb1 & _).
  assert (Hnd2 : List.NoDup (map node_id k2)).
  { unfold k2. rewrite update_node_ids; [assumption | apply add_class_id]. }
  assert (Hb2 : forall m, In m k2 -> node_id m < node_id (new_expandable_content fresh)).
  { intros m Hm. unfold k2 in Hm. apply in_update_node in Hm as (m1 & Hm1 & ->).
    specialize (Hb1 m1 Hm1). simpl.
    destruct (is_node top m1); rewrite ?add_class_id; lia. }
  destruct (adopt_ids _ _ _ _ _ (fresh + 1) He Hnd2 Hb2 (le_n _))
    as (Hnd3 & _ & (ei & -> & _)).
  (* the update through the expandable-content reference *)
  assert (H43 : List.filter (stray_top top)
                  (update_ref (Some ei)
                     (add_class "list-item__expandable-content") k3)
                = List.filter (stray_top top) k3).
  { simpl. apply filter_update_node_out_in. intros n Hn Hi.
    assert (Hnd2' : List.NoDup (map node_id
              (List.filter (matches_tag_class "DIV" "expandable-content") k2)))
      by (apply NoDup_map_filter, Hnd2).
    assert (Hcr : forall x, Some (new_expandable_content fresh) = Some x ->
                    matches_tag_class "DIV" "expandable-content" x = true)
      by (intros x H; injection H as <-; reflexivity).
    destruct (adopt_ref_in _ _ _ _ _ ei Hnd2' Hcr He eq_refl)
      as (ne & Hne & Hid & Hsel).
    apply is_node_true in Hi.
    assert (n = ne) by (apply (NoDup_ids_inj k3); congruence). subst ne.
    apply matches_has_class in Hsel.
    unfold stray_top.
    rewrite add_class_has_other by discriminate. rewrite Hsel.
    rewrite !andb_false_r. split; reflexivity. }
  rewrite H43.
  destruct (filter_adopt (stray_top top) _ _ _ _ _ He) as (rme & H32).
  { intros _ n Hn. injection Hn as <-. unfold stray_top. simpl.
    rewrite andb_false_r. reflexivity. }
  rewrite H32.
  assert (H21 : List.filter (fun n => stray_top top n && negb (is_ref rme n)) k2
                = List.filter (fun n => stray_top top n && negb (is_ref rme n)) k1).
  { unfold k2. apply filter_update_node_out.
    - intros n Hn. unfold stray_top. rewrite Hn. reflexivity.
    - intros n Hn. unfold stray_top, is_node. rewrite add_class_id.
      unfold is_node in Hn. rewrite Hn. reflexivity. }
  rewrite H21.
  destruct (filter_adopt (fun n => stray_top top n && negb (is_ref rme n))
              _ _ _ _ _ Ht) as (rmt & H10).
  { intros Hf n Hn. injection Hn as <-.
    unfold adopt in Ht. rewrite Hf in Ht. injection Ht as _ <-.
    unfold stray_top, top, is_node. simpl. rewrite Nat.eqb_refl. reflexivity. }
  rewrite H10. exists rmt, rme. reflexivity.
Qed.

End ExpandableRelocation.

Section CatchAll.
Import ListItem.


Lemma set_children_children k n :
  is_element n = true -> children (set_children k n) = k.
Proof. destruct n; [discriminate | reflexivity]. Qed.

Lemma set_children_is_element k n : is_element (set_children k n) = is_element n.
Proof. destruct n; reflexivity. Qed.


End CatchAll.


(** ** ons-list-item: without duplicates nothing is lost *)

Section Preservation.
Import ListItem.

Lemma same_object_element_ids cs m o :
  same_object cs m o -> element_ids m = element_ids o.
Proof.
  intros (Eid & _ & Eel & Ech & _). destruct m, o; simpl in *;
    try discriminate; try reflexivity. congruence.
Qed.

Lemma element_ids_append_children moved n x :
  In x (element_ids n) -> In x (element_ids (append_children moved n)).
Proof.
  destruct n as [|i t a cl k]; simpl; [tauto|].
  intros [H|H]; [left; assumption|right].
  rewrite flat_map_app, in_app_iff. left; assumption.
Qed.

Lemma element_ids_moved moved n m x :
  is_element n = true -> In m moved -> In x (element_ids m) ->
  In x (element_ids (append_children moved n)).
Proof.
  destruct n as [|i t a cl k]; simpl; [discriminate|]. intros _ Hm Hx.
  right. rewrite flat_map_app, in_app_iff. right.
  apply in_flat_map. exists m. split; assumption.
Qed.

Lemma length_le_1_NoDup {A B} (f : A -> B) (l : list A) :
  length l <= 1 -> List.NoDup (map f l).
Proof.
  destruct l as [|a [|b l]]; simpl; intros H; try lia.
  - constructor.
  - constructor; [intros [] | constructor].
Qed.

(** Without duplicate right and center wrappers, every element below a
    child of [topContent] is below a child the work on [topContent]
    leaves. *)
Lemma content_preserves e fresh content o x :
  length (List.filter (matches_tag_class "DIV" "right") content) <= 1 ->
  length (List.filter (matches_tag_class "DIV" "center") content) <= 1 ->
  In o content -> In x (element_ids o) ->
  In x (flat_map element_ids (content_out (compile_content e fresh content))).
Proof.
  intros Hr Hc Ho Hx. unfold compile_content.
  destruct (adopt_wrappers e fresh content) as [[[l r] c] c5] eqn:Ha. simpl.
  destruct (adopt_wrappers_center _ _ _ _ _ _ _
              (length_le_1_NoDup node_id _ Hc) Ha)
    as (cn & Hcn & -> & Hsel & Hcls).
  destruct (adopt_wrappers_forth _ _ _ _ _ _ _ _ Ha Ho)
    as [(m & Hm & S)|[[H _]|[H _]]]; [|lia|lia].
  rewrite <- (same_object_element_ids _ _ _ S) in Hx.
  set (cref := Some (node_id cn)) in *.
  set (moved := List.filter (stray l r cref) c5).
  apply in_flat_map. destruct (stray l r cref m) eqn:Hs.
  - exists (append_children moved cn). split.
    + simpl. apply in_update_node. exists cn. split.
      * apply filter_In. split; [assumption|].
        rewrite (stray_of_ref l r cref cref cn); [reflexivity | tauto |].
        simpl. apply Nat.eqb_refl.
      * unfold is_node. rewrite Nat.eqb_refl. reflexivity.
    + apply (element_ids_moved moved cn m x).
      * apply (matches_is_element _ _ _ Hsel).
      * apply filter_In. split; assumption.
      * exact Hx.
  - exists (if is_node (node_id cn) m then append_children moved m else m).
    split.
    + simpl. apply in_update_node. exists m. split; [|reflexivity].
      apply filter_In. split; [assumption|]. rewrite Hs. reflexivity.
    + destruct (is_node (node_id cn) m); [|exact Hx].
      apply element_ids_append_children, Hx.
Qed.

(** The ripple update removes nothing when the attribute is present or no
    child is an [ons-ripple] element. *)
Lemma updateRipple_keeps fresh i t a cl kids n :
  has_attr "ripple" a = true
  \/ (forall m, In m kids -> matches_tag "ONS-RIPPLE" m = false) ->
  In n kids -> In n (children (updateRipple fresh (Elem i t a cl kids))).
Proof.
  intros Hcond Hn. unfold updateRipple.
  destruct (List.find (matches_tag "ONS-RIPPLE") kids) as [r|] eqn:Hfind.
  - destruct (has_attr "ripple" a) eqn:Hattr; simpl; [assumption|].
    destruct Hcond as [?|Hno]; [discriminate|].
    apply find_some in Hfind as [Hr Hsel]. rewrite (Hno r Hr) in Hsel.
    discriminate.
  - destruct (has_attr "ripple" a); simpl; [right|]; assumption.
Qed.

Lemma same_object_matches_tag cs tag m o :
  same_object cs m o -> matches_tag tag m = matches_tag tag o.
Proof.
  intros (_ & Hname & Hel & _). unfold matches_tag. rewrite Hname, Hel.
  reflexivity.
Qed.

(** No [ons-ripple] element appears among the children of [topContent]
    unless one was there. *)
Lemma content_out_ripple e fresh content n :
  In n (content_out (compile_content e fresh content)) ->
  matches_tag "ONS-RIPPLE" n = true ->
  exists o, In o content /\ matches_tag "ONS-RIPPLE" o = true.
Proof.
  unfold compile_content.
  destruct (adopt_wrappers e fresh content) as [[[l r] c] c5] eqn:Ha. simpl.
  intros Hin Hrip.
  assert (Hk : exists m, In m c5 /\ matches_tag "ONS-RIPPLE" m = true).
  { destruct c as [i|]; simpl in Hin.
    - apply in_update_node in Hin as (m & Hm & ->).
      apply filter_In in Hm as [Hm _]. exists m. split; [assumption|].
      destruct (is_node i m); [|assumption]. destruct m; exact Hrip.
    - apply filter_In in Hin as [Hin _]. exists n. split; assumption. }
  destruct Hk as (m & Hm & Hrm).
  destruct (adopt_wrappers_back _ _ _ _ _ _ _ _ Ha Hm) as (o & S & Ho).
  rewrite (same_object_matches_tag _ _ _ _ S) in Hrm.
  destruct Ho as [Ho|[[_ ->]| ->]]; [|discriminate|discriminate].
  exists o. split; assumption.
Qed.

End Preservation.

Section ExpandablePreservation.
Import ListItem.

Lemma find_node_unique kids n :
  List.NoDup (map node_id kids) -> In n kids ->
  find_node (node_id n) kids = Some n.
Proof.
  unfold find_node. induction kids as [|k kids IH]; simpl; intros Hnd Hin;
    [destruct Hin|].
  inversion Hnd as [|? ? Hnotin Hnd']; subst.
  destruct Hin as [->|Hin].
  - unfold is_node. rewrite Nat.eqb_refl. reflexivity.
  - destruct (is_node (node_id n) k) eqn:Hk.
    + exfalso. apply is_node_true in Hk. apply Hnotin. rewrite Hk.
      apply in_map. assumption.
    + apply IH; assumption.
Qed.

Lemma filter_filter_length {A} (p q : A -> bool) (l : list A) :
  length (List.filter p (List.filter q l)) <= length (List.filter p l).
Proof.
  induction l as [|a l IH]; simpl; [lia|].
  destruct (q a), (p a) eqn:Hp; simpl; rewrite ?Hp; simpl; lia.
Qed.

Lemma element_ids_set_children k n x :
  is_element n = true ->
  In x (element_ids (set_children k n))
  <-> x = node_id n \/ In x (flat_map element_ids k).
Proof.
  destruct n as [|i t a cl k0]; simpl; [discriminate|]. intros _.
  split; intros [H|H]; auto.
Qed.

(** Identities after [adopt_outer]: still distinct. *)
Lemma adopt_outer_ids fresh kids top k4 top_node :
  List.NoDup (map node_id kids) ->
  (forall n, In n kids -> node_id n < fresh) ->
  adopt_outer fresh kids = (top, k4, top_node) ->
  List.NoDup (map node_id k4) /\ top <= fresh.
Proof.
  unfold adopt_outer. intros Hnd Hfresh Ha.
  destruct (adopt (matches_tag_class "DIV" "top") _ _) as [k1 tref] eqn:Ht.
  destruct (adopt (matches_tag_class "DIV" "expandable-content") _ _)
    as [k3 ec] eqn:He.
  injection Ha as Etop E4 _. subst top k4.
  set (top := default fresh tref) in *.
  set (k2 := update_node top (add_class "list-item__top") k1) in *.
  destruct (adopt_ids _ (new_top fresh) _ _ _ fresh Ht Hnd Hfresh (le_n _))
    as (Hnd1 & Hb1 & (ti & Hti & Hble)).
  assert (Hnd2 : List.NoDup (map node_id k2)).
  { unfold k2. rewrite update_node_ids; [assumption | apply add_class_id]. }
  assert (Hb2 : forall m, In m k2 -> node_id m < node_id (new_expandable_content fresh)).
  { intros m Hm. unfold k2 in Hm. apply in_update_node in Hm as (m1 & Hm1 & ->).
    specialize (Hb1 m1 Hm1). simpl.
    destruct (is_node top m1); rewrite ?add_class_id; lia. }
  destruct (adopt_ids _ _ _ _ _ (fresh + 1) He Hnd2 Hb2 (le_n _))
    as (Hnd3 & _ & _).
  split.
  - rewrite update_ref_ids; [assumption | apply add_class_id].
  - unfold top. rewrite Hti. simpl. exact Hble.
Qed.

(** Without duplicate top wrappers and expandable contents the top wrapper
    stays attached, and its children are those of the [div.top] that was
    there, if any. *)
Lemma adopt_outer_top fresh kids top k4 top_node :
  List.NoDup (map node_id kids) ->
  (forall n, In n kids -> node_id n < fresh) ->
  length (List.filter (matches_tag_class "DIV" "top") kids) <= 1 ->
  length (List.filter (matches_tag_class "DIV" "expandable-content") kids) <= 1 ->
  adopt_outer fresh kids = (top, k4, top_node) ->
  In top_node k4 /\ node_id top_node = top /\ is_element top_node = true
  /\ children top_node
     = flat_map children (List.filter (matches_tag_class "DIV" "top") kids).
Proof.
  intros Hnd Hfresh Htops Hecs Ha.
  destruct (adopt_outer_ids _ _ _ _ _ Hnd Hfresh Ha) as [Hnd4 _].
  unfold adopt_outer in Ha.
  destruct (adopt (matches_tag_class "DIV" "top") _ _) as [k1 tref] eqn:Ht.
  destruct (adopt (matches_tag_class "DIV" "expandable-content") _ _)
    as [k3 ec] eqn:He.
  injection Ha as Etop E4 Enode. subst top k4.
  set (top := default fresh tref) in *.
  set (k2 := update_node top (add_class "list-item__top") k1) in *.
  (* the top wrapper in [k1] *)
  assert (H1 : exists t1, In t1 k1 /\ node_id t1 = top /\ is_element t1 = true
                 /\ children t1
                    = flat_map children
                        (List.filter (matches_tag_class "DIV" "top") kids)
                 /\ length (List.filter
                              (matches_tag_class "DIV" "expandable-content") k1)
                    <= 1).
  { rewrite adopt_few in Ht by assumption.
    destruct (List.filter (matches_tag_class "DIV" "top") kids)
      as [|T rest] eqn:Hf.
    - injection Ht as <- <-. exists (new_top fresh).
      split; [left; reflexivity|]. repeat split. simpl. exact Hecs.
    - injection Ht as <- <-. destruct rest; [|simpl in Htops; lia].
      destruct (filter_head_in _ _ _ _ Hf) as [HT Hsel].
      exists T. split; [assumption|]. split; [reflexivity|].
      split; [apply (matches_is_element _ _ _ Hsel)|].
      split; [simpl; rewrite app_nil_r; reflexivity | exact Hecs]. }
  destruct H1 as (t1 & Hin1 & Hid1 & Hel1 & Hch1 & Hecs1).
  destruct (update_ref_forth outer_classes "list-item__top" (Some top) k1 t1
              outer_class_top Hin1) as (t2 & Hin2 & S2 & _).
  simpl in Hin2. fold k2 in Hin2.
  assert (Hecs2 : length (List.filter
                            (matches_tag_class "DIV" "expandable-content") k2)
                  <= 1).
  { change k2 with (update_ref (Some top) (add_class "list-item__top") k1).
    rewrite filter_update_ref_class, update_ref_length by discriminate.
    exact Hecs1. }
  assert (Hin3 : In t2 k3).
  { rewrite adopt_few in He by assumption.
    destruct (List.filter (matches_tag_class "DIV" "expandable-content") k2);
      injection He as <- _; [right|]; assumption. }
  destruct (update_ref_forth outer_classes "list-item__expandable-content" ec
              k3 t2 outer_class_content Hin3) as (t4 & Hin4 & S4 & _).
  pose proof (same_object_trans _ _ _ _ S4 S2) as S.
  destruct S as (Eid & _ & Eel & Ech & _).
  assert (Hfind : find_node top
                    (update_ref ec (add_class "list-item__expandable-content") k3)
                  = Some t4).
  { rewrite <- Hid1, <- Eid. apply find_node_unique; assumption. }
  rewrite Hfind in Enode. subst top_node.
  repeat split; try assumption; congruence.
Qed.

(** Without duplicate wrappers, every element below a child of an
    expandable item is below a child the expandable block leaves. *)
Lemma expandable_preserves fresh kids o x :
  List.NoDup (map node_id kids) ->
  (forall n, In n kids -> node_id n < fresh) ->
  length (List.filter (matches_tag_class "DIV" "top") kids) <= 1 ->
  length (List.filter (matches_tag_class "DIV" "expandable-content") kids) <= 1 ->
  length (List.filter (matches_tag_class "DIV" "right")
            (flat_map children
               (List.filter (matches_tag_class "DIV" "top") kids) ++ kids)) <= 1 ->
  length (List.filter (matches_tag_class "DIV" "center")
            (flat_map children
               (List.filter (matches_tag_class "DIV" "top") kids) ++ kids)) <= 1 ->
  In o kids -> In x (element_ids o) ->
  In x (flat_map element_ids (compile_expandable fresh kids)).
Proof.
  intros Hnd Hfresh Htops Hecs Hrights Hcenters Ho Hx.
  unfold compile_expandable.
  destruct (adopt_outer fresh kids) as [[top k4] top_node] eqn:Ha.
  destruct (adopt_outer_ids _ _ _ _ _ Hnd Hfresh Ha) as [Hnd4 _].
  destruct (adopt_outer_top _ _ _ _ _ Hnd Hfresh Htops Hecs Ha)
    as (Htn & Htid & Htel & Htch).
  destruct (adopt_outer_strays _ _ _ _ _ Hnd Hfresh Ha) as (rmt & rme & Hmoved).
  destruct (adopt_outer_forth _ _ _ _ _ _ Ha Ho)
    as [(m & Hm & S)|[[H _]|[H _]]]; [|lia|lia].
  rewrite <- (same_object_element_ids _ _ _ S) in Hx.
  set (moved := List.filter (stray_top top) k4) in *.
  set (content := children top_node ++ moved).
  set (inner := compile_content true (fresh + 2) content).
  assert (Hr' : length (List.filter (matches_tag_class "DIV" "right") content) <= 1).
  { unfold content. rewrite List.filter_app, length_app, Htch.
    rewrite List.filter_app, length_app in Hrights.
    rewrite Hmoved.
    pose proof (filter_filter_length (matches_tag_class "DIV" "right")
      (fun n => stray_top top n && negb (is_ref rme n) && negb (is_ref rmt n))
      kids). lia. }
  assert (Hc' : length (List.filter (matches_tag_class "DIV" "center") content) <= 1).
  { unfold content. rewrite List.filter_app, length_app, Htch.
    rewrite List.filter_app, length_app in Hcenters.
    rewrite Hmoved.
    pose proof (filter_filter_length (matches_tag_class "DIV" "center")
      (fun n => stray_top top n && negb (is_ref rme n) && negb (is_ref rmt n))
      kids). lia. }
  assert (Hkept : In top_node
                    (List.filter (fun n => negb (stray_top top n)) k4)).
  { apply filter_In. split; [assumption|]. unfold stray_top, is_node.
    rewrite Htid, Nat.eqb_refl. reflexivity. }
  assert (Htop' : In (set_children (content_out inner) top_node)
                     (update_node top (set_children (content_out inner))
                        (List.filter (fun n => negb (stray_top top n)) k4))).
  { apply in_update_node. exists top_node. split; [assumption|].
    unfold is_node. rewrite Htid, Nat.eqb_refl. reflexivity. }
  assert (Hinner : forall ch y, In ch content -> In y (element_ids ch) ->
                     In y (element_ids (set_children (content_out inner) top_node))).
  { intros ch y Hch Hy. apply element_ids_set_children; [assumption|]. right.
    apply (content_preserves true (fresh + 2) content ch y Hr' Hc' Hch Hy). }
  apply in_flat_map. destruct (stray_top top m) eqn:Hs.
  - exists (set_children (content_out inner) top_node). split; [exact Htop'|].
    apply (Hinner m x); [|exact Hx].
    unfold content. apply in_app_iff. right. apply filter_In. split; assumption.
  - destruct (is_node top m) eqn:Hi.
    + apply is_node_true in Hi.
      assert (m = top_node) by (apply (NoDup_ids_inj k4); congruence). subst m.
      exists (set_children (content_out inner) top_node). split; [exact Htop'|].
      destruct top_node as [|ti tt ta tcl tk]; [discriminate|].
      simpl in Hx. destruct Hx as [<-|Hx]; [simpl; left; reflexivity|].
      apply in_flat_map in Hx as (ch & Hch & Hy).
      apply (Hinner ch x); [|exact Hy].
      unfold content. apply in_app_iff. left. exact Hch.
    + exists m. split; [|exact Hx].
      apply in_update_node. exists m. split.
      * apply filter_In. split; [assumption|]. rewrite Hs. reflexivity.
      * rewrite Hi. reflexivity.
Qed.

(** No [ons-ripple] element appears among the children of an expandable
    item unless one was there. *)
Lemma expandable_ripple fresh kids n :
  In n (compile_expandable fresh kids) -> matches_tag "ONS-RIPPLE" n = true ->
  exists o, In o kids /\ matches_tag "ONS-RIPPLE" o = true.
Proof.
  unfold compile_expandable.
  destruct (adopt_outer fresh kids) as [[top k4] top_node] eqn:Ha.
  intros Hin Hrip. apply in_update_node in Hin as (m & Hm & ->).
  apply filter_In in Hm as [Hm _].
  assert (Hrm : matches_tag "ONS-RIPPLE" m = true).
  { destruct (is_node top m); [|assumption]. destruct m; exact Hrip. }
  destruct (adopt_outer_back _ _ _ _ _ _ Ha Hm) as (o & S & Ho).
  rewrite (same_object_matches_tag _ _ _ _ S) in Hrm.
  destruct Ho as [Ho|[->| ->]]; [|discriminate|discriminate].
  exists o. split; assumption.
Qed.

End ExpandablePreservation.

Section PreservationTheorem.
Import ListItem.

Lemma updateRipple_shape fresh i t a cl kids :
  updateRipple fresh (Elem i t a cl kids)
  = Elem i t a cl (children (updateRipple fresh (Elem i t a cl kids))).
Proof.
  unfold updateRipple.
  destruct (List.find (matches_tag "ONS-RIPPLE") kids);
    destruct (has_attr "ripple" a); reflexivity.
Qed.

Lemma keeps_ripple_cond i t a cl kids :
  keeps_ripple (Elem i t a cl kids) = true ->
  has_attr "ripple" a = true
  \/ (forall m, In m kids -> matches_tag "ONS-RIPPLE" m = false).
Proof.
  simpl. intros H. apply orb_true_iff in H as [H|H]; [left; assumption|right].
  intros m Hm. rewrite forallb_forall in H. specialize (H m Hm).
  apply negb_true_iff in H. exact H.
Qed.

End PreservationTheorem.

(** C1, amended.  For a list item whose children are distinct nodes, whose
    markup holds no duplicate wrapper (at most one [div.right] and one
    [div.center] among the children of [topContent]; in expandable mode at
    most one [div.top] and one [div.expandable-content] among the children
    of the item) and whose ripple the ripple update keeps (the [ripple]
    attribute is present or no child is an [ons-ripple]), every element
    present in the subtree before [_compile] is present in the subtree
    after it. *)
Theorem list_item_keeps_elements_without_duplicates :
  forall (i : nat) (t : string) (a : list (string * string))
         (cl : list string) (kids : list node),
    let item := Elem i t a cl kids in
    List.NoDup (map node_id kids) ->
    ListItem.no_duplicate_wrappers item = true ->
    ListItem.keeps_ripple item = true ->
    forall x, In x (element_ids item) ->
              In x (element_ids (ListItem._compile item)).
Proof.
  intros i t a cl kids item Hnd Hdup Hrip x Hx.
  unfold ListItem._compile, item. rewrite updateRipple_shape.
  simpl in Hx. destruct Hx as [<-|Hx]; [left; reflexivity|].
  simpl. right. apply in_flat_map in Hx as (o & Ho & Hx).
  apply keeps_ripple_cond in Hrip.
  unfold ListItem.no_duplicate_wrappers, item in Hdup.
  apply andb_true_iff in Hdup as [Hdup Hcenters].
  apply andb_true_iff in Hdup as [Houter Hrights].
  apply Nat.leb_le in Hcenters, Hrights.
  destruct (has_attr "expandable" a) eqn:Hexp.
  - simpl in Houter. apply andb_true_iff in Houter as [Htops Hecs].
    apply Nat.leb_le in Htops, Hecs.
    pose proof (expandable_preserves (next_id (Elem i t a cl kids)) kids o x Hnd
                  (child_id_above i t a cl kids) Htops Hecs Hrights Hcenters
                  Ho Hx) as Hin.
    apply in_flat_map in Hin as (n & Hn & Hxn).
    apply in_flat_map. exists n. split; [|exact Hxn].
    apply updateRipple_keeps; [|exact Hn].
    destruct Hrip as [Hattr|Hno]; [left; assumption|right].
    intros m Hm. destruct (matches_tag "ONS-RIPPLE" m) eqn:Hr; [|reflexivity].
    destruct (expandable_ripple _ _ _ Hm Hr) as (o' & Ho' & Hr').
    rewrite (Hno o' Ho') in Hr'. discriminate.
  - pose proof (content_preserves false (next_id (Elem i t a cl kids)) kids o x
                  Hrights Hcenters Ho Hx) as Hin.
    apply in_flat_map in Hin as (n & Hn & Hxn).
    apply in_flat_map. exists n. split; [|exact Hxn].
    apply updateRipple_keeps; [|exact Hn].
    destruct Hrip as [Hattr|Hno]; [left; assumption|right].
    intros m Hm. destruct (matches_tag "ONS-RIPPLE" m) eqn:Hr; [|reflexivity].
    destruct (content_out_ripple _ _ _ _ Hm Hr) as (o' & Ho' & Hr').
    rewrite (Hno o' Ho') in Hr'. discriminate.
Qed.

Lemma list_item_keeps_elements_witness :
  In 3 (element_ids (ListItem._compile item_expandable_with_span)).
Proof.
  apply (list_item_keeps_elements_without_duplicates
           0 "ONS-LIST-ITEM" [("expandable", "")] ["list-item"]
           [Text 1 "content";
            Elem 2 "DIV" [] ["expandable-content"] [Elem 3 "SPAN" [] [] []]]).
  - simpl. repeat (constructor; [simpl; intuition lia|]). constructor.
  - reflexivity.
  - reflexivity.
  - simpl. tauto.
Defined.

(** ** ons-list-item: duplicate wrappers *)

Section Duplicates.
Import ListItem.

Lemma adopt_back_created sel created kids kids' r m :
  adopt sel created kids = (kids', r) -> In m kids' ->
  In m kids \/ (created = Some m /\ List.filter sel kids = []).
Proof.
  intros Ha Hin.
  destruct (adopt_cases sel created kids)
    as [[Hf He]|[(a & _ & He)|(a & b & more & _ & He)]];
    rewrite He in Ha.
  - destruct created as [n|]; injection Ha as <- <-; [|left; assumption].
    destruct Hin as [<-|Hin]; [right; split; [reflexivity | assumption]|].
    left; assumption.
  - injection Ha as <- <-. left; assumption.
  - injection Ha as <- <-. apply in_remove_node in Hin as [Hin _].
    left; assumption.
Qed.

Lemma add_class_keeps_class c c0 n :
  has_class c0 n = true -> has_class c0 (add_class c n) = true.
Proof.
  destruct n as [|i t a cl k]; simpl; [discriminate|]. unfold has_class. simpl.
  intros H. destruct (existsb (String.eqb c) cl); simpl; [assumption|].
  rewrite existsb_app, H. reflexivity.
Qed.

Lemma update_ref_forth_mono cs c r kids o :
  In c cs -> In o kids ->
  exists m, In m (update_ref r (add_class c) kids) /\ same_object cs m o
            /\ (forall c0, has_class c0 o = true -> has_class c0 m = true)
            /\ (is_ref r o = true -> is_element o = true -> has_class c m = true).
Proof.
  intros Hc Hin. destruct r as [i|]; simpl.
  - exists (if is_node i o then add_class c o else o). split.
    + apply in_update_node. exists o. split; [assumption | reflexivity].
    + destruct (is_node i o); (split; [|split]).
      * apply same_object_add_class, Hc.
      * intros c0. apply add_class_keeps_class.
      * intros _ He. apply add_class_has_class, He.
      * apply same_object_refl.
      * tauto.
      * discriminate.
  - exists o. split; [assumption|].
    split; [apply same_object_refl|]. split; [tauto | discriminate].
Qed.

Lemma remove_node_absent i kids :
  (forall n, In n kids -> node_id n <> i) -> remove_node i kids = kids.
Proof.
  unfold remove_node. induction kids as [|k kids IH]; simpl; intros H;
    [reflexivity|].
  rewrite (proj2 (is_node_false i k)) by (apply H; left; reflexivity).
  simpl. rewrite IH; [reflexivity|]. intros n Hn. apply H. right; assumption.
Qed.

(** Two different role classes on one node contradict [one_role]. *)
Lemma one_role_excludes n c1 c2 :
  one_role n = true -> In c1 role_classes -> In c2 role_classes -> c1 <> c2 ->
  has_class c1 n = true -> has_class c2 n = true -> False.
Proof.
  unfold one_role, role_classes. intros Hone H1 H2 Hne Hc1 Hc2.
  apply Nat.leb_le in Hone. simpl in Hone, H1, H2.
  destruct H1 as [<-|[<-|[<-|[<-|[<-|[]]]]]];
    destruct H2 as [<-|[<-|[<-|[<-|[<-|[]]]]]];
    try congruence; rewrite ?Hc1, ?Hc2 in Hone;
    repeat match type of Hone with
           | context [if ?b then _ else _] => destruct b
           end; simpl in Hone; lia.
Qed.

Lemma filter_second_in {A} (p : A -> bool) (l : list A) a b more :
  List.filter p l = a :: b :: more -> In b l /\ p b = true.
Proof. intros Heq. apply filter_In. rewrite Heq. right; left. reflexivity. Qed.

Lemma filter_NoDup_heads kids sel a b more :
  List.NoDup (map node_id kids) -> List.filter sel kids = a :: b :: more ->
  node_id a <> node_id b
  /\ ~ In (node_id a) (map node_id more) /\ ~ In (node_id b) (map node_id more).
Proof.
  intros Hnd Hf. pose proof (NoDup_map_filter node_id sel kids Hnd) as H.
  rewrite Hf in H. simpl in H.
  inversion H as [|? ? Ha H']; subst. inversion H' as [|? ? Hb _]; subst.
  simpl in Ha. repeat split.
  - intros Heq. apply Ha. left. symmetry. exact Heq.
  - intros Hin. apply Ha. right. exact Hin.
  - exact Hb.
Qed.

Lemma filter_update_ref_heads tag c' c r kids a b more :
  c' <> c -> List.filter (matches_tag_class tag c') kids = a :: b :: more ->
  exists a' b' more',
    List.filter (matches_tag_class tag c') (update_ref r (add_class c) kids)
    = a' :: b' :: more'
    /\ node_id a' = node_id a /\ node_id b' = node_id b.
Proof.
  intros Hne Hf. rewrite filter_update_ref_class by exact Hne. rewrite Hf.
  destruct r as [i|]; simpl.
  - eexists _, _, _. split; [reflexivity|].
    split; destruct (is_node i _); auto using add_class_id.
  - eexists _, _, _. split; [reflexivity|]. split; reflexivity.
Qed.

Lemma filter_update_ref_nil tag c' c r kids :
  c' <> c ->
  List.filter (matches_tag_class tag c') (update_ref r (add_class c) kids) = [] ->
  List.filter (matches_tag_class tag c') kids = [].
Proof.
  intros Hne. rewrite filter_update_ref_class by exact Hne.
  destruct r as [i|]; simpl; [|tauto]. unfold update_node.
  destruct (List.filter _ kids); [reflexivity | discriminate].
Qed.

(** Where the three references of [adopt_wrappers] come from. *)
Lemma adopt_wrappers_refs e fresh content lref rref cref c5 :
  adopt_wrappers e fresh content = (lref, rref, cref, c5) ->
  (forall i, lref = Some i ->
     exists o, In o content /\ node_id o = i
               /\ matches_tag_class "DIV" "left" o = true)
  /\ (forall i, rref = Some i ->
       (exists o, In o content /\ node_id o = i
                  /\ matches_tag_class "DIV" "right" o = true)
       \/ i = fresh + 1)
  /\ (forall i, cref = Some i ->
       (exists o, In o content /\ node_id o = i
                  /\ matches_tag_class "DIV" "center" o = true)
       \/ i = fresh + 2).
Proof.
  unfold adopt_wrappers. intros Ha.
  destruct (adopt (matches_tag_class "DIV" "right") _ _) as [c2 rref'] eqn:Hr.
  destruct (adopt (matches_tag_class "DIV" "center") _ _) as [c4 cref'] eqn:Hc.
  injection Ha as El Er Ec E5. subst lref rref cref c5.
  assert (Hback1 : forall x,
             In x (update_ref
                     (node_id <$> List.find (matches_tag_class "DIV" "left")
                                            content)
                     (add_class "list-item__left") content) ->
             forall c, c = "right" \/ c = "center" ->
             matches_tag_class "DIV" c x = true ->
             exists o, In o content /\ node_id o = node_id x
                       /\ matches_tag_class "DIV" c o = true).
  { intros x Hx c Hcc Hm.
    apply (update_ref_back wrapper_classes) in Hx as (o & Ho & So);
      [|apply wrapper_class_left].
    exists o. split; [exact Ho|]. split; [symmetry; apply So|].
    assert (Hrole : ~ In c wrapper_classes)
      by (apply role_not_wrapper_class; tauto).
    rewrite <- (same_object_matches wrapper_classes "DIV" c x o Hrole So).
    exact Hm. }
  split; [|split].
  - intros i Hi. destruct (List.find _ content) as [o|] eqn:Hfind;
      [|discriminate]. injection Hi as <-.
    apply find_some in Hfind as [Hin Hm]. exists o. auto.
  - intros i ->.
    destruct (adopt_cases (matches_tag_class "DIV" "right")
                (if e then Some (new_right fresh) else None)
                (update_ref
                   (node_id <$> List.find (matches_tag_class "DIV" "left")
                                          content)
                   (add_class "list-item__left") content))
      as [[Hf He]|[(a & Hf & He)|(a & b & more & Hf & He)]];
      change (Elem (fresh + 1) "DIV" [] ["right"]
                [Elem fresh "SPAN" [] ["list-item__expand-chevron"] []])
        with (new_right fresh) in Hr; rewrite He in Hr.
    + destruct e; [|discriminate]. injection Hr as _ Hi. simpl in Hi.
      right. lia.
    + injection Hr as _ Hi. subst i. left.
      apply filter_head_in in Hf as [Hin Hm].
      apply (Hback1 a Hin "right"); auto.
    + injection Hr as _ Hi. subst i. left.
      apply filter_second_in in Hf as [Hin Hm].
      apply (Hback1 b Hin "right"); auto.
  - intros i ->.
    assert (Hback3 : forall x,
               In x (update_ref rref' (add_class "list-item__right") c2) ->
               matches_tag_class "DIV" "center" x = true ->
               exists o, In o content /\ node_id o = node_id x
                         /\ matches_tag_class "DIV" "center" o = true).
    { intros x Hx Hm.
      apply (update_ref_back wrapper_classes) in Hx as (x2 & Hx2 & S2);
        [|apply wrapper_class_right].
      assert (Hm2 : matches_tag_class "DIV" "center" x2 = true).
      { assert (Hrole : ~ In "center" wrapper_classes)
          by (apply role_not_wrapper_class; tauto).
        rewrite <- (same_object_matches wrapper_classes "DIV" "center" x x2
                      Hrole S2).
        exact Hm. }
      destruct (adopt_back _ _ _ _ _ _ Hr Hx2) as [Hin1|Hnew].
      - destruct (Hback1 x2 Hin1 "center") as (o & Ho & Hid & Hmo); auto.
        exists o. split; [exact Ho|]. split; [|exact Hmo].
        rewrite Hid. symmetry. apply S2.
      - destruct e; [|discriminate]. injection Hnew as <-. discriminate. }
    destruct (adopt_cases (matches_tag_class "DIV" "center")
                (Some (new_center fresh))
                (update_ref rref' (add_class "list-item__right") c2))
      as [[Hf He]|[(a & Hf & He)|(a & b & more & Hf & He)]];
      change (Elem (fresh + 2) "DIV" [] ["center"] [])
        with (new_center fresh) in Hc; rewrite He in Hc.
    + injection Hc as _ Hi. simpl in Hi. right. lia.
    + injection Hc as _ Hi. subst i. left.
      apply filter_head_in in Hf as [Hin Hm]. apply (Hback3 a Hin Hm).
    + injection Hc as _ Hi. subst i. left.
      apply filter_second_in in Hf as [Hin Hm]. apply (Hback3 b Hin Hm).
Qed.

Lemma one_role_content content o c1 c2 :
  forallb one_role content = true -> In o content ->
  In c1 role_classes -> In c2 role_classes -> c1 <> c2 ->
  matches_tag_class "DIV" c1 o = true -> matches_tag_class "DIV" c2 o = true ->
  False.
Proof.
  intros Hall Hin H1 H2 Hne Hm1 Hm2.
  rewrite forallb_forall in Hall.
  apply (one_role_excludes o c1 c2 (Hall o Hin) H1 H2 Hne).
  - apply (matches_has_class _ _ _ Hm1).
  - apply (matches_has_class _ _ _ Hm2).
Qed.

(** Two or more [div.right] children: the second one becomes the right
    wrapper and the first one leaves the child list. *)
Lemma adopt_wrappers_right_dup e fresh content lref rref cref c5 r0 r1 more :
  adopt_wrappers e fresh content = (lref, rref, cref, c5) ->
  List.NoDup (map node_id content) ->
  (forall n, In n content -> node_id n < fresh) ->
  forallb one_role content = true ->
  List.filter (matches_tag_class "DIV" "right") content = r0 :: r1 :: more ->
  rref = Some (node_id r1)
  /\ (forall m, In m c5 -> node_id m <> node_id r0)
  /\ (exists m, In m c5 /\ same_object wrapper_classes m r1
                 /\ has_class "list-item__right" m = true)
  /\ (forall m, In m c5 ->
       exists o, same_object wrapper_classes m o
                 /\ (In o content \/ o = new_center fresh)).
Proof.
  unfold adopt_wrappers. intros Ha Hnd Hfresh Hone Hf.
  destruct (adopt (matches_tag_class "DIV" "right") _ _) as [c2 rref'] eqn:Hr.
  destruct (adopt (matches_tag_class "DIV" "center") _ _) as [c4 cref'] eqn:Hc.
  injection Ha as El Er Ec E5. subst lref rref cref c5.
  destruct (filter_update_ref_heads "DIV" "right" "list-item__left"
              (node_id <$> List.find (matches_tag_class "DIV" "left") content)
              content r0 r1 more) as (a' & b' & more' & Hf1 & Hida & Hidb);
    [discriminate | exact Hf |].
  unfold adopt in Hr. rewrite Hf1 in Hr. injection Hr as E2 Er.
  subst c2 rref'. rewrite Hida, Hidb in *.
  destruct (filter_NoDup_heads _ _ _ _ _ Hnd Hf) as (Hne & _ & _).
  destruct (filter_head_in _ _ _ _ Hf) as [Hin0 Hm0].
  destruct (filter_second_in _ _ _ _ _ Hf) as [Hin1 Hm1].
  assert (Hback3 : forall x,
             In x (update_ref (Some (node_id r1))
                     (add_class "list-item__right")
                     (remove_node (node_id r0)
                        (update_ref
                           (node_id <$> List.find
                                          (matches_tag_class "DIV" "left")
                                          content)
                           (add_class "list-item__left") content))) ->
             node_id x <> node_id r0
             /\ exists o, In o content /\ same_object wrapper_classes x o).
  { intros x Hx.
    apply (update_ref_back wrapper_classes) in Hx as (x2 & Hx2 & S2);
      [|apply wrapper_class_right].
    apply in_remove_node in Hx2 as [Hx1 Hnx].
    apply (update_ref_back wrapper_classes) in Hx1 as (o & Ho & So);
      [|apply wrapper_class_left].
    split.
    - destruct S2 as [-> _]. exact Hnx.
    - exists o. split; [exact Ho|].
      eapply same_object_trans; [exact S2 | exact So]. }
  split; [reflexivity|]. split; [|split].
  - intros m Hm.
    apply (update_ref_back wrapper_classes) in Hm as (m4 & Hm4 & S4);
      [|apply wrapper_class_center].
    destruct S4 as [-> _].
    destruct (adopt_back _ _ _ _ _ _ Hc Hm4) as [Hm3|Hnew].
    + apply Hback3, Hm3.
    + injection Hnew as <-. simpl. specialize (Hfresh r0 Hin0). lia.
  - destruct (update_ref_forth_mono wrapper_classes "list-item__left"
                (node_id <$> List.find (matches_tag_class "DIV" "left") content)
                content r1 wrapper_class_left Hin1)
      as (m1 & Hm1in & S1 & _ & _).
    assert (Hm2in : In m1 (remove_node (node_id r0)
                             (update_ref
                                (node_id <$> List.find
                                               (matches_tag_class "DIV" "left")
                                               content)
                                (add_class "list-item__left") content))).
    { apply in_remove_node. split; [exact Hm1in|].
      destruct S1 as [-> _]. congruence. }
    destruct (update_ref_forth_mono wrapper_classes "list-item__right"
                (Some (node_id r1)) _ m1 wrapper_class_right Hm2in)
      as (m3 & Hm3in & S3 & _ & Hcls3).
    assert (Hc3 : has_class "list-item__right" m3 = true).
    { apply Hcls3.
      - simpl. apply is_node_true. apply S1.
      - destruct S1 as (_ & _ & -> & _).
        apply (matches_is_element _ _ _ Hm1). }
    assert (S31 : same_object wrapper_classes m3 r1)
      by (eapply same_object_trans; [exact S3 | exact S1]).
    assert (Hm4in : In m3 c4).
    { destruct (adopt_forth _ _ _ _ _ _ Hc Hm3in)
        as [Hin4|(a & b & more4 & Hf3 & Hid)]; [exact Hin4 | exfalso].
      destruct (filter_head_in _ _ _ _ Hf3) as [Ha3 Hma].
      destruct (Hback3 a Ha3) as (_ & o & Ho & So).
      assert (Hrole : ~ In "center" wrapper_classes)
        by (apply role_not_wrapper_class; tauto).
      rewrite (same_object_matches wrapper_classes "DIV" "center" a o Hrole So)
        in Hma.
      assert (o = r1).
      { apply (NoDup_ids_inj content); auto.
        destruct So as [<- _]. rewrite <- Hid. apply S31. }
      subst o.
      apply (one_role_content content r1 "center" "right" Hone Hin1);
        unfold role_classes; simpl; auto 10. }
    destruct (update_ref_forth_mono wrapper_classes "list-item__center"
                cref' c4 m3 wrapper_class_center Hm4in)
      as (m5 & Hm5in & S5 & Hmono & _).
    exists m5. split; [exact Hm5in|]. split.
    + eapply same_object_trans; [exact S5 | exact S31].
    + apply Hmono, Hc3.
  - intros m Hm.
    apply (update_ref_back wrapper_classes) in Hm as (m4 & Hm4 & S4);
      [|apply wrapper_class_center].
    destruct (adopt_back _ _ _ _ _ _ Hc Hm4) as [Hm3|Hnew].
    + destruct (Hback3 m4 Hm3) as (_ & o & Ho & So).
      exists o. split; [|left; exact Ho].
      eapply same_object_trans; [exact S4 | exact So].
    + injection Hnew as <-. exists (new_center fresh).
      split; [exact S4 | right; reflexivity].
Qed.

(** Two or more [div.center] children: the second one becomes the center
    wrapper and the first one leaves the child list. *)
Lemma adopt_wrappers_center_dup e fresh content lref rref cref c5 c0 c1 more :
  adopt_wrappers e fresh content = (lref, rref, cref, c5) ->
  List.NoDup (map node_id content) ->
  forallb one_role content = true ->
  List.filter (matches_tag_class "DIV" "center") content = c0 :: c1 :: more ->
  cref = Some (node_id c1)
  /\ (forall m, In m c5 -> node_id m <> node_id c0)
  /\ (exists m, In m c5 /\ same_object wrapper_classes m c1
                 /\ has_class "list-item__center" m = true)
  /\ (forall m, In m c5 ->
       exists o, same_object wrapper_classes m o
                 /\ (In o content
                     \/ (o = new_right fresh
                         /\ List.filter (matches_tag_class "DIV" "right")
                                        content = []))).
Proof.
  unfold adopt_wrappers. intros Ha Hnd Hone Hf.
  set (c1l := update_ref
                (node_id <$> List.find (matches_tag_class "DIV" "left") content)
                (add_class "list-item__left") content) in *.
  destruct (adopt (matches_tag_class "DIV" "right") _ _) as [c2 rref'] eqn:Hr.
  destruct (adopt (matches_tag_class "DIV" "center") _ _) as [c4 cref'] eqn:Hc.
  injection Ha as El Er Ec E5. subst lref rref cref c5.
  assert (Hrole : ~ In "center" wrapper_classes)
    by (apply role_not_wrapper_class; tauto).
  assert (Hroler : ~ In "right" wrapper_classes)
    by (apply role_not_wrapper_class; tauto).
  destruct (filter_NoDup_heads _ _ _ _ _ Hnd Hf) as (Hne & _ & _).
  destruct (filter_second_in _ _ _ _ _ Hf) as [Hin1 Hm1].
  destruct (filter_update_ref_heads "DIV" "center" "list-item__left"
              (node_id <$> List.find (matches_tag_class "DIV" "left") content)
              content c0 c1 more) as (a1 & b1 & more1 & Hf1 & Hida1 & Hidb1);
    [discriminate | exact Hf |]. fold c1l in Hf1.
  assert (Hback1 : forall x, In x c1l ->
             exists o, In o content /\ same_object wrapper_classes x o).
  { intros x Hx. apply (update_ref_back wrapper_classes) in Hx;
      [exact Hx | apply wrapper_class_left]. }
  assert (Hback2 : forall x, In x c2 ->
             exists o, same_object wrapper_classes x o
                       /\ (In o content
                           \/ (o = new_right fresh
                               /\ List.filter (matches_tag_class "DIV" "right")
                                              content = []))).
  { intros x Hx.
    destruct (adopt_back_created _ _ _ _ _ _ Hr Hx) as [Hx1|[Hnew Hnil]].
    - destruct (Hback1 x Hx1) as (o & Ho & So). exists o. auto.
    - exists x. split; [apply same_object_refl|]. right. split.
      + destruct e; [|discriminate]. injection Hnew as <-. reflexivity.
      + apply (filter_update_ref_nil "DIV" "right" "list-item__left"
                 (node_id <$> List.find (matches_tag_class "DIV" "left")
                                        content)); [discriminate|].
        exact Hnil. }
  assert (Hf2 : List.filter (matches_tag_class "DIV" "center") c2
                = a1 :: b1 :: more1).
  { destruct (adopt_cases (matches_tag_class "DIV" "right")
                (if e then Some (new_right fresh) else None) c1l)
      as [[Hfr He]|[(a & Hfr & He)|(a & b & morer & Hfr & He)]];
      change (Elem (fresh + 1) "DIV" [] ["right"]
                [Elem fresh "SPAN" [] ["list-item__expand-chevron"] []])
        with (new_right fresh) in Hr; rewrite He in Hr.
    - destruct e; injection Hr as <- _; [|exact Hf1].
      simpl. exact Hf1.
    - injection Hr as <- _. exact Hf1.
    - injection Hr as <- _. rewrite filter_remove_node, Hf1.
      rewrite <- Hf1. apply remove_node_absent. intros n Hn Hid.
      apply filter_In in Hn as [Hn Hmn].
      destruct (filter_head_in _ _ _ _ Hfr) as [Hina Hma].
      destruct (Hback1 n Hn) as (on & Hon & Son).
      destruct (Hback1 a Hina) as (oa & Hoa & Soa).
      rewrite (same_object_matches wrapper_classes "DIV" "center" n on
                 Hrole Son) in Hmn.
      rewrite (same_object_matches wrapper_classes "DIV" "right" a oa
                 Hroler Soa) in Hma.
      assert (on = oa).
      { apply (NoDup_ids_inj content); auto.
        destruct Son as [<- _]. destruct Soa as [<- _]. exact Hid. }
      subst oa.
      apply (one_role_content content on "center" "right" Hone Hon);
        unfold role_classes; simpl; auto 10. }
  destruct (filter_update_ref_heads "DIV" "center" "list-item__right"
              rref' c2 a1 b1 more1) as (a3 & b3 & more3 & Hf3 & Hida3 & Hidb3);
    [discriminate | exact Hf2 |].
  assert (Ha3 : node_id a3 = node_id c0) by congruence.
  assert (Hb3 : node_id b3 = node_id c1) by congruence.
  clear Hida3 Hidb3 Hida1 Hidb1.
  unfold adopt in Hc. rewrite Hf3 in Hc. injection Hc as E4 Ec.
  subst c4 cref'. rewrite Ha3, Hb3.
  destruct (filter_second_in _ _ _ _ _ Hf3) as [Hin3 Hm3].
  split; [reflexivity|]. split; [|split].
  - intros m Hm.
    apply (update_ref_back wrapper_classes) in Hm as (m4 & Hm4 & S4);
      [|apply wrapper_class_center].
    apply in_remove_node in Hm4 as [_ Hn]. destruct S4 as [-> _]. exact Hn.
  - assert (Hin4 : In b3 (remove_node (node_id c0)
                            (update_ref rref' (add_class "list-item__right")
                                        c2))).
    { apply in_remove_node. split; [exact Hin3|]. congruence. }
    destruct (update_ref_forth_mono wrapper_classes "list-item__center"
                (Some (node_id c1)) _ b3 wrapper_class_center Hin4)
      as (m5 & Hm5in & S5 & _ & Hcls).
    exists m5. split; [exact Hm5in|]. split.
    + eapply same_object_trans; [exact S5|].
      apply (update_ref_back wrapper_classes) in Hin3 as (x2 & Hx2 & S2);
        [|apply wrapper_class_right].
      eapply same_object_trans; [exact S2|].
      destruct (Hback2 x2 Hx2) as (o & So & [Ho|[-> _]]).
      * assert (o = c1).
        { apply (NoDup_ids_inj content); auto.
          destruct So as [<- _]. destruct S2 as [<- _]. exact Hb3. }
        subst o. exact So.
      * rewrite (same_object_matches wrapper_classes "DIV" "center" b3 x2
                   Hrole S2) in Hm3.
        rewrite (same_object_matches wrapper_classes "DIV" "center" x2 _
                   Hrole So) in Hm3. discriminate.
    + apply Hcls.
      * simpl. apply is_node_true. exact Hb3.
      * apply (matches_is_element _ _ _ Hm3).
  - intros m Hm.
    apply (update_ref_back wrapper_classes) in Hm as (m4 & Hm4 & S4);
      [|apply wrapper_class_center].
    apply in_remove_node in Hm4 as [Hm3in _].
    apply (update_ref_back wrapper_classes) in Hm3in as (x2 & Hx2 & S2);
      [|apply wrapper_class_right].
    destruct (Hback2 x2 Hx2) as (o & So & Ho).
    exists o. split; [|exact Ho].
    eapply same_object_trans; [exact S4|].
    eapply same_object_trans; [exact S2 | exact So].
Qed.

Lemma append_children_matches_tag tag moved n :
  matches_tag tag (append_children moved n) = matches_tag tag n.
Proof. destruct n; reflexivity. Qed.

Lemma div_not_ripple c n :
  matches_tag_class "DIV" c n = true -> is_ripple n = false.
Proof.
  unfold matches_tag_class, is_ripple. intros H.
  apply andb_true_iff in H as [H _]. apply andb_true_iff in H as [_ H].
  apply String.eqb_eq in H. rewrite H. reflexivity.
Qed.

(** A child of the output of [compile_content] is a child [adopt_wrappers]
    left and the relocation kept, possibly with more children. *)
Lemma content_out_back e fresh content l r c c5 n :
  adopt_wrappers e fresh content = (l, r, c, c5) ->
  In n (content_out (compile_content e fresh content)) ->
  exists m, In m c5 /\ stray l r c m = false /\ node_id n = node_id m
            /\ (forall tag cl, matches_tag_class tag cl n
                               = matches_tag_class tag cl m)
            /\ (forall cl, has_class cl n = has_class cl m)
            /\ (forall tag, matches_tag tag n = matches_tag tag m).
Proof.
  unfold compile_content. intros ->. simpl. intros Hin.
  assert (Hk : exists m,
             In m (List.filter (fun n => negb (stray l r c n)) c5)
             /\ node_id n = node_id m
             /\ (forall tag cl, matches_tag_class tag cl n
                                = matches_tag_class tag cl m)
             /\ (forall cl, has_class cl n = has_class cl m)
             /\ (forall tag, matches_tag tag n = matches_tag tag m)).
  { destruct c as [i|]; simpl in Hin.
    - apply in_update_node in Hin as (m & Hm & ->). exists m.
      split; [assumption|].
      destruct (is_node i m); repeat split; intros;
        rewrite ?append_children_id, ?append_children_matches,
          ?append_children_has_class, ?append_children_matches_tag;
        reflexivity.
    - exists n. repeat split; assumption. }
  destruct Hk as (m & Hm & Hrest). exists m.
  apply filter_In in Hm as [Hm Hs]. apply negb_true_iff in Hs. auto.
Qed.

Lemma content_out_forth e fresh content l r c c5 m :
  adopt_wrappers e fresh content = (l, r, c, c5) ->
  In m c5 -> stray l r c m = false ->
  exists n, In n (content_out (compile_content e fresh content))
            /\ node_id n = node_id m
            /\ (forall tag cl, matches_tag_class tag cl n
                               = matches_tag_class tag cl m)
            /\ (forall cl, has_class cl n = has_class cl m)
            /\ (forall tag, matches_tag tag n = matches_tag tag m).
Proof.
  unfold compile_content. intros ->. simpl. intros Hin Hs.
  assert (Hk : In m (List.filter (fun n => negb (stray l r c n)) c5)).
  { apply filter_In. split; [exact Hin|]. rewrite Hs. reflexivity. }
  destruct c as [i|]; simpl.
  - exists (if is_node i m
            then append_children (List.filter (stray l r (Some i)) c5) m
            else m).
    split; [apply in_update_node; exists m; split; [exact Hk | reflexivity]|].
    destruct (is_node i m); repeat split; intros;
      rewrite ?append_children_id, ?append_children_matches,
        ?append_children_has_class, ?append_children_matches_tag;
      reflexivity.
  - exists m. repeat split; assumption.
Qed.

(** A child that came with the markup, carries the right or the center
    role and was kept in place is the wrapper of its role. *)
Lemma kept_role_is_wrapper e fresh content l r c c5 role o m :
  adopt_wrappers e fresh content = (l, r, c, c5) ->
  List.NoDup (map node_id content) ->
  (forall n, In n content -> node_id n < fresh) ->
  forallb one_role content = true ->
  In o content -> matches_tag_class "DIV" role o = true ->
  role = "right" \/ role = "center" ->
  node_id m = node_id o -> stray l r c m = false -> is_ripple m = false ->
  (role = "right" /\ r = Some (node_id o))
  \/ (role = "center" /\ c = Some (node_id o)).
Proof.
  intros Ha Hnd Hfresh Hone Ho Hmo Hrole Hid Hs Hrip.
  destruct (adopt_wrappers_refs _ _ _ _ _ _ _ Ha) as (Hl & Hr & Hc).
  assert (Hin_role : In role role_classes)
    by (unfold role_classes; simpl; destruct Hrole as [->| ->]; auto 10).
  apply stray_false in Hs as [Hs|[Hs|[Hs|Hs]]]; [| | |congruence].
  - exfalso. destruct l as [i|]; [|discriminate]. simpl in Hs.
    apply is_node_true in Hs.
    destruct (Hl i eq_refl) as (x & Hx & Hxi & Hxm).
    assert (x = o) by (apply (NoDup_ids_inj content); auto; congruence).
    subst x.
    apply (one_role_content content o "left" role Hone Ho);
      unfold role_classes; simpl; auto 10.
    destruct Hrole as [->| ->]; discriminate.
  - destruct r as [i|]; [|discriminate]. simpl in Hs.
    apply is_node_true in Hs.
    destruct (Hr i eq_refl) as [(x & Hx & Hxi & Hxm)|Hnew].
    + assert (x = o) by (apply (NoDup_ids_inj content); auto; congruence).
      subst x. destruct Hrole as [->| ->].
      * left. split; [reflexivity | congruence].
      * exfalso. apply (one_role_content content o "right" "center" Hone Ho);
          unfold role_classes; simpl; auto 10.
    + exfalso. specialize (Hfresh o Ho). lia.
  - destruct c as [i|]; [|discriminate]. simpl in Hs.
    apply is_node_true in Hs.
    destruct (Hc i eq_refl) as [(x & Hx & Hxi & Hxm)|Hnew].
    + assert (x = o) by (apply (NoDup_ids_inj content); auto; congruence).
      subst x. destruct Hrole as [->| ->].
      * exfalso. apply (one_role_content content o "center" "right" Hone Ho);
          unfold role_classes; simpl; auto 10.
      * right. split; [reflexivity | congruence].
    + exfalso. specialize (Hfresh o Ho). lia.
Qed.

Lemma in_heads_cases {A} (x a b : A) more :
  In x (a :: b :: more) -> x = a \/ x = b \/ In x more.
Proof. simpl. intros [H|[H|H]]; auto. Qed.

Lemma content_right_dup e fresh content r0 r1 more :
  List.NoDup (map node_id content) ->
  (forall n, In n content -> node_id n < fresh) ->
  forallb one_role content = true ->
  List.filter (matches_tag_class "DIV" "right") content = r0 :: r1 :: more ->
  right_ref (compile_content e fresh content) = Some (node_id r1)
  /\ (forall n, In n (content_out (compile_content e fresh content)) ->
       matches_tag_class "DIV" "right" n = true -> node_id n = node_id r1)
  /\ (exists n, In n (content_out (compile_content e fresh content))
                 /\ node_id n = node_id r1
                 /\ matches_tag_class "DIV" "right" n = true
                 /\ has_class "list-item__right" n = true)
  /\ (forall n, In n (content_out (compile_content e fresh content)) ->
       node_id n <> node_id r0).
Proof.
  intros Hnd Hfresh Hone Hf.
  destruct (adopt_wrappers e fresh content) as [[[l r] c] c5] eqn:Ha.
  destruct (adopt_wrappers_right_dup _ _ _ _ _ _ _ _ _ _ Ha Hnd Hfresh Hone Hf)
    as (Hr & Hgone & (w & Hw & Sw & Hwc) & Horigin).
  assert (Hrole : ~ In "right" wrapper_classes)
    by (apply role_not_wrapper_class; tauto).
  destruct (filter_NoDup_heads _ _ _ _ _ Hnd Hf) as (_ & _ & Hmore).
  destruct (filter_second_in _ _ _ _ _ Hf) as [Hin1 Hm1].
  split; [|split; [|split]].
  - unfold compile_content. rewrite Ha. exact Hr.
  - intros n Hn Hmn.
    destruct (content_out_back _ _ _ _ _ _ _ _ Ha Hn)
      as (m & Hm & Hs & Hid & Hmat & _).
    rewrite Hid. rewrite Hmat in Hmn.
    assert (Hrip : is_ripple m = false)
      by (apply (div_not_ripple "right"), Hmn).
    destruct (Horigin m Hm) as (o & So & [Ho| ->]).
    + rewrite (same_object_matches wrapper_classes "DIV" "right" m o Hrole So)
        in Hmn.
      assert (Hof : In o (r0 :: r1 :: more))
        by (rewrite <- Hf; apply filter_In; auto).
      destruct So as [Hmo _]. rewrite Hmo.
      apply in_heads_cases in Hof as [->|[->|Hof]]; [|reflexivity|].
      * exfalso. apply (Hgone m Hm). exact Hmo.
      * destruct (kept_role_is_wrapper _ _ _ _ _ _ _ "right" o m Ha Hnd Hfresh
                    Hone Ho Hmn) as [[_ Hro]|[Hd _]]; auto.
        -- exfalso. apply Hmore. rewrite Hr in Hro. injection Hro as ->.
           apply in_map, Hof.
        -- discriminate.
    + rewrite (same_object_matches wrapper_classes "DIV" "right" m _ Hrole So)
        in Hmn. discriminate.
  - assert (Hs : stray l r c w = false).
    { apply (stray_of_ref l r c r); [tauto|]. rewrite Hr. simpl.
      apply is_node_true. apply Sw. }
    destruct (content_out_forth _ _ _ _ _ _ _ _ Ha Hw Hs)
      as (n & Hn & Hid & Hmat & Hcls & _).
    exists n. split; [exact Hn|]. split; [rewrite Hid; apply Sw|]. split.
    + rewrite Hmat.
      rewrite (same_object_matches wrapper_classes "DIV" "right" w r1 Hrole Sw).
      exact Hm1.
    + rewrite Hcls. exact Hwc.
  - intros n Hn.
    destruct (content_out_back _ _ _ _ _ _ _ _ Ha Hn)
      as (m & Hm & _ & Hid & _).
    rewrite Hid. apply Hgone, Hm.
Qed.

Lemma content_center_dup e fresh content c0 c1 more :
  List.NoDup (map node_id content) ->
  (forall n, In n content -> node_id n < fresh) ->
  forallb one_role content = true ->
  List.filter (matches_tag_class "DIV" "center") content = c0 :: c1 :: more ->
  center_ref (compile_content e fresh content) = Some (node_id c1)
  /\ (forall n, In n (content_out (compile_content e fresh content)) ->
       matches_tag_class "DIV" "center" n = true -> node_id n = node_id c1)
  /\ (exists n, In n (content_out (compile_content e fresh content))
                 /\ node_id n = node_id c1
                 /\ matches_tag_class "DIV" "center" n = true
                 /\ has_class "list-item__center" n = true)
  /\ (forall n, In n (content_out (compile_content e fresh content)) ->
       node_id n <> node_id c0).
Proof.
  intros Hnd Hfresh Hone Hf.
  destruct (adopt_wrappers e fresh content) as [[[l r] c] c5] eqn:Ha.
  destruct (adopt_wrappers_center_dup _ _ _ _ _ _ _ _ _ _ Ha Hnd Hone Hf)
    as (Hc & Hgone & (w & Hw & Sw & Hwc) & Horigin).
  assert (Hrole : ~ In "center" wrapper_classes)
    by (apply role_not_wrapper_class; tauto).
  destruct (filter_NoDup_heads _ _ _ _ _ Hnd Hf) as (_ & _ & Hmore).
  destruct (filter_second_in _ _ _ _ _ Hf) as [Hin1 Hm1].
  split; [|split; [|split]].
  - unfold compile_content. rewrite Ha. exact Hc.
  - intros n Hn Hmn.
    destruct (content_out_back _ _ _ _ _ _ _ _ Ha Hn)
      as (m & Hm & Hs & Hid & Hmat & _).
    rewrite Hid. rewrite Hmat in Hmn.
    assert (Hrip : is_ripple m = false)
      by (apply (div_not_ripple "center"), Hmn).
    destruct (Horigin m Hm) as (o & So & [Ho|[-> _]]).
    + rewrite (same_object_matches wrapper_classes "DIV" "center" m o Hrole So)
        in Hmn.
      assert (Hof : In o (c0 :: c1 :: more))
        by (rewrite <- Hf; apply filter_In; auto).
      destruct So as [Hmo _]. rewrite Hmo.
      apply in_heads_cases in Hof as [->|[->|Hof]]; [|reflexivity|].
      * exfalso. apply (Hgone m Hm). exact Hmo.
      * destruct (kept_role_is_wrapper _ _ _ _ _ _ _ "center" o m Ha Hnd Hfresh
                    Hone Ho Hmn) as [[Hd _]|[_ Hco]]; auto.
        -- discriminate.
        -- exfalso. apply Hmore. rewrite Hc in Hco. injection Hco as ->.
           apply in_map, Hof.
    + rewrite (same_object_matches wrapper_classes "DIV" "center" m _ Hrole So)
        in Hmn. discriminate.
  - assert (Hs : stray l r c w = false).
    { apply (stray_of_ref l r c c); [tauto|]. rewrite Hc. simpl.
      apply is_node_true. apply Sw. }
    destruct (content_out_forth _ _ _ _ _ _ _ _ Ha Hw Hs)
      as (n & Hn & Hid & Hmat & Hcls & _).
    exists n. split; [exact Hn|]. split; [rewrite Hid; apply Sw|]. split.
    + rewrite Hmat.
      rewrite (same_object_matches wrapper_classes "DIV" "center" w c1 Hrole Sw).
      exact Hm1.
    + rewrite Hcls. exact Hwc.
  - intros n Hn.
    destruct (content_out_back _ _ _ _ _ _ _ _ Ha Hn)
      as (m & Hm & _ & Hid & _).
    rewrite Hid. apply Hgone, Hm.
Qed.

(** The ripple update keeps a child whose identity no [ons-ripple] child
    shares. *)
Lemma updateRipple_keeps_id fresh i t a cl kids n :
  In n kids ->
  (forall r, In r kids -> matches_tag "ONS-RIPPLE" r = true ->
             node_id r <> node_id n) ->
  In n (children (updateRipple fresh (Elem i t a cl kids))).
Proof.
  intros Hn Hno. unfold updateRipple.
  destruct (List.find (matches_tag "ONS-RIPPLE") kids) as [r|] eqn:Hfind.
  - destruct (has_attr "ripple" a); simpl; [assumption|].
    apply find_some in Hfind as [Hr Hsel]. apply in_remove_node.
    split; [assumption|]. intros Heq. apply (Hno r Hr Hsel). congruence.
  - destruct (has_attr "ripple" a); simpl; [right|]; assumption.
Qed.

Lemma content_out_ripple_id e fresh content n :
  In n (content_out (compile_content e fresh content)) ->
  matches_tag "ONS-RIPPLE" n = true ->
  exists o, In o content /\ node_id o = node_id n
            /\ matches_tag "ONS-RIPPLE" o = true.
Proof.
  intros Hn Hrip.
  destruct (adopt_wrappers e fresh content) as [[[l r] c] c5] eqn:Ha.
  destruct (content_out_back _ _ _ _ _ _ _ _ Ha Hn)
    as (m & Hm & _ & Hid & _ & _ & Htag).
  rewrite Htag in Hrip.
  destruct (adopt_wrappers_back _ _ _ _ _ _ _ _ Ha Hm) as (o & So & Ho).
  rewrite (same_object_matches_tag _ _ _ _ So) in Hrip.
  destruct Ho as [Ho|[[_ ->]| ->]]; try discriminate.
  exists o. split; [exact Ho|]. split; [|exact Hrip].
  rewrite Hid. symmetry. apply So.
Qed.

Lemma ripple_not_div c n :
  matches_tag "ONS-RIPPLE" n = true -> matches_tag_class "DIV" c n = false.
Proof.
  unfold matches_tag, matches_tag_class. intros H.
  apply andb_true_iff in H as [-> H]. apply String.eqb_eq in H. rewrite H.
  reflexivity.
Qed.

(** What holds of a wrapper role among the children of [topContent] holds
    among the children of the compiled plain item: the ripple update adds
    or removes [ons-ripple] elements only. *)
Lemma plain_children_transfer i t a cl kids role cls w0 w1 :
  has_attr "expandable" a = false ->
  List.NoDup (map node_id kids) ->
  In w0 kids -> In w1 kids -> matches_tag_class "DIV" role w1 = true ->
  (forall n, In n (content_out
                     (compile_content false (next_id (Elem i t a cl kids)) kids)) ->
             matches_tag_class "DIV" role n = true -> node_id n = node_id w1)
  /\ (exists n, In n (content_out
                        (compile_content false (next_id (Elem i t a cl kids))
                                         kids))
                 /\ node_id n = node_id w1
                 /\ matches_tag_class "DIV" role n = true
                 /\ has_class cls n = true)
  /\ (forall n, In n (content_out
                        (compile_content false (next_id (Elem i t a cl kids))
                                         kids)) ->
       node_id n <> node_id w0) ->
  (forall n, In n (children (_compile (Elem i t a cl kids))) ->
             matches_tag_class "DIV" role n = true -> node_id n = node_id w1)
  /\ (exists n, In n (children (_compile (Elem i t a cl kids)))
                 /\ node_id n = node_id w1
                 /\ matches_tag_class "DIV" role n = true
                 /\ has_class cls n = true)
  /\ (forall n, In n (children (_compile (Elem i t a cl kids))) ->
       node_id n <> node_id w0).
Proof.
  intros Hexp Hnd Hw0 Hw1 Hmw (Hone & (w & Hw & Hid & Hmat & Hcls) & Hgone).
  unfold _compile. rewrite Hexp.
  split; [|split].
  - intros n Hn Hmn. apply updateRipple_children in Hn as [Hn| ->].
    + apply Hone; assumption.
    + discriminate.
  - exists w. split; [|auto].
    apply updateRipple_keeps_id; [exact Hw|].
    intros r Hr Hrip Heq.
    destruct (content_out_ripple_id _ _ _ _ Hr Hrip) as (o & Ho & Hoid & Horip).
    assert (o = w1) by (apply (NoDup_ids_inj kids); auto; congruence).
    subst o. rewrite (ripple_not_div role w1 Horip) in Hmw. discriminate.
  - intros n Hn. apply updateRipple_children in Hn as [Hn| ->].
    + apply Hgone, Hn.
    + pose proof (child_id_above i t a cl kids w0 Hw0) as Hlt.
      intros Heq. cbn [node_id] in Heq. rewrite <- Heq in Hlt. lia.
Qed.

(** Two or more [div.top] children of an expandable item: the second one
    becomes the top wrapper and the first one leaves the child list. *)
Lemma adopt_outer_top_dup fresh kids top k4 top_node t0 t1 more :
  adopt_outer fresh kids = (top, k4, top_node) ->
  List.NoDup (map node_id kids) ->
  (forall n, In n kids -> node_id n < fresh) ->
  forallb one_role kids = true ->
  List.filter (matches_tag_class "DIV" "top") kids = t0 :: t1 :: more ->
  top = node_id t1
  /\ (forall m, In m k4 -> node_id m <> node_id t0)
  /\ (exists m, In m k4 /\ same_object outer_classes m t1
                 /\ has_class "list-item__top" m = true)
  /\ (forall m, In m k4 ->
       exists o, same_object outer_classes m o
                 /\ (In o kids \/ o = new_expandable_content fresh)).
Proof.
  unfold adopt_outer. intros Ha Hnd Hfresh Hone Hf.
  destruct (adopt (matches_tag_class "DIV" "top") _ _) as [k1 tref] eqn:Ht.
  destruct (adopt (matches_tag_class "DIV" "expandable-content") _ _)
    as [k3 ec] eqn:He.
  injection Ha as Etop E4 _. subst top k4.
  unfold adopt in Ht. rewrite Hf in Ht. injection Ht as E1 Er. subst k1 tref.
  change (default fresh (Some (node_id t1))) with (node_id t1) in *.
  change (update_node (node_id t1) (add_class "list-item__top")
            (remove_node (node_id t0) kids))
    with (update_ref (Some (node_id t1)) (add_class "list-item__top")
            (remove_node (node_id t0) kids)) in He.
  set (k2 := update_ref (Some (node_id t1)) (add_class "list-item__top")
               (remove_node (node_id t0) kids)) in *.
  destruct (filter_NoDup_heads _ _ _ _ _ Hnd Hf) as (Hne & _ & _).
  destruct (filter_head_in _ _ _ _ Hf) as [Hin0 Hm0].
  destruct (filter_second_in _ _ _ _ _ Hf) as [Hin1 Hm1].
  assert (Hback2 : forall x, In x k2 ->
             node_id x <> node_id t0
             /\ exists o, In o kids /\ same_object outer_classes x o).
  { intros x Hx.
    apply (update_ref_back outer_classes) in Hx as (o & Ho & So);
      [|apply outer_class_top].
    apply in_remove_node in Ho as [Ho Hn]. split.
    - destruct So as [-> _]. exact Hn.
    - exists o. auto. }
  split; [reflexivity|]. split; [|split].
  - intros m Hm.
    apply (update_ref_back outer_classes) in Hm as (m3 & Hm3 & S3);
      [|apply outer_class_content].
    destruct S3 as [-> _].
    destruct (adopt_back _ _ _ _ _ _ He Hm3) as [Hm2|Hnew].
    + apply Hback2, Hm2.
    + injection Hnew as <-. simpl. specialize (Hfresh t0 Hin0). lia.
  - assert (Hin1' : In t1 (remove_node (node_id t0) kids)).
    { apply in_remove_node. split; [exact Hin1 | congruence]. }
    destruct (update_ref_forth_mono outer_classes "list-item__top"
                (Some (node_id t1)) _ t1 outer_class_top Hin1')
      as (m2 & Hm2in & S2 & _ & Hcls2). fold k2 in Hm2in.
    assert (Hc2 : has_class "list-item__top" m2 = true).
    { apply Hcls2.
      - simpl. apply is_node_true. reflexivity.
      - apply (matches_is_element _ _ _ Hm1). }
    assert (Hm3in : In m2 k3).
    { destruct (adopt_forth _ _ _ _ _ _ He Hm2in)
        as [Hin3|(a & b & more3 & Hf2 & Hid)]; [exact Hin3 | exfalso].
      destruct (filter_head_in _ _ _ _ Hf2) as [Ha2 Hma].
      destruct (Hback2 a Ha2) as (_ & o & Ho & So).
      assert (Hrole : ~ In "expandable-content" outer_classes)
        by (apply role_not_outer_class; tauto).
      rewrite (same_object_matches outer_classes "DIV" "expandable-content"
                 a o Hrole So) in Hma.
      assert (o = t1).
      { apply (NoDup_ids_inj kids); auto.
        destruct So as [<- _]. rewrite <- Hid. apply S2. }
      subst o.
      apply (one_role_content kids t1 "expandable-content" "top" Hone Hin1);
        unfold role_classes; simpl; auto 10. }
    destruct (update_ref_forth_mono outer_classes
                "list-item__expandable-content" ec k3 m2 outer_class_content
                Hm3in) as (m4 & Hm4in & S4 & Hmono & _).
    exists m4. split; [exact Hm4in|]. split.
    + eapply same_object_trans; [exact S4 | exact S2].
    + apply Hmono, Hc2.
  - intros m Hm.
    apply (update_ref_back outer_classes) in Hm as (m3 & Hm3 & S3);
      [|apply outer_class_content].
    destruct (adopt_back _ _ _ _ _ _ He Hm3) as [Hm2|Hnew].
    + destruct (Hback2 m3 Hm2) as (_ & o & Ho & So).
      exists o. split; [|left; exact Ho].
      eapply same_object_trans; [exact S3 | exact So].
    + injection Hnew as <-. exists (new_expandable_content fresh).
      split; [exact S3 | right; reflexivity].
Qed.

(** Two or more [div.expandable-content] children of an expandable item:
    the second one gets the class of the role and the first one leaves the
    child list. *)
Lemma adopt_outer_content_dup fresh kids top k4 top_node e0 e1 more :
  adopt_outer fresh kids = (top, k4, top_node) ->
  List.NoDup (map node_id kids) ->
  forallb one_role kids = true ->
  List.filter (matches_tag_class "DIV" "expandable-content") kids
  = e0 :: e1 :: more ->
  (forall m, In m k4 -> node_id m <> node_id e0)
  /\ (exists m, In m k4 /\ same_object outer_classes m e1
                 /\ has_class "list-item__expandable-content" m = true)
  /\ (forall m, In m k4 ->
       exists o, same_object outer_classes m o
                 /\ (In o kids \/ o = new_top fresh)).
Proof.
  unfold adopt_outer. intros Ha Hnd Hone Hf.
  destruct (adopt (matches_tag_class "DIV" "top") _ _) as [k1 tref] eqn:Ht.
  destruct (adopt (matches_tag_class "DIV" "expandable-content") _ _)
    as [k3 ec] eqn:He.
  injection Ha as Etop E4 _. subst top k4.
  assert (Hrole : ~ In "expandable-content" outer_classes)
    by (apply role_not_outer_class; tauto).
  destruct (filter_NoDup_heads _ _ _ _ _ Hnd Hf) as (Hne & _ & _).
  destruct (filter_second_in _ _ _ _ _ Hf) as [Hin1 Hm1].
  assert (Hf1 : List.filter (matches_tag_class "DIV" "expandable-content") k1
                = e0 :: e1 :: more).
  { destruct (adopt_cases (matches_tag_class "DIV" "top")
                (Some (new_top fresh)) kids)
      as [[Hft Hc]|[(a & Hft & Hc)|(a & b & moret & Hft & Hc)]];
      rewrite Hc in Ht; injection Ht as <- _.
    - simpl. exact Hf.
    - exact Hf.
    - rewrite filter_remove_node, Hf. rewrite <- Hf.
      apply remove_node_absent. intros n Hn Hid.
      apply filter_In in Hn as [Hn Hmn].
      destruct (filter_head_in _ _ _ _ Hft) as [Hina Hma].
      assert (n = a) by (apply (NoDup_ids_inj kids); auto).
      subst a.
      apply (one_role_content kids n "expandable-content" "top" Hone Hn);
        unfold role_classes; simpl; auto 10. }
  change (update_node (default fresh tref) (add_class "list-item__top") k1)
    with (update_ref (Some (default fresh tref)) (add_class "list-item__top")
            k1) in He.
  set (k2 := update_ref (Some (default fresh tref))
               (add_class "list-item__top") k1) in *.
  assert (Hback2 : forall x, In x k2 ->
             exists o, same_object outer_classes x o
                       /\ (In o kids \/ o = new_top fresh)).
  { intros x Hx.
    apply (update_ref_back outer_classes) in Hx as (o & Ho & So);
      [|apply outer_class_top].
    exists o. split; [exact So|].
    destruct (adopt_back _ _ _ _ _ _ Ht Ho) as [Hin|Hnew]; [left; exact Hin|].
    injection Hnew as <-. right. reflexivity. }
  destruct (filter_update_ref_heads "DIV" "expandable-content" "list-item__top"
              (Some (default fresh tref)) k1 e0 e1 more)
    as (a2 & b2 & more2 & Hf2 & Hida & Hidb); [discriminate | exact Hf1 |].
  fold k2 in Hf2.
  unfold adopt in He. rewrite Hf2 in He. injection He as E3 Ec. subst k3 ec.
  destruct (filter_second_in _ _ _ _ _ Hf2) as [Hin2 Hm2].
  split; [|split].
  - intros m Hm.
    apply (update_ref_back outer_classes) in Hm as (m3 & Hm3 & S3);
      [|apply outer_class_content].
    apply in_remove_node in Hm3 as [_ Hn]. destruct S3 as [-> _]. congruence.
  - assert (Hin3 : In b2 (remove_node (node_id a2) k2)).
    { apply in_remove_node. split; [exact Hin2 | congruence]. }
    destruct (update_ref_forth_mono outer_classes
                "list-item__expandable-content" (Some (node_id b2)) _ b2
                outer_class_content Hin3) as (m4 & Hm4in & S4 & _ & Hcls).
    exists m4. split; [exact Hm4in|]. split.
    + eapply same_object_trans; [exact S4|].
      destruct (Hback2 b2 Hin2) as (o & So & [Ho| ->]).
      * assert (o = e1).
        { apply (NoDup_ids_inj kids); auto.
          destruct So as [<- _]. exact Hidb. }
        subst o. exact So.
      * rewrite (same_object_matches outer_classes "DIV" "expandable-content"
                   b2 _ Hrole So) in Hm2. discriminate.
    + apply Hcls.
      * simpl. apply is_node_true. reflexivity.
      * apply (matches_is_element _ _ _ Hm2).
  - intros m Hm.
    apply (update_ref_back outer_classes) in Hm as (m3 & Hm3 & S3);
      [|apply outer_class_content].
    apply in_remove_node in Hm3 as [Hm2in _].
    destruct (Hback2 m3 Hm2in) as (o & So & Ho).
    exists o. split; [|exact Ho].
    eapply same_object_trans; [exact S3 | exact So].
Qed.

(** A child of the output of [compile_expandable] is a child
    [adopt_outer] left and the relocation kept, possibly with other
    children. *)
Lemma expandable_out_back fresh kids top k4 top_node n :
  adopt_outer fresh kids = (top, k4, top_node) ->
  In n (compile_expandable fresh kids) ->
  exists m, In m k4 /\ stray_top top m = false /\ node_id n = node_id m
            /\ (forall tag cl, matches_tag_class tag cl n
                               = matches_tag_class tag cl m)
            /\ (forall cl, has_class cl n = has_class cl m)
            /\ (forall tag, matches_tag tag n = matches_tag tag m).
Proof.
  unfold compile_expandable. intros ->. intros Hin.
  apply in_update_node in Hin as (m & Hm & ->). exists m.
  apply filter_In in Hm as [Hm Hs]. apply negb_true_iff in Hs.
  split; [exact Hm|]. split; [exact Hs|].
  destruct (is_node top m); repeat split; intros; destruct m; reflexivity.
Qed.

Lemma expandable_out_forth fresh kids top k4 top_node m :
  adopt_outer fresh kids = (top, k4, top_node) ->
  In m k4 -> stray_top top m = false ->
  exists n, In n (compile_expandable fresh kids)
            /\ node_id n = node_id m
            /\ (forall tag cl, matches_tag_class tag cl n
                               = matches_tag_class tag cl m)
            /\ (forall cl, has_class cl n = has_class cl m).
Proof.
  unfold compile_expandable. intros ->. intros Hin Hs.
  eexists. split.
  - apply in_update_node. exists m. split; [|reflexivity].
    apply filter_In. split; [exact Hin|]. rewrite Hs. reflexivity.
  - destruct (is_node top m); repeat split; intros; destruct m; reflexivity.
Qed.

Lemma expandable_out_ripple_id fresh kids n :
  In n (compile_expandable fresh kids) ->
  matches_tag "ONS-RIPPLE" n = true ->
  exists o, In o kids /\ node_id o = node_id n
            /\ matches_tag "ONS-RIPPLE" o = true.
Proof.
  intros Hn Hrip.
  destruct (adopt_outer fresh kids) as [[top k4] tn] eqn:Ha.
  destruct (expandable_out_back _ _ _ _ _ _ Ha Hn)
    as (m & Hm & _ & Hid & _ & _ & Htag).
  rewrite Htag in Hrip.
  destruct (adopt_outer_back _ _ _ _ _ _ Ha Hm) as (o & So & Ho).
  rewrite (same_object_matches_tag _ _ _ _ So) in Hrip.
  destruct Ho as [Ho|[->| ->]]; try discriminate.
  exists o. split; [exact Ho|]. split; [|exact Hrip].
  rewrite Hid. symmetry. apply So.
Qed.

(** The ripple update of an expandable item keeps a [div] child that has
    the identity of a child of the markup. *)
Lemma expandable_children_forth i t a cl kids role w n :
  has_attr "expandable" a = true ->
  List.NoDup (map node_id kids) ->
  In w kids -> matches_tag_class "DIV" role w = true ->
  In n (compile_expandable (next_id (Elem i t a cl kids)) kids) ->
  node_id n = node_id w ->
  In n (children (_compile (Elem i t a cl kids))).
Proof.
  intros Hexp Hnd Hw Hmw Hn Hid. unfold _compile. rewrite Hexp.
  apply updateRipple_keeps_id; [exact Hn|].
  intros r Hr Hrip Heq.
  destruct (expandable_out_ripple_id _ _ _ Hr Hrip) as (o & Ho & Hoid & Horip).
  assert (o = w) by (apply (NoDup_ids_inj kids); auto; congruence).
  subst o. rewrite (ripple_not_div role w Horip) in Hmw. discriminate.
Qed.

Lemma expandable_children_back i t a cl kids n :
  has_attr "expandable" a = true ->
  In n (children (_compile (Elem i t a cl kids))) ->
  In n (compile_expandable (next_id (Elem i t a cl kids)) kids)
  \/ n = Elem (next_id (Elem i t a cl kids) + 5) "ONS-RIPPLE" [] [] [].
Proof.
  intros Hexp. unfold _compile. rewrite Hexp. apply updateRipple_children.
Qed.

Lemma stray_top_false top n :
  stray_top top n = false ->
  is_node top n = true \/ has_class "expandable-content" n = true
  \/ is_ripple n = true.
Proof.
  unfold stray_top.
  destruct (is_node top n), (has_class "expandable-content" n), (is_ripple n);
    simpl; auto; discriminate.
Qed.

Lemma expandable_top_dup i t a cl kids t0 t1 more :
  has_attr "expandable" a = true ->
  List.NoDup (map node_id kids) ->
  forallb one_role kids = true ->
  List.filter (matches_tag_class "DIV" "top") kids = t0 :: t1 :: more ->
  (forall n, In n (children (_compile (Elem i t a cl kids))) ->
             matches_tag_class "DIV" "top" n = true -> node_id n = node_id t1)
  /\ (exists n, In n (children (_compile (Elem i t a cl kids)))
                 /\ node_id n = node_id t1
                 /\ matches_tag_class "DIV" "top" n = true
                 /\ has_class "list-item__top" n = true)
  /\ (forall n, In n (children (_compile (Elem i t a cl kids))) ->
       node_id n <> node_id t0).
Proof.
  intros Hexp Hnd Hone Hf.
  set (fresh := next_id (Elem i t a cl kids)).
  assert (Hfresh : forall n, In n kids -> node_id n < fresh)
    by (intros n Hn; apply child_id_above, Hn).
  destruct (adopt_outer fresh kids) as [[top k4] tn] eqn:Ha.
  destruct (adopt_outer_top_dup _ _ _ _ _ _ _ _ Ha Hnd Hfresh Hone Hf)
    as (Htop & Hgone & (w & Hw & Sw & Hwc) & Horigin).
  assert (Hrole : ~ In "top" outer_classes)
    by (apply role_not_outer_class; tauto).
  assert (Hrolee : ~ In "expandable-content" outer_classes)
    by (apply role_not_outer_class; tauto).
  destruct (filter_NoDup_heads _ _ _ _ _ Hnd Hf) as (_ & _ & Hmore).
  destruct (filter_head_in _ _ _ _ Hf) as [Hin0 Hm0].
  destruct (filter_second_in _ _ _ _ _ Hf) as [Hin1 Hm1].
  split; [|split].
  - intros n Hn Hmn.
    apply expandable_children_back in Hn as [Hn| ->];
      [|discriminate | exact Hexp].
    destruct (expandable_out_back _ _ _ _ _ _ Ha Hn)
      as (m & Hm & Hs & Hid & Hmat & _).
    rewrite Hid. rewrite Hmat in Hmn.
    assert (Hrip : is_ripple m = false) by (apply (div_not_ripple "top"), Hmn).
    destruct (Horigin m Hm) as (o & So & [Ho| ->]).
    + rewrite (same_object_matches outer_classes "DIV" "top" m o Hrole So)
        in Hmn.
      assert (Hof : In o (t0 :: t1 :: more))
        by (rewrite <- Hf; apply filter_In; auto).
      pose proof So as (Hmo & _ & _ & _ & _ & Hcls). rewrite Hmo.
      apply in_heads_cases in Hof as [->|[->|Hof]]; [|reflexivity|].
      * exfalso. apply (Hgone m Hm). exact Hmo.
      * exfalso. apply stray_top_false in Hs as [Hs|[Hs|Hs]].
        -- apply is_node_true in Hs. apply Hmore.
           replace (node_id t1) with (node_id o) by congruence.
           apply in_map, Hof.
        -- rewrite (Hcls _ Hrolee) in Hs.
           rewrite forallb_forall in Hone.
           apply (one_role_excludes o "top" "expandable-content" (Hone o Ho));
             unfold role_classes; simpl; auto 10.
           apply (matches_has_class _ _ _ Hmn).
        -- congruence.
    + rewrite (same_object_matches outer_classes "DIV" "top" m _ Hrole So)
        in Hmn. discriminate.
  - assert (Hs : stray_top top w = false).
    { unfold stray_top.
      replace (is_node top w) with true; [reflexivity|].
      symmetry. apply is_node_true. rewrite Htop. apply Sw. }
    destruct (expandable_out_forth _ _ _ _ _ _ Ha Hw Hs)
      as (n & Hn & Hid & Hmat & Hcls).
    exists n. split.
    + apply (expandable_children_forth i t a cl kids "top" t1); auto.
      rewrite Hid. apply Sw.
    + split; [rewrite Hid; apply Sw|]. split.
      * rewrite Hmat.
        rewrite (same_object_matches outer_classes "DIV" "top" w t1 Hrole Sw).
        exact Hm1.
      * rewrite Hcls. exact Hwc.
  - intros n Hn.
    apply expandable_children_back in Hn as [Hn| ->]; [| |exact Hexp].
    + destruct (expandable_out_back _ _ _ _ _ _ Ha Hn)
        as (m & Hm & _ & Hid & _).
      rewrite Hid. apply Hgone, Hm.
    + specialize (Hfresh t0 Hin0). intros Heq. cbn [node_id] in Heq.
      fold fresh in Heq. lia.
Qed.

Lemma expandable_content_dup i t a cl kids e0 e1 more :
  has_attr "expandable" a = true ->
  List.NoDup (map node_id kids) ->
  forallb one_role kids = true ->
  List.filter (matches_tag_class "DIV" "expandable-content") kids
  = e0 :: e1 :: more ->
  (forall n, In n (children (_compile (Elem i t a cl kids))) ->
             matches_tag_class "DIV" "expandable-content" n = true ->
             node_id n = node_id e1 \/ In (node_id n) (map node_id more))
  /\ (exists n, In n (children (_compile (Elem i t a cl kids)))
                 /\ node_id n = node_id e1
                 /\ matches_tag_class "DIV" "expandable-content" n = true
                 /\ has_class "list-item__expandable-content" n = true)
  /\ (forall n, In n (children (_compile (Elem i t a cl kids))) ->
       node_id n <> node_id e0).
Proof.
  intros Hexp Hnd Hone Hf.
  set (fresh := next_id (Elem i t a cl kids)).
  assert (Hfresh : forall n, In n kids -> node_id n < fresh)
    by (intros n Hn; apply child_id_above, Hn).
  destruct (adopt_outer fresh kids) as [[top k4] tn] eqn:Ha.
  destruct (adopt_outer_content_dup _ _ _ _ _ _ _ _ Ha Hnd Hone Hf)
    as (Hgone & (w & Hw & Sw & Hwc) & Horigin).
  assert (Hrole : ~ In "expandable-content" outer_classes)
    by (apply role_not_outer_class; tauto).
  destruct (filter_head_in _ _ _ _ Hf) as [Hin0 Hm0].
  destruct (filter_second_in _ _ _ _ _ Hf) as [Hin1 Hm1].
  split; [|split].
  - intros n Hn Hmn.
    apply expandable_children_back in Hn as [Hn| ->];
      [|discriminate | exact Hexp].
    destruct (expandable_out_back _ _ _ _ _ _ Ha Hn)
      as (m & Hm & Hs & Hid & Hmat & _).
    rewrite Hid. rewrite Hmat in Hmn.
    destruct (Horigin m Hm) as (o & So & [Ho| ->]).
    + rewrite (same_object_matches outer_classes "DIV" "expandable-content"
                 m o Hrole So) in Hmn.
      assert (Hof : In o (e0 :: e1 :: more))
        by (rewrite <- Hf; apply filter_In; auto).
      destruct So as [Hmo _]. rewrite Hmo.
      apply in_heads_cases in Hof as [->|[->|Hof]].
      * exfalso. apply (Hgone m Hm). exact Hmo.
      * left. reflexivity.
      * right. apply in_map, Hof.
    + rewrite (same_object_matches outer_classes "DIV" "expandable-content"
                 m _ Hrole So) in Hmn. discriminate.
  - assert (Hs : stray_top top w = false).
    { unfold stray_top.
      replace (has_class "expandable-content" w) with true;
        [apply andb_false_iff; left; apply andb_false_r|].
      symmetry. destruct Sw as (_ & _ & _ & _ & _ & Hcls).
      rewrite (Hcls _ Hrole). apply (matches_has_class _ _ _ Hm1). }
    destruct (expandable_out_forth _ _ _ _ _ _ Ha Hw Hs)
      as (n & Hn & Hid & Hmat & Hcls).
    exists n. split.
    + apply (expandable_children_forth i t a cl kids "expandable-content" e1);
        auto.
      rewrite Hid. apply Sw.
    + split; [rewrite Hid; apply Sw|]. split.
      * rewrite Hmat.
        rewrite (same_object_matches outer_classes "DIV" "expandable-content"
                   w e1 Hrole Sw).
        exact Hm1.
      * rewrite Hcls. exact Hwc.
  - intros n Hn.
    apply expandable_children_back in Hn as [Hn| ->]; [| |exact Hexp].
    + destruct (expandable_out_back _ _ _ _ _ _ Ha Hn)
        as (m & Hm & _ & Hid & _).
      rewrite Hid. apply Hgone, Hm.
    + specialize (Hfresh e0 Hin0). intros Heq. cbn [node_id] in Heq.
      fold fresh in Heq. lia.
Qed.

End Duplicates.

(** ** ons-tab: several inputs *)

Section TabInputs.
Import Tab.

Lemma compile_button_inputs t :
  (forall n, In n (childNodes t) ->
             is_ref (_automaticallyAddedButton t) n = true ->
             matches_tag "INPUT" n = false) ->
  List.filter (matches_tag "INPUT") (childNodes (compile_button t).1)
  = List.filter (matches_tag "INPUT") (childNodes t).
Proof.
  intros Hauto. unfold compile_button.
  destruct (List.find _ _) as [u|];
    destruct (_automaticallyAddedButton t) as [a|] eqn:Ha; simpl;
    try reflexivity.
  - rewrite filter_remove_node. apply remove_node_absent.
    intros n Hn Hid. apply filter_In in Hn as [Hn Hm].
    rewrite (Hauto n Hn) in Hm; [discriminate|].
    simpl. apply is_node_true, Hid.
  - rewrite List.filter_app. simpl. apply app_nil_r.
Qed.

Lemma compile_input_inputs button t i0 rest :
  List.filter (matches_tag "INPUT") (childNodes t) = i0 :: rest ->
  _inputElement (compile_input button t).1 = Some (node_id i0)
  /\ (forall m, In m (childNodes (compile_input button t).1)
                <-> In m (childNodes t)
                    /\ ~ In (node_id m) (map node_id rest)
                    /\ (is_node button m = true
                        \/ is_node (node_id i0) m = true)).
Proof.
  intros Hf. unfold compile_input. rewrite Hf. simpl.
  split; [reflexivity|]. intros m. rewrite filter_In, in_remove_all.
  destruct (is_node button m), (is_node (node_id i0) m); simpl;
    intuition discriminate.
Qed.

Lemma compile_icon_keeps_children icon_of t b :
  childNodes (compile_icon icon_of t b).1 = childNodes t
  /\ _inputElement (compile_icon icon_of t b).1 = _inputElement t.
Proof. unfold compile_icon. repeat case_match; simplify_eq; simpl; tauto. Qed.

Lemma compile_label_keeps_children t b :
  childNodes (compile_label t b).1 = childNodes t
  /\ _inputElement (compile_label t b).1 = _inputElement t.
Proof. unfold compile_label. repeat case_match; simplify_eq; simpl; tauto. Qed.

Lemma compile_badge_keeps_children t b :
  childNodes (compile_badge t b).1 = childNodes t
  /\ _inputElement (compile_badge t b).1 = _inputElement t.
Proof. unfold compile_badge. repeat case_match; simplify_eq; simpl; tauto. Qed.

Lemma compile_ripple_keeps_children t b :
  childNodes (compile_ripple t b).1 = childNodes t
  /\ _inputElement (compile_ripple t b).1 = _inputElement t.
Proof. unfold compile_ripple. repeat case_match; simplify_eq; simpl; tauto. Qed.

(** What [_compile] leaves of the tab's child list and input reference:
    those of the input step, the button holding its new children. *)
Lemma compile_children icon_of this :
  exists b,
    childNodes (_compile icon_of this)
    = update_node (compile_button this).2 (set_children b)
        (childNodes (compile_input (compile_button this).2
                                   (compile_button this).1).1)
    /\ _inputElement (_compile icon_of this)
       = _inputElement (compile_input (compile_button this).2
                                      (compile_button this).1).1.
Proof.
  unfold _compile.
  destruct (compile_button this) as [t1 button] eqn:H1. simpl.
  destruct (compile_input button t1) as [t2 b2] eqn:H2. simpl.
  destruct (compile_icon icon_of t2 b2) as [t3 b3] eqn:H3.
  destruct (compile_label t3 b3) as [t4 b4] eqn:H4.
  destruct (compile_badge t4 b4) as [t5 b5] eqn:H5.
  destruct (compile_ripple t5 b5) as [t6 b6] eqn:H6.
  simpl.
  pose proof (compile_ripple_keeps_children t5 b5) as K6. rewrite H6 in K6.
  pose proof (compile_badge_keeps_children t4 b4) as K5. rewrite H5 in K5.
  pose proof (compile_label_keeps_children t3 b3) as K4. rewrite H4 in K4.
  pose proof (compile_icon_keeps_children icon_of t2 b2) as K3.
  rewrite H3 in K3. simpl in *.
  destruct K6 as [-> ->]. destruct K5 as [-> ->].
  destruct K4 as [-> ->]. destruct K3 as [-> ->].
  exists b6. split; reflexivity.
Qed.

Lemma tab_input_dup icon_of this i0 rest :
  List.NoDup (map node_id (childNodes this)) ->
  (forall n, In n (childNodes this) ->
             is_ref (_automaticallyAddedButton this) n = true ->
             matches_tag "INPUT" n = false) ->
  List.filter (matches_tag "INPUT") (childNodes this) = i0 :: rest ->
  _inputElement (_compile icon_of this) = Some (node_id i0)
  /\ (forall n, In n (childNodes (_compile icon_of this)) ->
       matches_tag "INPUT" n = true -> node_id n = node_id i0)
  /\ (exists n, In n (childNodes (_compile icon_of this))
                 /\ node_id n = node_id i0 /\ matches_tag "INPUT" n = true)
  /\ (forall n, In n (childNodes (_compile icon_of this)) ->
       ~ In (node_id n) (map node_id rest)).
Proof.
  intros Hnd Hauto Hf.
  destruct (compile_children icon_of this) as (b & Hkids & Hinput).
  pose proof (compile_button_inputs this Hauto) as Hf1. rewrite Hf in Hf1.
  destruct (compile_input_inputs (compile_button this).2 _ _ _ Hf1)
    as [Hin Hmem].
  rewrite Hkids, Hinput. clear Hkids Hinput.
  assert (Hshape : forall m,
             node_id (if is_node (compile_button this).2 m
                      then set_children b m else m) = node_id m
             /\ matches_tag "INPUT"
                   (if is_node (compile_button this).2 m
                    then set_children b m else m)
                 = matches_tag "INPUT" m).
  { intros m. destruct (is_node _ m); split; destruct m; reflexivity. }
  split; [exact Hin|]. split; [|split].
  - intros n Hn Hmn. apply in_update_node in Hn as (m & Hm & ->).
    destruct (Hshape m) as [-> Hmat]. rewrite Hmat in Hmn.
    apply Hmem in Hm as (Hm & Hnot & _).
    assert (Hmf : In m (i0 :: rest))
      by (rewrite <- Hf1; apply filter_In; auto).
    destruct Hmf as [->|Hmf]; [reflexivity|].
    exfalso. apply Hnot, in_map, Hmf.
  - destruct (filter_head_in _ _ _ _ Hf1) as [Hi0 Hm0].
    eexists. split.
    + apply in_update_node. exists i0. split; [|reflexivity].
      apply Hmem. split; [exact Hi0|]. split.
      * pose proof (NoDup_map_filter node_id (matches_tag "INPUT") _ Hnd)
          as Hndf.
        rewrite Hf in Hndf. simpl in Hndf.
        inversion Hndf as [|? ? Hnot _]. exact Hnot.
      * right. apply is_node_true. reflexivity.
    + destruct (Hshape i0) as [-> ->]. auto.
  - intros n Hn. apply in_update_node in Hn as (m & Hm & ->).
    destruct (Hshape m) as [-> _]. apply Hmem in Hm. tauto.
Qed.

End TabInputs.

(** C3 (amended).  Markup in which the children carry pairwise distinct
    identities and each child carries at most one of the role classes.
    When [topContent] holds two or more [div.right] (resp. [div.center])
    children, [_compile] takes the second one as the right (resp. center)
    wrapper: it is the only [div.right] (resp. [div.center]) left among the
    children, it carries [list-item__right] (resp. [list-item__center]),
    and the first one is no longer a child; the same holds of the children
    of a compiled plain list item.  When an expandable item holds two or
    more [div.top] children, the second one is the only [div.top] child of
    the compiled item, carries [list-item__top], and the first one is gone.
    When it holds two or more [div.expandable-content] children, the first
    one is gone and the second one stays and carries
    [list-item__expandable-content]; every [div.expandable-content] child
    of the compiled item is the second one or one of those after it, so
    with exactly two the second is the only one.  For the input of a tab
    the order is the opposite: of the [input] children the first one is
    kept and recorded as the tab's input element, it is the only [input]
    child after [_compile], and every further one is removed. *)
Theorem duplicate_wrappers_second_kept_tab_input_first_kept :
  (forall (e : bool) (fresh : nat) (content : list node) (r0 r1 : node)
          (more : list node),
      List.NoDup (map node_id content) ->
      (forall n, In n content -> node_id n < fresh) ->
      forallb ListItem.one_role content = true ->
      List.filter (matches_tag_class "DIV" "right") content = r0 :: r1 :: more ->
      let r := ListItem.compile_content e fresh content in
      ListItem.right_ref r = Some (node_id r1)
      /\ (forall n, In n (ListItem.content_out r) ->
                    matches_tag_class "DIV" "right" n = true ->
                    node_id n = node_id r1)
      /\ (exists n, In n (ListItem.content_out r) /\ node_id n = node_id r1
                    /\ matches_tag_class "DIV" "right" n = true
                    /\ has_class "list-item__right" n = true)
      /\ (forall n, In n (ListItem.content_out r) -> node_id n <> node_id r0))
  /\ (forall (e : bool) (fresh : nat) (content : list node) (c0 c1 : node)
             (more : list node),
         List.NoDup (map node_id content) ->
         (forall n, In n content -> node_id n < fresh) ->
         forallb ListItem.one_role content = true ->
         List.filter (matches_tag_class "DIV" "center") content
         = c0 :: c1 :: more ->
         let r := ListItem.compile_content e fresh content in
         ListItem.center_ref r = Some (node_id c1)
         /\ (forall n, In n (ListItem.content_out r) ->
                       matches_tag_class "DIV" "center" n = true ->
                       node_id n = node_id c1)
         /\ (exists n, In n (ListItem.content_out r) /\ node_id n = node_id c1
                       /\ matches_tag_class "DIV" "center" n = true
                       /\ has_class "list-item__center" n = true)
         /\ (forall n, In n (ListItem.content_out r) ->
                       node_id n <> node_id c0))
  /\ (forall (i : nat) (t : string) (a : list (string * string))
             (cl : list string) (kids : list node) (role cls : string)
             (w0 w1 : node) (more : list node),
         let item := Elem i t a cl kids in
         (role = "right" /\ cls = "list-item__right"
          \/ role = "center" /\ cls = "list-item__center") ->
         has_attr "expandable" a = false ->
         List.NoDup (map node_id kids) ->
         forallb ListItem.one_role kids = true ->
         List.filter (matches_tag_class "DIV" role) kids = w0 :: w1 :: more ->
         (forall n, In n (children (ListItem._compile item)) ->
                    matches_tag_class "DIV" role n = true ->
                    node_id n = node_id w1)
         /\ (exists n, In n (children (ListItem._compile item))
                       /\ node_id n = node_id w1
                       /\ matches_tag_class "DIV" role n = true
                       /\ has_class cls n = true)
         /\ (forall n, In n (children (ListItem._compile item)) ->
                       node_id n <> node_id w0))
  /\ (forall (i : nat) (t : string) (a : list (string * string))
             (cl : list string) (kids : list node) (t0 t1 : node)
             (more : list node),
         let item := Elem i t a cl kids in
         has_attr "expandable" a = true ->
         List.NoDup (map node_id kids) ->
         forallb ListItem.one_role kids = true ->
         List.filter (matches_tag_class "DIV" "top") kids = t0 :: t1 :: more ->
         (forall n, In n (children (ListItem._compile item)) ->
                    matches_tag_class "DIV" "top" n = true ->
                    node_id n = node_id t1)
         /\ (exists n, In n (children (ListItem._compile item))
                       /\ node_id n = node_id t1
                       /\ matches_tag_class "DIV" "top" n = true
                       /\ has_class "list-item__top" n = true)
         /\ (forall n, In n (children (ListItem._compile item)) ->
                       node_id n <> node_id t0))
  /\ (forall (i : nat) (t : string) (a : list (string * string))
             (cl : list string) (kids : list node) (e0 e1 : node)
             (more : list node),
         let item := Elem i t a cl kids in
         has_attr "expandable" a = true ->
         List.NoDup (map node_id kids) ->
         forallb ListItem.one_role kids = true ->
         List.filter (matches_tag_class "DIV" "expandable-content") kids
         = e0 :: e1 :: more ->
         (forall n, In n (children (ListItem._compile item)) ->
                    matches_tag_class "DIV" "expandable-content" n = true ->
                    node_id n = node_id e1
                    \/ In (node_id n) (map node_id more))
         /\ (exists n, In n (children (ListItem._compile item))
                       /\ node_id n = node_id e1
                       /\ matches_tag_class "DIV" "expandable-content" n = true
                       /\ has_class "list-item__expandable-content" n = true)
         /\ (forall n, In n (children (ListItem._compile item)) ->
                       node_id n <> node_id e0))
  /\ (forall (icon_of : node -> Tab.value) (this : Tab.tab) (i0 : node)
             (rest : list node),
         List.NoDup (map node_id (Tab.childNodes this)) ->
         (forall n, In n (Tab.childNodes this) ->
                    is_ref (Tab._automaticallyAddedButton this) n = true ->
                    matches_tag "INPUT" n = false) ->
         List.filter (matches_tag "INPUT") (Tab.childNodes this) = i0 :: rest ->
         Tab._inputElement (Tab._compile icon_of this) = Some (node_id i0)
         /\ (forall n, In n (Tab.childNodes (Tab._compile icon_of this)) ->
                       matches_tag "INPUT" n = true -> node_id n = node_id i0)
         /\ (exists n, In n (Tab.childNodes (Tab._compile icon_of this))
                       /\ node_id n = node_id i0
                       /\ matches_tag "INPUT" n = true)
         /\ (forall n, In n (Tab.childNodes (Tab._compile icon_of this)) ->
                       ~ In (node_id n) (map node_id rest))).
Proof.
  split; [|split; [|split; [|split; [|split]]]].
  - intros e fresh content r0 r1 more Hnd Hfresh Hone Hf r.
    apply (content_right_dup e fresh content r0 r1 more); assumption.
  - intros e fresh content c0 c1 more Hnd Hfresh Hone Hf r.
    apply (content_center_dup e fresh content c0 c1 more); assumption.
  - intros i t a cl kids role cls w0 w1 more item Hrole Hexp Hnd Hone Hf.
    assert (Hfresh : forall n, In n kids -> node_id n < next_id item)
      by (intros n Hn; apply child_id_above, Hn).
    destruct (filter_head_in _ _ _ _ Hf) as [Hin0 _].
    destruct (filter_second_in _ _ _ _ _ Hf) as [Hin1 Hm1].
    apply (plain_children_transfer i t a cl kids role cls w0 w1 Hexp Hnd
             Hin0 Hin1 Hm1).
    destruct Hrole as [[-> ->]|[-> ->]].
    + destruct (content_right_dup false (next_id item) kids w0 w1 more
                  Hnd Hfresh Hone Hf) as (_ & H2 & H3 & H4).
      split; [exact H2|]. split; [exact H3 | exact H4].
    + destruct (content_center_dup false (next_id item) kids w0 w1 more
                  Hnd Hfresh Hone Hf) as (_ & H2 & H3 & H4).
      split; [exact H2|]. split; [exact H3 | exact H4].
  - intros i t a cl kids t0 t1 more item Hexp Hnd Hone Hf.
    apply (expandable_top_dup i t a cl kids t0 t1 more); assumption.
  - intros i t a cl kids e0 e1 more item Hexp Hnd Hone Hf.
    apply (expandable_content_dup i t a cl kids e0 e1 more); assumption.
  - intros icon_of this i0 rest Hnd Hauto Hf.
    apply (tab_input_dup icon_of this i0 rest); assumption.
Qed.

(** The amended C3 at markup with two wrappers of each role and at a tab
    with two inputs. *)
Lemma duplicate_wrappers_witness :
  ListItem.right_ref
    (ListItem.compile_content false 4 (children item_two_rights)) = Some 3
  /\ ListItem.center_ref
       (ListItem.compile_content false 4 (children item_two_centers)) = Some 3
  /\ (forall n, In n (children (ListItem._compile item_two_rights)) ->
                node_id n <> 1)
  /\ (forall n, In n (children (ListItem._compile item_two_tops)) ->
                matches_tag_class "DIV" "top" n = true -> node_id n = 2)
  /\ (forall n, In n (children (ListItem._compile item_two_contents)) ->
                node_id n <> 1)
  /\ Tab._inputElement (Tab._compile icon_attribute tab_two_inputs) = Some 1.
Proof.
  destruct duplicate_wrappers_second_kept_tab_input_first_kept
    as (H1 & H2 & H3 & H4 & H5 & H6).
  split; [|split; [|split; [|split; [|split]]]].
  - refine (proj1 (H1 false 4 (children item_two_rights)
                     (div 1 ["right"] [Elem 2 "SPAN" [] [] []])
                     (div 3 ["right"] []) [] _ _ _ _)).
    + simpl. repeat (constructor; [simpl; intuition lia|]). constructor.
    + simpl. intros n [<-|[<-|[]]]; simpl; lia.
    + reflexivity.
    + reflexivity.
  - refine (proj1 (H2 false 4 (children item_two_centers)
                     (div 1 ["center"] []) (div 3 ["center"] []) [] _ _ _ _)).
    + simpl. repeat (constructor; [simpl; intuition lia|]). constructor.
    + simpl. intros n [<-|[<-|[<-|[]]]]; simpl; lia.
    + reflexivity.
    + reflexivity.
  - refine (proj2 (proj2 (H3 0 "ONS-LIST-ITEM" [] ["list-item"]
                            (children item_two_rights) "right"
                            "list-item__right"
                            (div 1 ["right"] [Elem 2 "SPAN" [] [] []])
                            (div 3 ["right"] []) [] _ _ _ _ _))).
    + left. split; reflexivity.
    + reflexivity.
    + simpl. repeat (constructor; [simpl; intuition lia|]). constructor.
    + reflexivity.
    + reflexivity.
  - refine (proj1 (H4 0 "ONS-LIST-ITEM" [("expandable", "")] ["list-item"]
                     (children item_two_tops)
                     (div 1 ["top"] []) (div 2 ["top"] []) [] _ _ _ _)).
    + reflexivity.
    + simpl. repeat (constructor; [simpl; intuition lia|]). constructor.
    + reflexivity.
    + reflexivity.
  - refine (proj2 (proj2 (H5 0 "ONS-LIST-ITEM" [("expandable", "")]
                            ["list-item"] (children item_two_contents)
                            (div 1 ["expandable-content"] [])
                            (div 2 ["expandable-content"] []) [] _ _ _ _))).
    + reflexivity.
    + simpl. repeat (constructor; [simpl; intuition lia|]). constructor.
    + reflexivity.
    + reflexivity.
  - refine (proj1 (H6 icon_attribute tab_two_inputs
                     (Elem 1 "INPUT" [("id", "a")] [] [])
                     [Elem 3 "INPUT" [("id", "b")] [] []] _ _ _)).
    + simpl. repeat (constructor; [simpl; intuition lia|]). constructor.
    + simpl. intros n _ H. discriminate H.
    + reflexivity.
Defined.

(** ** ons-list-item: a second compilation *)

Section SecondCompile.
Import ListItem.

Lemma in_update_ref r f kids n :
  In n (update_ref r f kids)
  <-> exists m, In m kids /\ n = (if is_ref r m then f m else m).
Proof.
  destruct r as [i|]; simpl; [apply in_update_node|].
  split; [intros H; exists n; auto | intros (m & H & ->); exact H].
Qed.

Lemma adopt_wrappers_ids e fresh content lref rref cref c5 :
  adopt_wrappers e fresh content = (lref, rref, cref, c5) ->
  List.NoDup (map node_id content) ->
  (forall n, In n content -> node_id n < fresh) ->
  List.NoDup (map node_id c5) /\ (forall m, In m c5 -> node_id m <= fresh + 2).
Proof.
  intros Ha Hnd Hfresh. split.
  - revert Ha. unfold adopt_wrappers.
    destruct (adopt (matches_tag_class "DIV" "right") _ _) as [c2 rref'] eqn:Hr.
    destruct (adopt (matches_tag_class "DIV" "center") _ _) as [c4 cref'] eqn:Hc.
    intros Ha. injection Ha as _ _ _ <-.
    rewrite update_ref_ids by apply add_class_id.
    assert (Hb1 : forall m,
               In m (update_ref
                       (node_id <$> List.find (matches_tag_class "DIV" "left")
                                              content)
                       (add_class "list-item__left") content) ->
               node_id m < fresh).
    { intros m Hm. apply in_update_ref in Hm as (m0 & Hm0 & ->).
      destruct (is_ref _ m0); rewrite ?add_class_id; apply Hfresh, Hm0. }
    assert (Hnd2 : List.NoDup (map node_id c2)
                   /\ forall m, In m c2 -> node_id m < fresh + 2).
    { destruct (adopt_cases (matches_tag_class "DIV" "right")
                  (if e then Some (new_right fresh) else None)
                  (update_ref
                     (node_id <$> List.find (matches_tag_class "DIV" "left")
                                            content)
                     (add_class "list-item__left") content))
        as [[Hf He]|[(a & Hf & He)|(a & b & more & Hf & He)]];
        change (Elem (fresh + 1) "DIV" [] ["right"]
                  [Elem fresh "SPAN" [] ["list-item__expand-chevron"] []])
          with (new_right fresh) in Hr; rewrite He in Hr.
      - destruct e; injection Hr as <- _.
        + split.
          * simpl. constructor.
            -- rewrite update_ref_ids by apply add_class_id.
               intros Hin. apply in_map_iff in Hin as (x & Hx & Hin).
               specialize (Hfresh x Hin). lia.
            -- rewrite update_ref_ids by apply add_class_id. exact Hnd.
          * intros m [<-|Hm]; [simpl; lia|]. specialize (Hb1 m Hm). lia.
        + split.
          * rewrite update_ref_ids by apply add_class_id. exact Hnd.
          * intros m Hm. specialize (Hb1 m Hm). lia.
      - injection Hr as <- _. split.
        + rewrite update_ref_ids by apply add_class_id. exact Hnd.
        + intros m Hm. specialize (Hb1 m Hm). lia.
      - injection Hr as <- _. split.
        + apply NoDup_remove_node_ids.
          rewrite update_ref_ids by apply add_class_id. exact Hnd.
        + intros m Hm. apply in_remove_node in Hm as [Hm _].
          specialize (Hb1 m Hm). lia. }
    destruct Hnd2 as [Hnd2 Hb2].
    change (Elem (fresh + 2) "DIV" [] ["center"] [])
      with (new_center fresh) in Hc.
    apply (adopt_ids _ _ _ _ _ (fresh + 2) Hc).
    + rewrite update_ref_ids by apply add_class_id. exact Hnd2.
    + intros m Hm. apply in_update_ref in Hm as (m0 & Hm0 & ->).
      simpl. destruct (is_ref _ m0); rewrite ?add_class_id; apply Hb2, Hm0.
    + simpl. lia.
  - intros m Hm.
    destruct (adopt_wrappers_back _ _ _ _ _ _ _ _ Ha Hm)
      as (o & So & [Ho|[[_ ->]| ->]]); destruct So as [-> _]; simpl; try lia.
    specialize (Hfresh o Ho). lia.
Qed.

Lemma updated_facts (b : bool) c m :
  node_id (if b then add_class c m else m) = node_id m
  /\ is_element (if b then add_class c m else m) = is_element m
  /\ (forall c0, has_class c0 m = true ->
                 has_class c0 (if b then add_class c m else m) = true)
  /\ (b = true -> is_element m = true ->
      has_class c (if b then add_class c m else m) = true).
Proof.
  destruct b; repeat split; auto using add_class_id, add_class_is_element,
    add_class_keeps_class, add_class_has_class; discriminate.
Qed.

(** The wrappers [adopt_wrappers] refers to carry their classes. *)
Lemma adopt_wrappers_classes e fresh content lref rref cref c5 m :
  adopt_wrappers e fresh content = (lref, rref, cref, c5) ->
  (forall n, In n content -> node_id n < fresh) ->
  In m c5 -> is_element m = true ->
  (is_ref lref m = true -> has_class "list-item__left" m = true)
  /\ (is_ref rref m = true -> has_class "list-item__right" m = true)
  /\ (is_ref cref m = true -> has_class "list-item__center" m = true).
Proof.
  intros Ha Hfresh Hm Hel.
  destruct (adopt_wrappers_refs _ _ _ _ _ _ _ Ha) as (Hlo & Hro & Hco).
  assert (Hlb : forall i, lref = Some i -> i < fresh).
  { intros i Hi. destruct (Hlo i Hi) as (o & Ho & <- & _). auto. }
  assert (Hrb : forall i, rref = Some i -> i < fresh + 2).
  { intros i Hi. destruct (Hro i Hi) as [(o & Ho & <- & _)| ->]; [|lia].
    specialize (Hfresh o Ho). lia. }
  revert Ha Hm. unfold adopt_wrappers.
  destruct (adopt (matches_tag_class "DIV" "right") _ _) as [c2 rref'] eqn:Hr.
  destruct (adopt (matches_tag_class "DIV" "center") _ _) as [c4 cref'] eqn:Hc.
  intros Ha Hm. injection Ha as El Er Ec E5. subst rref cref c5.
  apply in_update_ref in Hm as (m4 & Hm4 & ->).
  destruct (updated_facts (is_ref cref' m4) "list-item__center" m4)
    as (Hid4 & Hel4 & Hmono4 & Hcls4).
  rewrite Hel4 in Hel.
  rewrite !(is_ref_same _ _ m4 Hid4).
  split; [|split].
  - intros Hl. apply Hmono4.
    destruct (adopt_back _ _ _ _ _ _ Hc Hm4) as [Hm3|Hnew].
    + apply in_update_ref in Hm3 as (m2 & Hm2 & ->).
      destruct (updated_facts (is_ref rref' m2) "list-item__right" m2)
        as (Hid2 & Hel2 & Hmono2 & _).
      rewrite Hel2 in Hel. rewrite (is_ref_same _ _ m2 Hid2) in Hl.
      apply Hmono2.
      destruct (adopt_back _ _ _ _ _ _ Hr Hm2) as [Hm1|Hnew].
      * rewrite El in Hm1. apply in_update_ref in Hm1 as (m0 & Hm0 & ->).
        destruct (updated_facts (is_ref lref m0) "list-item__left" m0)
          as (Hid0 & Hel0 & _ & Hcls0).
        rewrite Hel0 in Hel. rewrite (is_ref_same _ _ m0 Hid0) in Hl.
        apply Hcls0; assumption.
      * exfalso. destruct e; [|discriminate]. injection Hnew as <-.
        destruct lref as [i|]; [|discriminate]. simpl in Hl.
        apply is_node_true in Hl. simpl in Hl.
        specialize (Hlb i eq_refl). lia.
    + exfalso. injection Hnew as <-.
      destruct lref as [i|]; [|discriminate]. simpl in Hl.
      apply is_node_true in Hl. simpl in Hl.
      specialize (Hlb i eq_refl). lia.
  - intros Hrr. apply Hmono4.
    destruct (adopt_back _ _ _ _ _ _ Hc Hm4) as [Hm3|Hnew].
    + apply in_update_ref in Hm3 as (m2 & Hm2 & ->).
      destruct (updated_facts (is_ref rref' m2) "list-item__right" m2)
        as (Hid2 & Hel2 & _ & Hcls2).
      rewrite Hel2 in Hel. rewrite (is_ref_same _ _ m2 Hid2) in Hrr.
      apply Hcls2; assumption.
    + exfalso. injection Hnew as <-.
      destruct rref' as [i|]; [|discriminate]. simpl in Hrr.
      apply is_node_true in Hrr. simpl in Hrr.
      specialize (Hrb i eq_refl). lia.
  - intros Hcc. apply Hcls4; assumption.
Qed.

(** A reference of [adopt_wrappers] that names a child of the markup names
    one that carries the role of the reference. *)
Lemma ref_names_role e fresh content lref rref cref c5 x role o i :
  adopt_wrappers e fresh content = (lref, rref, cref, c5) ->
  List.NoDup (map node_id content) ->
  (forall n, In n content -> node_id n < fresh) ->
  (x = lref /\ role = "left") \/ (x = rref /\ role = "right")
  \/ (x = cref /\ role = "center") ->
  In o content -> node_id o = i -> x = Some i ->
  matches_tag_class "DIV" role o = true.
Proof.
  intros Ha Hnd Hfresh Hx Ho Hid Hxi.
  destruct (adopt_wrappers_refs _ _ _ _ _ _ _ Ha) as (Hlo & Hro & Hco).
  specialize (Hfresh o Ho).
  destruct Hx as [[-> ->]|[[-> ->]|[-> ->]]].
  - destruct (Hlo i Hxi) as (o' & Ho' & Hid' & Hm').
    replace o with o'; [exact Hm'|].
    apply (NoDup_ids_inj content); auto. congruence.
  - destruct (Hro i Hxi) as [(o' & Ho' & Hid' & Hm')|Hnew]; [|lia].
    replace o with o'; [exact Hm'|].
    apply (NoDup_ids_inj content); auto. congruence.
  - destruct (Hco i Hxi) as [(o' & Ho' & Hid' & Hm')|Hnew]; [|lia].
    replace o with o'; [exact Hm'|].
    apply (NoDup_ids_inj content); auto. congruence.
Qed.

(** Among the children [adopt_wrappers] leaves, the ones the relocation
    keeps in place carry a role exactly when the reference of that role
    names them. *)
Lemma kept_roles e fresh content lref rref cref c5 m :
  adopt_wrappers e fresh content = (lref, rref, cref, c5) ->
  List.NoDup (map node_id content) ->
  (forall n, In n content -> node_id n < fresh) ->
  forallb one_role content = true ->
  In m c5 -> stray lref rref cref m = false ->
  matches_tag_class "DIV" "left" m = is_ref lref m
  /\ matches_tag_class "DIV" "right" m = is_ref rref m
  /\ matches_tag_class "DIV" "center" m = is_ref cref m.
Proof.
  intros Ha Hnd Hfresh Hone Hm Hs.
  destruct (adopt_wrappers_refs _ _ _ _ _ _ _ Ha) as (Hlo & Hro & Hco).
  assert (Hlb : forall i, lref = Some i -> i < fresh).
  { intros i Hi. destruct (Hlo i Hi) as (o & Ho & <- & _). auto. }
  assert (Hrb : forall i, rref = Some i -> i < fresh \/ i = fresh + 1).
  { intros i Hi. destruct (Hro i Hi) as [(o & Ho & <- & _)| ->]; auto. }
  assert (Hcb : forall i, cref = Some i -> i < fresh \/ i = fresh + 2).
  { intros i Hi. destruct (Hco i Hi) as [(o & Ho & <- & _)| ->]; auto. }
  assert (Hrl : ~ In "left" wrapper_classes)
    by (apply role_not_wrapper_class; tauto).
  assert (Hrr : ~ In "right" wrapper_classes)
    by (apply role_not_wrapper_class; tauto).
  assert (Hrc : ~ In "center" wrapper_classes)
    by (apply role_not_wrapper_class; tauto).
  assert (Hisref : forall x i, is_ref x m = true -> x = Some i ->
                               node_id m = i).
  { intros x i Hx ->. simpl in Hx. apply is_node_true, Hx. }
  assert (Hnone : forall x, x = None -> is_ref x m = false)
    by (intros x ->; reflexivity).
  destruct (adopt_wrappers_back _ _ _ _ _ _ _ _ Ha Hm) as (o & So & Ho).
  rewrite (same_object_matches _ "DIV" "left" m o Hrl So).
  rewrite (same_object_matches _ "DIV" "right" m o Hrr So).
  rewrite (same_object_matches _ "DIV" "center" m o Hrc So).
  assert (Hrip : forall role, matches_tag_class "DIV" role o = true ->
                              is_ripple m = false).
  { intros role Hmo. apply div_not_ripple in Hmo.
    destruct So as (_ & Hname & _). unfold is_ripple in *.
    rewrite Hname. exact Hmo. }
  destruct So as [Hid _].
  destruct Ho as [Ho|[[_ ->]| ->]].
  - assert (Hback : forall x role i,
               (x = lref /\ role = "left") \/ (x = rref /\ role = "right")
               \/ (x = cref /\ role = "center") ->
               x = Some i -> is_ref x m = true ->
               matches_tag_class "DIV" role o = true).
    { intros x role i Hx Hxi Hxm.
      apply (ref_names_role e fresh content lref rref cref c5 x role o i);
        auto.
      rewrite <- Hid. apply (Hisref x); assumption. }
    assert (Hex : forall role1 role2,
               In role1 role_classes -> In role2 role_classes ->
               role1 <> role2 ->
               matches_tag_class "DIV" role1 o = true ->
               matches_tag_class "DIV" role2 o = true -> False).
    { intros role1 role2 H1 H2 Hne. apply (one_role_content content o); auto. }
    assert (Hin_l : In "left" role_classes) by (simpl; auto 10).
    assert (Hin_r : In "right" role_classes) by (simpl; auto 10).
    assert (Hin_c : In "center" role_classes) by (simpl; auto 10).
    apply stray_false in Hs.
    split; [|split].
    + destruct (matches_tag_class "DIV" "left" o) eqn:Hmo.
      * symmetry. destruct Hs as [Hs|[Hs|[Hs|Hs]]]; [exact Hs | | |].
        -- exfalso. destruct rref as [i|]; [|discriminate].
           apply (Hex "left" "right"); auto; try discriminate.
           apply (Hback (Some i) "right" i); auto.
        -- exfalso. destruct cref as [i|]; [|discriminate].
           apply (Hex "left" "center"); auto; try discriminate.
           apply (Hback (Some i) "center" i); auto.
        -- rewrite (Hrip "left" Hmo) in Hs. discriminate.
      * destruct lref as [i|]; [|reflexivity].
        destruct (is_ref (Some i) m) eqn:Hx; [|reflexivity].
        exfalso.
        assert (matches_tag_class "DIV" "left" o = true)
          by (apply (Hback (Some i) "left" i); auto).
        congruence.
    + destruct (matches_tag_class "DIV" "right" o) eqn:Hmo.
      * symmetry. destruct Hs as [Hs|[Hs|[Hs|Hs]]]; [|exact Hs| |].
        -- exfalso. destruct lref as [i|]; [|discriminate].
           apply (Hex "right" "left"); auto; try discriminate.
           apply (Hback (Some i) "left" i); auto.
        -- exfalso. destruct cref as [i|]; [|discriminate].
           apply (Hex "right" "center"); auto; try discriminate.
           apply (Hback (Some i) "center" i); auto.
        -- rewrite (Hrip "right" Hmo) in Hs. discriminate.
      * destruct rref as [i|]; [|reflexivity].
        destruct (is_ref (Some i) m) eqn:Hx; [|reflexivity].
        exfalso.
        assert (matches_tag_class "DIV" "right" o = true)
          by (apply (Hback (Some i) "right" i); auto).
        congruence.
    + destruct (matches_tag_class "DIV" "center" o) eqn:Hmo.
      * symmetry. destruct Hs as [Hs|[Hs|[Hs|Hs]]]; [| |exact Hs|].
        -- exfalso. destruct lref as [i|]; [|discriminate].
           apply (Hex "center" "left"); auto; try discriminate.
           apply (Hback (Some i) "left" i); auto.
        -- exfalso. destruct rref as [i|]; [|discriminate].
           apply (Hex "center" "right"); auto; try discriminate.
           apply (Hback (Some i) "right" i); auto.
        -- rewrite (Hrip "center" Hmo) in Hs. discriminate.
      * destruct cref as [i|]; [|reflexivity].
        destruct (is_ref (Some i) m) eqn:Hx; [|reflexivity].
        exfalso.
        assert (matches_tag_class "DIV" "center" o = true)
          by (apply (Hback (Some i) "center" i); auto).
        congruence.
  - simpl in Hid.
    assert (Hl : is_ref lref m = false).
    { destruct lref as [i|]; [|reflexivity]. simpl. apply is_node_false.
      specialize (Hlb i eq_refl). lia. }
    assert (Hc : is_ref cref m = false).
    { destruct cref as [i|]; [|reflexivity]. simpl. apply is_node_false.
      destruct (Hcb i eq_refl); lia. }
    rewrite Hl, Hc. split; [reflexivity|]. split; [|reflexivity].
    apply stray_false in Hs as [Hs|[Hs|[Hs|Hs]]]; try congruence.
    + rewrite Hs. reflexivity.
    + rewrite (Hrip "right" eq_refl) in Hs. discriminate.
  - simpl in Hid.
    assert (Hl : is_ref lref m = false).
    { destruct lref as [i|]; [|reflexivity]. simpl. apply is_node_false.
      specialize (Hlb i eq_refl). lia. }
    assert (Hr' : is_ref rref m = false).
    { destruct rref as [i|]; [|reflexivity]. simpl. apply is_node_false.
      destruct (Hrb i eq_refl); lia. }
    rewrite Hl, Hr'. split; [reflexivity|]. split; [reflexivity|].
    apply stray_false in Hs as [Hs|[Hs|[Hs|Hs]]]; try congruence.
    + rewrite Hs. reflexivity.
    + rewrite (Hrip "center" eq_refl) in Hs. discriminate.
Qed.

Lemma map_fixed {A} (f : A -> A) (l : list A) :
  (forall x, In x l -> f x = x) -> map f l = l.
Proof.
  induction l as [|a l IH]; simpl; intros H; [reflexivity|].
  rewrite H by (left; reflexivity). rewrite IH; [reflexivity|].
  intros x Hx. apply H. right. exact Hx.
Qed.

Lemma filter_all {A} (p : A -> bool) (l : list A) :
  (forall x, In x l -> p x = true) -> List.filter p l = l.
Proof.
  induction l as [|a l IH]; simpl; intros H; [reflexivity|].
  rewrite H by (left; reflexivity). rewrite IH; [reflexivity|].
  intros x Hx. apply H. right. exact Hx.
Qed.

Lemma filter_none {A} (p : A -> bool) (l : list A) :
  (forall x, In x l -> p x = false) -> List.filter p l = [].
Proof.
  induction l as [|a l IH]; simpl; intros H; [reflexivity|].
  rewrite H by (left; reflexivity). apply IH.
  intros x Hx. apply H. right. exact Hx.
Qed.

Lemma update_ref_fixed (f : node -> node) r kids :
  (forall n, In n kids -> is_ref r n = true -> f n = n) ->
  update_ref r f kids = kids.
Proof.
  intros H. destruct r as [i|]; [|reflexivity]. simpl. unfold update_node.
  apply map_fixed. intros n Hn. specialize (H n Hn). simpl in H.
  destruct (is_node i n); auto.
Qed.

Lemma add_class_fixed c n :
  (is_element n = true -> has_class c n = true) -> add_class c n = n.
Proof.
  destruct n as [|i t a cl k]; [reflexivity|]. intros H.
  apply add_class_present, H. reflexivity.
Qed.

Lemma append_children_nil n : append_children [] n = n.
Proof. destruct n; simpl; rewrite ?app_nil_r; reflexivity. Qed.

(** On a child list where a selector selects exactly the children a
    reference names, [adopt] changes nothing and returns a reference that
    names the same children. *)
Lemma adopt_fixed sel created out ref :
  List.NoDup (map node_id out) ->
  (forall n, In n out -> sel n = is_ref ref n) ->
  (created <> None -> exists n, In n out /\ sel n = true) ->
  exists ref', adopt sel created out = (out, ref')
               /\ forall n, In n out -> is_ref ref' n = is_ref ref n.
Proof.
  intros Hnd Hsel Hex.
  destruct (adopt_cases sel created out)
    as [[Hf He]|[(a & Hf & He)|(a & b & more & Hf & He)]]; rewrite He.
  - assert (Hno : forall n, In n out -> sel n = false).
    { intros n Hn. destruct (sel n) eqn:E; [|reflexivity].
      assert (In n (List.filter sel out)) by (apply filter_In; auto).
      rewrite Hf in H. destruct H. }
    destruct created as [x|].
    + exfalso. destruct Hex as (n & Hn & Hs); [discriminate|].
      rewrite (Hno n Hn) in Hs. discriminate.
    + exists None. split; [reflexivity|]. intros n Hn.
      rewrite <- Hsel by exact Hn. rewrite (Hno n Hn). reflexivity.
  - exists (Some (node_id a)). split; [reflexivity|].
    destruct (filter_head_in _ _ _ _ Hf) as [Ha Hsa].
    rewrite (Hsel a Ha) in Hsa. destruct ref as [i|]; [|discriminate].
    simpl in Hsa. apply is_node_true in Hsa. rewrite Hsa. reflexivity.
  - exfalso.
    destruct (filter_NoDup_heads _ _ _ _ _ Hnd Hf) as (Hne & _).
    destruct (filter_head_in _ _ _ _ Hf) as [Ha Hsa].
    destruct (filter_second_in _ _ _ _ _ Hf) as [Hb Hsb].
    rewrite (Hsel a Ha) in Hsa. rewrite (Hsel b Hb) in Hsb.
    destruct ref as [i|]; [|discriminate]. simpl in Hsa, Hsb.
    apply is_node_true in Hsa, Hsb. congruence.
Qed.

Lemma find_fixed sel out ref :
  (forall n, In n out -> sel n = is_ref ref n) ->
  forall n, In n out -> is_ref (node_id <$> List.find sel out) n = is_ref ref n.
Proof.
  intros Hsel n Hn. destruct (List.find sel out) as [x|] eqn:Hfind; simpl.
  - apply find_some in Hfind as [Hx Hsx]. rewrite (Hsel x Hx) in Hsx.
    destruct ref as [i|]; [|discriminate]. simpl in Hsx.
    apply is_node_true in Hsx. rewrite Hsx. reflexivity.
  - rewrite <- Hsel by exact Hn. symmetry.
    apply (find_none _ _ Hfind n Hn).
Qed.

(** The work on [topContent] leaves alone a child list that already has
    the compiled shape: distinct children, none of them stray, each role
    carried exactly by the child its reference names, the classes in
    place, a center wrapper present (and a right one in expandable
    mode). *)
Lemma compile_content_fixed e fresh l r c out :
  List.NoDup (map node_id out) ->
  (forall n, In n out -> stray l r c n = false) ->
  (forall n, In n out ->
     matches_tag_class "DIV" "left" n = is_ref l n
     /\ matches_tag_class "DIV" "right" n = is_ref r n
     /\ matches_tag_class "DIV" "center" n = is_ref c n) ->
  (forall n, In n out -> is_element n = true ->
     (is_ref l n = true -> has_class "list-item__left" n = true)
     /\ (is_ref r n = true -> has_class "list-item__right" n = true)
     /\ (is_ref c n = true -> has_class "list-item__center" n = true)) ->
  (exists n, In n out /\ matches_tag_class "DIV" "center" n = true) ->
  (e = true -> exists n, In n out /\ matches_tag_class "DIV" "right" n = true) ->
  content_out (compile_content e fresh out) = out.
Proof.
  intros Hnd Hs Hroles Hcls Hcenter Hright.
  unfold compile_content, adopt_wrappers.
  pose proof (find_fixed (matches_tag_class "DIV" "left") out l
                (fun n Hn => proj1 (Hroles n Hn))) as Hl'.
  set (l' := node_id <$> List.find (matches_tag_class "DIV" "left") out) in *.
  assert (E1 : update_ref l' (add_class "list-item__left") out = out).
  { apply update_ref_fixed. intros n Hn Href. apply add_class_fixed.
    intros Hel. rewrite (Hl' n Hn) in Href. apply (Hcls n Hn Hel), Href. }
  rewrite E1.
  destruct (adopt_fixed (matches_tag_class "DIV" "right")
              (if e
               then Some (Elem (fresh + 1) "DIV" [] ["right"]
                            [Elem fresh "SPAN" []
                                  ["list-item__expand-chevron"] []])
               else None) out r Hnd
              (fun n Hn => proj1 (proj2 (Hroles n Hn))))
    as (r' & Er & Hr').
  { intros Hcr. apply Hright. destruct e; [reflexivity | contradiction]. }
  rewrite Er.
  assert (E3 : update_ref r' (add_class "list-item__right") out = out).
  { apply update_ref_fixed. intros n Hn Href. apply add_class_fixed.
    intros Hel. rewrite (Hr' n Hn) in Href. apply (Hcls n Hn Hel), Href. }
  rewrite E3.
  destruct (adopt_fixed (matches_tag_class "DIV" "center")
              (Some (Elem (fresh + 2) "DIV" [] ["center"] [])) out c Hnd
              (fun n Hn => proj2 (proj2 (Hroles n Hn))))
    as (c' & Ec & Hc').
  { intros _. exact Hcenter. }
  rewrite Ec.
  assert (E5 : update_ref c' (add_class "list-item__center") out = out).
  { apply update_ref_fixed. intros n Hn Href. apply add_class_fixed.
    intros Hel. rewrite (Hc' n Hn) in Href. apply (Hcls n Hn Hel), Href. }
  rewrite E5. simpl.
  assert (Hs' : forall n, In n out -> stray l' r' c' n = false).
  { intros n Hn. unfold stray.
    rewrite (Hl' n Hn), (Hr' n Hn), (Hc' n Hn). apply (Hs n Hn). }
  rewrite (filter_none _ _ Hs').
  rewrite filter_all by (intros n Hn; rewrite (Hs' n Hn); reflexivity).
  apply update_ref_fixed. intros n _ _. apply append_children_nil.
Qed.

Lemma content_out_origin e fresh content l r c c5 n :
  adopt_wrappers e fresh content = (l, r, c, c5) ->
  In n (content_out (compile_content e fresh content)) ->
  exists m, In m c5 /\ stray l r c m = false /\ node_id n = node_id m
            /\ is_element n = is_element m
            /\ (forall tag cl, matches_tag_class tag cl n
                               = matches_tag_class tag cl m)
            /\ (forall cl, has_class cl n = has_class cl m).
Proof.
  unfold compile_content. intros ->. simpl. intros Hin.
  apply in_update_ref in Hin as (m & Hm & ->). exists m.
  apply filter_In in Hm as [Hm Hs]. apply negb_true_iff in Hs.
  split; [exact Hm|]. split; [exact Hs|].
  destruct (is_ref c m); repeat split; intros;
    rewrite ?append_children_id, ?append_children_matches,
      ?append_children_has_class; try reflexivity.
  destruct m; reflexivity.
Qed.

Lemma content_out_ids e fresh content l r c c5 :
  adopt_wrappers e fresh content = (l, r, c, c5) ->
  List.NoDup (map node_id c5) ->
  List.NoDup (map node_id (content_out (compile_content e fresh content))).
Proof.
  unfold compile_content. intros ->. simpl. intros Hnd.
  rewrite update_ref_ids by apply append_children_id.
  apply NoDup_map_filter, Hnd.
Qed.

(** The shape of the child list the work on [topContent] produces. *)
Lemma content_out_shape e fresh content :
  List.NoDup (map node_id content) ->
  (forall n, In n content -> node_id n < fresh) ->
  forallb one_role content = true ->
  let res := compile_content e fresh content in
  List.NoDup (map node_id (content_out res))
  /\ (forall n, In n (content_out res) -> node_id n <= fresh + 2)
  /\ (forall n, In n (content_out res) ->
       stray (left_ref res) (right_ref res) (center_ref res) n = false)
  /\ (forall n, In n (content_out res) ->
       matches_tag_class "DIV" "left" n = is_ref (left_ref res) n
       /\ matches_tag_class "DIV" "right" n = is_ref (right_ref res) n
       /\ matches_tag_class "DIV" "center" n = is_ref (center_ref res) n)
  /\ (forall n, In n (content_out res) -> is_element n = true ->
       (is_ref (left_ref res) n = true ->
        has_class "list-item__left" n = true)
       /\ (is_ref (right_ref res) n = true ->
           has_class "list-item__right" n = true)
       /\ (is_ref (center_ref res) n = true ->
           has_class "list-item__center" n = true))
  /\ (exists n, In n (content_out res)
                 /\ matches_tag_class "DIV" "center" n = true)
  /\ (forall x i,
        x = left_ref res \/ x = right_ref res \/ x = center_ref res ->
        x = Some i -> i <= fresh + 2).
Proof.
  intros Hnd Hfresh Hone res.
  destruct (adopt_wrappers e fresh content) as [[[l r] c] c5] eqn:Ha.
  assert (El : left_ref res = l)
    by (unfold res, compile_content; rewrite Ha; reflexivity).
  assert (Er : right_ref res = r)
    by (unfold res, compile_content; rewrite Ha; reflexivity).
  assert (Ec : center_ref res = c)
    by (unfold res, compile_content; rewrite Ha; reflexivity).
  rewrite El, Er, Ec.
  destruct (adopt_wrappers_ids _ _ _ _ _ _ _ Ha Hnd Hfresh) as [Hnd5 Hb5].
  split; [apply (content_out_ids _ _ _ _ _ _ _ Ha Hnd5)|].
  split; [|split; [|split; [|split; [|split]]]].
  - intros n Hn.
    destruct (content_out_origin _ _ _ _ _ _ _ _ Ha Hn)
      as (m & Hm & _ & -> & _). apply Hb5, Hm.
  - intros n Hn. rewrite <- El, <- Er, <- Ec.
    apply content_out_not_stray, Hn.
  - intros n Hn.
    destruct (content_out_origin _ _ _ _ _ _ _ _ Ha Hn)
      as (m & Hm & Hs & Hid & _ & Hmat & _).
    rewrite !Hmat. rewrite !(is_ref_same _ n m Hid).
    apply (kept_roles e fresh content l r c c5 m); assumption.
  - intros n Hn Hel.
    destruct (content_out_origin _ _ _ _ _ _ _ _ Ha Hn)
      as (m & Hm & Hs & Hid & Helm & _ & Hcls).
    rewrite !Hcls. rewrite !(is_ref_same _ n m Hid). rewrite Helm in Hel.
    apply (adopt_wrappers_classes e fresh content l r c c5 m); assumption.
  - destruct (content_relocation e fresh content)
      as (cn & before & moved & q & Hcn & _ & Hmc & _).
    + apply NoDup_map_filter, Hnd.
    + exists cn. split; assumption.
  - destruct (adopt_wrappers_refs _ _ _ _ _ _ _ Ha) as (Hlo & Hro & Hco).
    intros x i [->|[->| ->]] Hx.
    + destruct (Hlo i Hx) as (o & Ho & <- & _).
      specialize (Hfresh o Ho). lia.
    + destruct (Hro i Hx) as [(o & Ho & <- & _)| ->]; [|lia].
      specialize (Hfresh o Ho). lia.
    + destruct (Hco i Hx) as [(o & Ho & <- & _)| ->]; [|lia].
      specialize (Hfresh o Ho). lia.
Qed.

Lemma find_absent {A} (p : A -> bool) (l : list A) :
  (forall x, In x l -> p x = false) -> List.find p l = None.
Proof.
  induction l as [|a l IH]; simpl; intros H; [reflexivity|].
  rewrite H by (left; reflexivity). apply IH.
  intros x Hx. apply H. right. exact Hx.
Qed.

Lemma updateRipple_cases fresh i t a cl kids :
  children (updateRipple fresh (Elem i t a cl kids)) = kids
  \/ children (updateRipple fresh (Elem i t a cl kids))
     = Elem fresh "ONS-RIPPLE" [] [] [] :: kids
  \/ (exists rp, In rp kids /\ matches_tag "ONS-RIPPLE" rp = true
                  /\ children (updateRipple fresh (Elem i t a cl kids))
                     = remove_node (node_id rp) kids).
Proof.
  unfold updateRipple.
  destruct (List.find (matches_tag "ONS-RIPPLE") kids) as [r|] eqn:Hfind;
    destruct (has_attr "ripple" a); simpl; auto.
  apply find_some in Hfind as [Hr Hrip]. right. right. exists r. auto.
Qed.

(** A second ripple update changes nothing when the [ripple] attribute is
    present or the [ons-ripple] children all have one identity. *)
Lemma updateRipple_twice fresh fresh' i t a cl kids :
  has_attr "ripple" a = true
  \/ (forall x y, In x kids -> In y kids ->
                  matches_tag "ONS-RIPPLE" x = true ->
                  matches_tag "ONS-RIPPLE" y = true ->
                  node_id x = node_id y) ->
  updateRipple fresh' (updateRipple fresh (Elem i t a cl kids))
  = updateRipple fresh (Elem i t a cl kids).
Proof.
  intros Hcond.
  destruct (List.find (matches_tag "ONS-RIPPLE") kids) as [r|] eqn:Hfind;
    destruct (has_attr "ripple" a) eqn:Hattr.
  - assert (E : updateRipple fresh (Elem i t a cl kids) = Elem i t a cl kids)
      by (unfold updateRipple; rewrite Hfind, Hattr; reflexivity).
    rewrite E. unfold updateRipple. rewrite Hfind, Hattr. reflexivity.
  - assert (E : updateRipple fresh (Elem i t a cl kids)
                = Elem i t a cl (remove_node (node_id r) kids))
      by (unfold updateRipple; rewrite Hfind, Hattr; reflexivity).
    rewrite E. destruct Hcond as [?|Hone]; [discriminate|].
    apply find_some in Hfind as [Hr Hrip].
    unfold updateRipple. rewrite Hattr.
    rewrite find_absent; [reflexivity|].
    intros x Hx. apply in_remove_node in Hx as [Hx Hne].
    destruct (matches_tag "ONS-RIPPLE" x) eqn:Ex; [|reflexivity].
    exfalso. apply Hne. apply Hone; assumption.
  - assert (E : updateRipple fresh (Elem i t a cl kids)
                = Elem i t a cl (Elem fresh "ONS-RIPPLE" [] [] [] :: kids))
      by (unfold updateRipple; rewrite Hfind, Hattr; reflexivity).
    rewrite E. unfold updateRipple. simpl. rewrite Hattr. reflexivity.
  - assert (E : updateRipple fresh (Elem i t a cl kids) = Elem i t a cl kids)
      by (unfold updateRipple; rewrite Hfind, Hattr; reflexivity).
    rewrite E. unfold updateRipple. rewrite Hfind, Hattr. reflexivity.
Qed.

(** The ripple update keeps the compiled shape of a child list. *)
Lemma ripple_keeps_shape fresh bound i t a cl l r c out :
  List.NoDup (map node_id out) ->
  (forall n, In n out -> node_id n < bound) ->
  (forall x j, x = l \/ x = r \/ x = c -> x = Some j -> j < bound) ->
  bound <= fresh ->
  (forall n, In n out -> stray l r c n = false) ->
  (forall n, In n out ->
     matches_tag_class "DIV" "left" n = is_ref l n
     /\ matches_tag_class "DIV" "right" n = is_ref r n
     /\ matches_tag_class "DIV" "center" n = is_ref c n) ->
  (forall n, In n out -> is_element n = true ->
     (is_ref l n = true -> has_class "list-item__left" n = true)
     /\ (is_ref r n = true -> has_class "list-item__right" n = true)
     /\ (is_ref c n = true -> has_class "list-item__center" n = true)) ->
  forall role,
  (exists n, In n out /\ matches_tag_class "DIV" role n = true) ->
  let out' := children (updateRipple fresh (Elem i t a cl out)) in
  List.NoDup (map node_id out')
  /\ (forall n, In n out' -> stray l r c n = false)
  /\ (forall n, In n out' ->
       matches_tag_class "DIV" "left" n = is_ref l n
       /\ matches_tag_class "DIV" "right" n = is_ref r n
       /\ matches_tag_class "DIV" "center" n = is_ref c n)
  /\ (forall n, In n out' -> is_element n = true ->
       (is_ref l n = true -> has_class "list-item__left" n = true)
       /\ (is_ref r n = true -> has_class "list-item__right" n = true)
       /\ (is_ref c n = true -> has_class "list-item__center" n = true))
  /\ (exists n, In n out' /\ matches_tag_class "DIV" role n = true).
Proof.
  intros Hnd Hb Hrb Hle Hs Hroles Hcls role (w & Hw & Hmw) out'.
  assert (Hnoref : forall x, x = l \/ x = r \/ x = c ->
                             is_ref x (Elem fresh "ONS-RIPPLE" [] [] []) = false).
  { intros x Hx. destruct x as [j|] eqn:E; [|reflexivity]. simpl.
    apply is_node_false. simpl. specialize (Hrb (Some j) j).
    rewrite <- E in Hx. subst x. specialize (Hrb Hx eq_refl). lia. }
  destruct (updateRipple_cases fresh i t a cl out)
    as [E|[E|(rp & Hrp & Hrip & E)]]; unfold out'; rewrite E.
  - split; [exact Hnd|]. split; [exact Hs|]. split; [exact Hroles|].
    split; [exact Hcls|]. exists w. auto.
  - split; [|split; [|split; [|split]]].
    + simpl. constructor; [|exact Hnd].
      intros Hin. apply in_map_iff in Hin as (x & Hx & Hin).
      specialize (Hb x Hin). lia.
    + intros n [<-|Hn]; [|apply Hs, Hn].
      apply stray_false. right. right. right. reflexivity.
    + intros n [<-|Hn]; [|apply Hroles, Hn].
      rewrite !Hnoref by tauto. repeat split; reflexivity.
    + intros n [<-|Hn] Hel; [|apply (Hcls n Hn Hel)].
      rewrite !Hnoref by tauto. repeat split; discriminate.
    + exists w. split; [right; exact Hw | exact Hmw].
  - split; [|split; [|split; [|split]]].
    + apply NoDup_remove_node_ids, Hnd.
    + intros n Hn. apply in_remove_node in Hn as [Hn _]. apply Hs, Hn.
    + intros n Hn. apply in_remove_node in Hn as [Hn _]. apply Hroles, Hn.
    + intros n Hn. apply in_remove_node in Hn as [Hn _]. apply Hcls, Hn.
    + exists w. split; [|exact Hmw]. apply in_remove_node.
      split; [exact Hw|]. intros Heq.
      assert (w = rp) by (apply (NoDup_ids_inj out); auto).
      subst w. rewrite (ripple_not_div role rp Hrip) in Hmw. discriminate.
Qed.

Lemma length_le_1_eq {A} (l : list A) x y :
  length l <= 1 -> In x l -> In y l -> x = y.
Proof.
  destruct l as [|a [|b l]]; simpl; intros Hlen Hx Hy; try lia;
    intuition congruence.
Qed.

Lemma _compile_plain i t a cl kids :
  has_attr "expandable" a = false ->
  _compile (Elem i t a cl kids)
  = updateRipple (next_id (Elem i t a cl kids) + 5)
      (Elem i t a cl
         (content_out
            (compile_content false (next_id (Elem i t a cl kids)) kids))).
Proof. intros Hexp. unfold _compile. rewrite Hexp. reflexivity. Qed.

Lemma plain_second_compile i t a cl kids :
  has_attr "expandable" a = false ->
  List.NoDup (map node_id kids) ->
  forallb one_role kids = true ->
  has_attr "ripple" a = true
  \/ length (List.filter (matches_tag "ONS-RIPPLE") kids) <= 1 ->
  _compile (_compile (Elem i t a cl kids)) = _compile (Elem i t a cl kids).
Proof.
  intros Hexp Hnd Hone Hripple.
  rewrite (_compile_plain i t a cl kids Hexp).
  set (fresh := next_id (Elem i t a cl kids)).
  assert (Hfresh : forall n, In n kids -> node_id n < fresh)
    by (intros n Hn; apply child_id_above, Hn).
  destruct (content_out_shape false fresh kids Hnd Hfresh Hone)
    as (Hndo & Hbo & Hso & Hroles & Hcls & Hcenter & Hrefs).
  set (res := compile_content false fresh kids) in *.
  set (out := content_out res) in *.
  destruct (ripple_keeps_shape (fresh + 5) (fresh + 3) i t a cl
              (left_ref res) (right_ref res) (center_ref res) out)
    with (role := "center")
    as (Hnd' & Hs' & Hroles' & Hcls' & Hcenter'); auto.
  { intros n Hn. specialize (Hbo n Hn). lia. }
  { intros x j Hx Hxj. specialize (Hrefs x j Hx Hxj). lia. }
  { lia. }
  rewrite (updateRipple_shape (fresh + 5) i t a cl out) at 1.
  rewrite (_compile_plain i t a cl _ Hexp).
  rewrite (compile_content_fixed false _ (left_ref res) (right_ref res)
             (center_ref res)); auto; [|discriminate].
  rewrite <- (updateRipple_shape (fresh + 5) i t a cl out).
  apply updateRipple_twice.
  destruct Hripple as [Hattr|Hlen]; [left; exact Hattr | right].
  intros x y Hx Hy Hrx Hry.
  destruct (content_out_ripple_id _ _ _ _ Hx Hrx) as (ox & Hox & <- & Horx).
  destruct (content_out_ripple_id _ _ _ _ Hy Hry) as (oy & Hoy & <- & Hory).
  f_equal. apply (length_le_1_eq _ _ _ Hlen); apply filter_In; auto.
Qed.

End SecondCompile.

(** ** ons-tab: what [_compile] leaves in the button *)

Section TabButton.
Import Tab.

Lemma filter_filter_le {A} (p q : A -> bool) (l : list A) :
  length (List.filter p (List.filter q l)) <= length (List.filter p l).
Proof.
  induction l as [|a l IH]; simpl; [lia|].
  destruct (q a), (p a) eqn:E; simpl; rewrite ?E; simpl; lia.
Qed.

Lemma filter_comm {A} (p q : A -> bool) (l : list A) :
  List.filter p (List.filter q l) = List.filter q (List.filter p l).
Proof.
  induction l as [|a l IH]; simpl; [reflexivity|].
  destruct (q a) eqn:Eq, (p a) eqn:Ep; simpl; rewrite ?Eq, ?Ep, ?IH;
    reflexivity.
Qed.

(** [remove_all] as one filter. *)
Lemma remove_all_filter further : forall kids,
  remove_all further kids
  = List.filter
      (fun n => forallb (fun x => negb (is_node (node_id x) n)) further) kids.
Proof.
  unfold remove_all.
  induction further as [|x further IH]; intros kids; simpl.
  - symmetry. apply filter_all. reflexivity.
  - rewrite IH. unfold remove_node. clear IH.
    induction kids as [|k kids IHk]; simpl; [reflexivity|].
    destruct (is_node (node_id x) k); simpl; rewrite IHk; reflexivity.
Qed.

Lemma survives_self tl n :
  In n tl -> forallb (fun x => negb (is_node (node_id x) n)) tl = false.
Proof.
  induction tl as [|x tl IH]; simpl; intros Hin; [destruct Hin|].
  destruct Hin as [->|Hin].
  - replace (is_node (node_id n) n) with true; [reflexivity|].
    symmetry. apply is_node_true. reflexivity.
  - rewrite (IH Hin). apply andb_false_r.
Qed.

Lemma remove_all_count p further kids :
  length (List.filter p (remove_all further kids))
  <= length (List.filter p kids).
Proof. rewrite remove_all_filter. apply filter_filter_le. Qed.

Lemma remove_node_count p i kids :
  length (List.filter p (remove_node i kids)) <= length (List.filter p kids).
Proof. apply filter_filter_le. Qed.

(** After the further nodes of a selector are removed, at most the first
    one is left. *)
Lemma remove_all_tail_count q kids x tl :
  List.filter q kids = x :: tl ->
  length (List.filter q (remove_all tl kids)) <= 1.
Proof.
  intros Hf. rewrite remove_all_filter, filter_comm, Hf. simpl.
  rewrite (filter_none _ tl) by apply survives_self.
  destruct (forallb _ tl); simpl; lia.
Qed.

(** The shape every step on the button's child list has: nothing, an
    appended or prepended fresh node when the selector finds none, or the
    removal of the first node found; then the further nodes found are
    removed. *)
Lemma step_counts (q p : node -> bool) created b b1 :
  b1 = b
  \/ (List.filter q b = [] /\ (b1 = b ++ [created] \/ b1 = created :: b))
  \/ (exists l0 tl, List.filter q b = l0 :: tl
                     /\ b1 = remove_node (node_id l0) b) ->
  q created = true ->
  length (List.filter q (remove_all (tail (List.filter q b)) b1)) <= 1
  /\ (p created = false ->
      length (List.filter p (remove_all (tail (List.filter q b)) b1))
      <= length (List.filter p b)).
Proof.
  intros Hb1 Hq. split.
  - destruct Hb1 as [->|[[Hf [->| ->]]|(l0 & tl & Hf & ->)]].
    + destruct (List.filter q b) as [|x tl] eqn:Hf; simpl.
      * rewrite Hf. simpl. lia.
      * apply (remove_all_tail_count q b x tl Hf).
    + rewrite Hf. simpl. rewrite List.filter_app, Hf. simpl. rewrite Hq.
      simpl. lia.
    + rewrite Hf. simpl. rewrite Hq, Hf. simpl. lia.
    + rewrite Hf. simpl.
      rewrite !remove_all_filter.
      pose proof (remove_all_tail_count q b l0 tl Hf) as H.
      rewrite remove_all_filter in H.
      unfold remove_node.
      rewrite (filter_comm _ (fun n => negb (is_node (node_id l0) n)) b).
      etransitivity; [apply filter_filter_le | exact H].
  - intros Hp. etransitivity; [apply remove_all_count|].
    destruct Hb1 as [->|[[Hf [->| ->]]|(l0 & tl & Hf & ->)]].
    + lia.
    + rewrite List.filter_app. simpl. rewrite Hp. simpl.
      rewrite length_app. simpl. lia.
    + simpl. rewrite Hp. lia.
    + apply remove_node_count.
Qed.

Lemma compile_icon_children icon_of t b :
  exists b1,
    (compile_icon icon_of t b).2
    = remove_all (tail (List.filter (matches_class "tabbar__icon") b)) b1
    /\ (b1 = b
        \/ (List.filter (matches_class "tabbar__icon") b = []
            /\ (b1 = b ++ [Elem (fresh t) "DIV" [] ["tabbar__icon"]
                                 [Elem (fresh t + 1) "ONS-ICON" [] [] []]]
                \/ b1 = Elem (fresh t) "DIV" [] ["tabbar__icon"]
                              [Elem (fresh t + 1) "ONS-ICON" [] [] []] :: b))
        \/ (exists l0 tl,
              List.filter (matches_class "tabbar__icon") b = l0 :: tl
              /\ b1 = remove_node (node_id l0) b)).
Proof.
  unfold compile_icon.
  destruct (List.filter (matches_class "tabbar__icon") b) as [|l0 tl] eqn:Hf;
    simpl.
  - destruct (truthy (icon t) || truthy (activeIcon t)); simpl;
      eexists; (split; [reflexivity|]); auto.
  - destruct (truthy (icon t) || truthy (activeIcon t)); simpl;
      [eexists; split; [reflexivity | auto]|].
    destruct (_iconPropertiesTouched t); simpl;
      eexists; (split; [reflexivity|]); eauto 10.
Qed.

Lemma compile_label_children t b :
  exists b1,
    (compile_label t b).2
    = remove_all (tail (List.filter (matches_class "tabbar__label") b)) b1
    /\ (b1 = b
        \/ (List.filter (matches_class "tabbar__label") b = []
            /\ (b1 = b ++ [Elem (fresh t) "DIV" [] ["tabbar__label"] []]
                \/ b1 = Elem (fresh t) "DIV" [] ["tabbar__label"] [] :: b))
        \/ (exists l0 tl,
              List.filter (matches_class "tabbar__label") b = l0 :: tl
              /\ b1 = remove_node (node_id l0) b)).
Proof.
  unfold compile_label.
  destruct (List.filter (matches_class "tabbar__label") b) as [|l0 tl] eqn:Hf;
    simpl.
  - destruct (truthy (label t)); simpl;
      eexists; (split; [reflexivity|]); auto.
  - destruct (truthy (label t)); simpl;
      [eexists; split; [reflexivity | auto]|].
    destruct (_labelPropertyTouched t); simpl;
      eexists; (split; [reflexivity|]); eauto 10.
Qed.

Lemma compile_badge_children t b :
  exists b1,
    (compile_badge t b).2
    = remove_all (tail (List.filter (matches_class "tabbar__badge") b)) b1
    /\ (b1 = b
        \/ (List.filter (matches_class "tabbar__badge") b = []
            /\ (b1 = b ++ [Elem (fresh t) "DIV" []
                                 ["tabbar__badge"; "notification"] []]
                \/ b1 = Elem (fresh t) "DIV" []
                              ["tabbar__badge"; "notification"] [] :: b))
        \/ (exists l0 tl,
              List.filter (matches_class "tabbar__badge") b = l0 :: tl
              /\ b1 = remove_node (node_id l0) b)).
Proof.
  unfold compile_badge.
  destruct (List.filter (matches_class "tabbar__badge") b) as [|l0 tl] eqn:Hf;
    simpl.
  - destruct (truthy (badge t)); simpl;
      eexists; (split; [reflexivity|]); auto.
  - destruct (truthy (badge t)); simpl;
      [eexists; split; [reflexivity | auto]|].
    destruct (_badgePropertyTouched t); simpl;
      eexists; (split; [reflexivity|]); eauto 10.
Qed.

Lemma compile_ripple_children t b :
  exists b1,
    (compile_ripple t b).2
    = remove_all (tail (List.filter (matches_tag "ONS-RIPPLE") b)) b1
    /\ (b1 = b
        \/ (List.filter (matches_tag "ONS-RIPPLE") b = []
            /\ (b1 = b ++ [Elem (fresh t) "ONS-RIPPLE" [] [] []]
                \/ b1 = Elem (fresh t) "ONS-RIPPLE" [] [] [] :: b))
        \/ (exists l0 tl,
              List.filter (matches_tag "ONS-RIPPLE") b = l0 :: tl
              /\ b1 = remove_node (node_id l0) b)).
Proof.
  unfold compile_ripple.
  destruct (List.filter (matches_tag "ONS-RIPPLE") b) as [|l0 tl] eqn:Hf;
    simpl.
  - destruct (ripple t); simpl; eexists; (split; [reflexivity|]); auto.
  - destruct (ripple t); simpl; [eexists; split; [reflexivity | auto]|].
    destruct (_ripplePropertyTouched t); simpl;
      eexists; (split; [reflexivity|]); eauto 10.
Qed.

Lemma compile_steps icon_of this :
  let s1 := compile_button this in
  let s2 := compile_input s1.2 s1.1 in
  let s3 := compile_icon icon_of s2.1 s2.2 in
  let s4 := compile_label s3.1 s3.2 in
  let s5 := compile_badge s4.1 s4.2 in
  let s6 := compile_ripple s5.1 s5.2 in
  _compile icon_of this
  = set_childNodes (update_node s1.2 (set_children s6.2) (childNodes s6.1))
                   s6.1.
Proof.
  unfold _compile.
  destruct (compile_button this) as [t1 button]. simpl.
  destruct (compile_input button t1) as [t2 b2]. simpl.
  destruct (compile_icon icon_of t2 b2) as [t3 b3]. simpl.
  destruct (compile_label t3 b3) as [t4 b4]. simpl.
  destruct (compile_badge t4 b4) as [t5 b5]. simpl.
  destruct (compile_ripple t5 b5) as [t6 b6]. reflexivity.
Qed.

Lemma button_role_counts icon_of this n :
  In n (childNodes (_compile icon_of this)) ->
  is_node (compile_button this).2 n = true -> is_element n = true ->
  length (List.filter (matches_class "tabbar__icon") (children n)) <= 1
  /\ length (List.filter (matches_class "tabbar__label") (children n)) <= 1
  /\ length (List.filter (matches_class "tabbar__badge") (children n)) <= 1
  /\ length (List.filter (matches_tag "ONS-RIPPLE") (children n)) <= 1.
Proof.
  rewrite compile_steps. cbv zeta.
  set (s1 := compile_button this).
  set (s2 := compile_input s1.2 s1.1).
  set (s3 := compile_icon icon_of s2.1 s2.2).
  set (s4 := compile_label s3.1 s3.2).
  set (s5 := compile_badge s4.1 s4.2).
  set (s6 := compile_ripple s5.1 s5.2).
  simpl. intros Hn Hb Hel.
  apply in_update_node in Hn as (m & Hm & ->).
  destruct (is_node s1.2 m) eqn:Em; [|congruence].
  rewrite set_children_is_element in Hel.
  rewrite (set_children_children _ _ Hel).
  destruct (compile_icon_children icon_of s2.1 s2.2) as (i1 & Ei & Hi).
  destruct (compile_label_children s3.1 s3.2) as (l1 & El & Hl).
  destruct (compile_badge_children s4.1 s4.2) as (g1 & Eg & Hg).
  destruct (compile_ripple_children s5.1 s5.2) as (r1 & Er & Hr).
  fold s3 in Ei. fold s4 in El. fold s5 in Eg. fold s6 in Er.
  split; [|split; [|split]].
  - etransitivity;
      [rewrite Er;
       apply (step_counts _ (matches_class "tabbar__icon") _ _ _ Hr);
       reflexivity|].
    etransitivity;
      [rewrite Eg;
       apply (step_counts _ (matches_class "tabbar__icon") _ _ _ Hg);
       reflexivity|].
    etransitivity;
      [rewrite El;
       apply (step_counts _ (matches_class "tabbar__icon") _ _ _ Hl);
       reflexivity|].
    rewrite Ei.
    apply (step_counts _ (matches_class "tabbar__icon") _ _ _ Hi).
    reflexivity.
  - etransitivity;
      [rewrite Er;
       apply (step_counts _ (matches_class "tabbar__label") _ _ _ Hr);
       reflexivity|].
    etransitivity;
      [rewrite Eg;
       apply (step_counts _ (matches_class "tabbar__label") _ _ _ Hg);
       reflexivity|].
    rewrite El.
    apply (step_counts _ (matches_class "tabbar__label") _ _ _ Hl).
    reflexivity.
  - etransitivity;
      [rewrite Er;
       apply (step_counts _ (matches_class "tabbar__badge") _ _ _ Hr);
       reflexivity|].
    rewrite Eg.
    apply (step_counts _ (matches_class "tabbar__badge") _ _ _ Hg).
    reflexivity.
  - rewrite Er.
    apply (step_counts _ (matches_tag "ONS-RIPPLE") _ _ _ Hr).
    reflexivity.
Qed.

Lemma compile_input_some button t :
  exists i, _inputElement (compile_input button t).1 = Some i
            /\ forall m, In m (childNodes (compile_input button t).1) ->
                         is_node button m = true \/ is_node i m = true.
Proof.
  unfold compile_input.
  destruct (List.filter (matches_tag "INPUT") (childNodes t)) as [|i0 rest];
    simpl; eexists; (split; [reflexivity|]); intros m Hm;
    apply filter_In in Hm as [_ Hm];
    destruct (is_node button m), (is_node _ m); simpl in *; auto;
    discriminate.
Qed.

Lemma compile_input_creates button t :
  List.filter (matches_tag "INPUT") (childNodes t) = [] ->
  _inputElement (compile_input button t).1 = Some (fresh t)
  /\ In (Elem (fresh t) "INPUT"
              [("type", "radio"); ("style", "display: none;")] [] [])
        (childNodes (compile_input button t).1)
  /\ forall m, In m (childNodes (compile_input button t).1) ->
               matches_tag "INPUT" m = true -> node_id m = fresh t.
Proof.
  intros Hf. unfold compile_input. rewrite Hf. simpl.
  split; [reflexivity|]. split.
  - apply filter_In. split; [apply in_or_app; right; left; reflexivity|].
    replace (is_node (fresh t)
               (Elem (fresh t) "INPUT"
                     [("type", "radio"); ("style", "display: none;")] [] []))
      with true by (symmetry; apply is_node_true; reflexivity).
    simpl. rewrite andb_false_r. reflexivity.
  - intros m Hm Hmi. apply filter_In in Hm as [Hm _].
    apply in_app_or in Hm as [Hm|[<-|[]]]; [|reflexivity].
    assert (In m (List.filter (matches_tag "INPUT") (childNodes t)))
      by (apply filter_In; auto).
    rewrite Hf in H. destruct H.
Qed.

Lemma tab_children icon_of this :
  exists i,
    _inputElement (_compile icon_of this) = Some i
    /\ forall n, In n (childNodes (_compile icon_of this)) ->
                 is_node (compile_button this).2 n = true
                 \/ is_node i n = true.
Proof.
  destruct (compile_children icon_of this) as (b & Hkids & Hinput).
  destruct (compile_input_some (compile_button this).2 (compile_button this).1)
    as (i & Hi & Hmem).
  exists i. split; [congruence|].
  intros n Hn. rewrite Hkids in Hn.
  apply in_update_node in Hn as (m & Hm & ->).
  assert (Hid : forall k,
             is_node k (if is_node (compile_button this).2 m
                        then set_children b m else m) = is_node k m).
  { intros k. destruct (is_node (compile_button this).2 m); [|reflexivity].
    unfold is_node. rewrite set_children_id. reflexivity. }
  rewrite !Hid. apply Hmem, Hm.
Qed.

Lemma tab_creates_input icon_of this :
  (forall n, In n (childNodes this) ->
             is_ref (_automaticallyAddedButton this) n = true ->
             matches_tag "INPUT" n = false) ->
  List.filter (matches_tag "INPUT") (childNodes this) = [] ->
  exists n, In n (childNodes (_compile icon_of this))
            /\ _inputElement (_compile icon_of this) = Some (node_id n)
            /\ matches_tag "INPUT" n = true
            /\ node_attributes n
               = [("type", "radio"); ("style", "display: none;")]
            /\ forall m, In m (childNodes (_compile icon_of this)) ->
                         matches_tag "INPUT" m = true ->
                         node_id m = node_id n.
Proof.
  intros Hauto Hf.
  destruct (compile_children icon_of this) as (b & Hkids & Hinput).
  pose proof (compile_button_inputs this Hauto) as Hf1. rewrite Hf in Hf1.
  destruct (compile_input_creates (compile_button this).2 _ Hf1)
    as (Hi & Hin & Honly).
  set (button := (compile_button this).2) in *.
  set (input := Elem (fresh (compile_button this).1) "INPUT"
                     [("type", "radio"); ("style", "display: none;")] [] [])
    in *.
  exists (if is_node button input then set_children b input else input).
  split; [|split; [|split; [|split]]].
  - rewrite Hkids. apply in_update_node. exists input. auto.
  - rewrite Hinput, Hi. destruct (is_node button input); reflexivity.
  - destruct (is_node button input); reflexivity.
  - destruct (is_node button input); reflexivity.
  - intros m Hm Hmi. rewrite Hkids in Hm.
    apply in_update_node in Hm as (m0 & Hm0 & ->).
    assert (Hid : node_id (if is_node button m0 then set_children b m0 else m0)
                  = node_id m0)
      by (destruct (is_node button m0); rewrite ?set_children_id; reflexivity).
    assert (Hmt : matches_tag "INPUT"
                    (if is_node button m0 then set_children b m0 else m0)
                  = matches_tag "INPUT" m0)
      by (destruct (is_node button m0); destruct m0; reflexivity).
    rewrite Hid. rewrite Hmt in Hmi. rewrite (Honly m0 Hm0 Hmi).
    destruct (is_node button input); reflexivity.
Qed.

Lemma NoDup_ids_fresh b x f :
  List.NoDup (map node_id b) -> (forall n, In n b -> node_id n < f) ->
  node_id x = f ->
  List.NoDup (map node_id (b ++ [x])) /\ List.NoDup (map node_id (x :: b)).
Proof.
  intros Hnd Hb Hx.
  assert (Hnot : ~ In (node_id x) (map node_id b)).
  { intros Hin. apply in_map_iff in Hin as (n & Hn & Hin).
    specialize (Hb n Hin). lia. }
  split.
  - rewrite map_app. simpl. clear Hb Hx.
    induction (map node_id b) as [|y ys IH]; simpl.
    + constructor; [intros []|constructor].
    + inversion Hnd as [|? ? Hy Hys]; subst. constructor.
      * intros Hin. apply in_app_or in Hin as [Hin|[Hin|[]]]; [auto|].
        apply Hnot. left. symmetry. exact Hin.
      * apply IH; [exact Hys|]. intros Hin. apply Hnot. right. exact Hin.
  - simpl. constructor; assumption.
Qed.

(** A step on the button's child list leaves the children that no step
    selects where they are, in their order. *)
Lemma step_plain (q plain : node -> bool) created b b1 :
  b1 = b
  \/ (List.filter q b = [] /\ (b1 = b ++ [created] \/ b1 = created :: b))
  \/ (exists l0 tl, List.filter q b = l0 :: tl
                     /\ b1 = remove_node (node_id l0) b) ->
  (forall n, plain n = true -> q n = false) ->
  plain created = false ->
  List.NoDup (map node_id b) ->
  List.filter plain (remove_all (tail (List.filter q b)) b1)
  = List.filter plain b.
Proof.
  intros Hb1 Hpq Hpc Hnd.
  assert (Hdiff : forall n x, In n b -> plain n = true -> In x b ->
                              q x = true -> node_id n <> node_id x).
  { intros n x Hn Hpn Hx Hqx Hid.
    assert (n = x) by (apply (NoDup_ids_inj b); auto). subst x.
    rewrite (Hpq n Hpn) in Hqx. discriminate. }
  rewrite remove_all_filter, filter_comm.
  assert (E : List.filter plain b1 = List.filter plain b).
  { destruct Hb1 as [->|[[Hf [->| ->]]|(l0 & tl & Hf & ->)]].
    - reflexivity.
    - rewrite List.filter_app. simpl. rewrite Hpc. apply app_nil_r.
    - simpl. rewrite Hpc. reflexivity.
    - unfold remove_node. rewrite filter_comm. apply filter_all.
      intros n Hn. apply filter_In in Hn as [Hn Hpn].
      apply negb_true_iff, is_node_false.
      destruct (filter_head_in _ _ _ _ Hf) as [Hl0 Hql0].
      apply (Hdiff n l0); assumption. }
  rewrite E. apply filter_all.
  intros n Hn. apply filter_In in Hn as [Hn Hpn].
  apply forallb_forall. intros x Hx.
  apply negb_true_iff, is_node_false.
  assert (Hxf : In x (List.filter q b)).
  { destruct (List.filter q b) as [|a tl]; [destruct Hx | right; exact Hx]. }
  apply filter_In in Hxf as [Hxb Hqx].
  apply (Hdiff n x); assumption.
Qed.

Ltac step_invariant Hnd Hb :=
  split;
  [ rewrite ?remove_all_filter; try apply NoDup_map_filter;
    first [ exact Hnd
          | apply NoDup_remove_node_ids; exact Hnd
          | eapply (proj1 (NoDup_ids_fresh _ _ _ Hnd Hb _))
          | eapply (proj2 (NoDup_ids_fresh _ _ _ Hnd Hb _)) ]
  | let n := fresh "n" in
    let Hn := fresh "Hn" in
    intros n Hn; try (apply in_remove_all in Hn as [Hn _]); simpl;
    first [ specialize (Hb n Hn); lia
          | apply in_remove_node in Hn as [Hn _]; specialize (Hb _ Hn); lia
          | apply in_app_or in Hn as [Hn|[<-|[]]];
            [specialize (Hb _ Hn); lia | simpl; lia]
          | destruct Hn as [<-|Hn];
            [simpl; lia | specialize (Hb _ Hn); lia] ] ].

Lemma compile_icon_invariant icon_of t b :
  List.NoDup (map node_id b) -> (forall n, In n b -> node_id n < fresh t) ->
  List.NoDup (map node_id (compile_icon icon_of t b).2)
  /\ forall n, In n (compile_icon icon_of t b).2 ->
               node_id n < fresh (compile_icon icon_of t b).1.
Proof.
  intros Hnd Hb. unfold compile_icon.
  destruct (List.filter (matches_class "tabbar__icon") b) as [|l0 tl];
    simpl; destruct (truthy (icon t) || truthy (activeIcon t)); simpl;
    try destruct (_iconPropertiesTouched t); simpl;
    step_invariant Hnd Hb.
  Unshelve. all: reflexivity.
Qed.

Lemma compile_label_invariant t b :
  List.NoDup (map node_id b) -> (forall n, In n b -> node_id n < fresh t) ->
  List.NoDup (map node_id (compile_label t b).2)
  /\ forall n, In n (compile_label t b).2 ->
               node_id n < fresh (compile_label t b).1.
Proof.
  intros Hnd Hb. unfold compile_label.
  destruct (List.filter (matches_class "tabbar__label") b) as [|l0 tl];
    simpl; destruct (truthy (label t)); simpl;
    try destruct (_labelPropertyTouched t); simpl;
    step_invariant Hnd Hb.
  Unshelve. all: reflexivity.
Qed.

Lemma compile_badge_invariant t b :
  List.NoDup (map node_id b) -> (forall n, In n b -> node_id n < fresh t) ->
  List.NoDup (map node_id (compile_badge t b).2)
  /\ forall n, In n (compile_badge t b).2 ->
               node_id n < fresh (compile_badge t b).1.
Proof.
  intros Hnd Hb. unfold compile_badge.
  destruct (List.filter (matches_class "tabbar__badge") b) as [|l0 tl];
    simpl; destruct (truthy (badge t)); simpl;
    try destruct (_badgePropertyTouched t); simpl;
    step_invariant Hnd Hb.
  Unshelve. all: reflexivity.
Qed.

Lemma not_role_node n :
  negb (TabContent.role_node n) = true ->
  matches_class "tabbar__icon" n = false
  /\ matches_class "tabbar__label" n = false
  /\ matches_class "tabbar__badge" n = false
  /\ matches_tag "ONS-RIPPLE" n = false.
Proof.
  unfold TabContent.role_node. intros H. apply negb_true_iff in H.
  repeat (apply orb_false_iff in H as [H ?]). auto.
Qed.

Lemma button_keeps_content icon_of this n :
  let s1 := compile_button this in
  let s2 := compile_input s1.2 s1.1 in
  List.NoDup (map node_id s2.2) ->
  (forall x, In x s2.2 -> node_id x < fresh s2.1) ->
  In n (childNodes (_compile icon_of this)) ->
  is_node s1.2 n = true -> is_element n = true ->
  List.filter (fun x => negb (TabContent.role_node x)) (children n)
  = List.filter (fun x => negb (TabContent.role_node x)) s2.2.
Proof.
  intros s1 s2 Hnd2 Hb2. rewrite compile_steps. cbv zeta.
  fold s1. fold s2.
  set (s3 := compile_icon icon_of s2.1 s2.2).
  set (s4 := compile_label s3.1 s3.2).
  set (s5 := compile_badge s4.1 s4.2).
  set (s6 := compile_ripple s5.1 s5.2).
  simpl. intros Hn Hb Hel.
  apply in_update_node in Hn as (m & Hm & ->).
  destruct (is_node s1.2 m) eqn:Em; [|congruence].
  rewrite set_children_is_element in Hel.
  rewrite (set_children_children _ _ Hel).
  destruct (compile_icon_children icon_of s2.1 s2.2) as (i1 & Ei & Hi).
  destruct (compile_label_children s3.1 s3.2) as (l1 & El & Hl).
  destruct (compile_badge_children s4.1 s4.2) as (g1 & Eg & Hg).
  destruct (compile_ripple_children s5.1 s5.2) as (r1 & Er & Hr).
  fold s3 in Ei. fold s4 in El. fold s5 in Eg. fold s6 in Er.
  destruct (compile_icon_invariant icon_of s2.1 s2.2 Hnd2 Hb2) as [Hnd3 Hb3].
  fold s3 in Hnd3, Hb3.
  destruct (compile_label_invariant s3.1 s3.2 Hnd3 Hb3) as [Hnd4 Hb4].
  fold s4 in Hnd4, Hb4.
  destruct (compile_badge_invariant s4.1 s4.2 Hnd4 Hb4) as [Hnd5 Hb5].
  fold s5 in Hnd5, Hb5.
  rewrite Er.
  rewrite (step_plain _ (fun x => negb (TabContent.role_node x)) _ _ _ Hr);
    [|intros x Hx; apply (not_role_node x Hx) | reflexivity | exact Hnd5].
  rewrite Eg.
  rewrite (step_plain _ (fun x => negb (TabContent.role_node x)) _ _ _ Hg);
    [|intros x Hx; apply (not_role_node x Hx) | reflexivity | exact Hnd4].
  rewrite El.
  rewrite (step_plain _ (fun x => negb (TabContent.role_node x)) _ _ _ Hl);
    [|intros x Hx; apply (not_role_node x Hx) | reflexivity | exact Hnd3].
  rewrite Ei.
  apply (step_plain _ (fun x => negb (TabContent.role_node x)) _ _ _ Hi);
    [intros x Hx; apply (not_role_node x Hx) | reflexivity | exact Hnd2].
Qed.

(** The fields each step leaves alone. *)
Lemma compile_button_frame t :
  label (compile_button t).1 = label t
  /\ badge (compile_button t).1 = badge t
  /\ ripple (compile_button t).1 = ripple t
  /\ _labelPropertyTouched (compile_button t).1 = _labelPropertyTouched t
  /\ _badgePropertyTouched (compile_button t).1 = _badgePropertyTouched t
  /\ _ripplePropertyTouched (compile_button t).1 = _ripplePropertyTouched t.
Proof. unfold compile_button. repeat case_match; simpl; tauto. Qed.

Lemma compile_input_frame button t :
  label (compile_input button t).1 = label t
  /\ badge (compile_input button t).1 = badge t
  /\ ripple (compile_input button t).1 = ripple t
  /\ _labelPropertyTouched (compile_input button t).1
     = _labelPropertyTouched t
  /\ _badgePropertyTouched (compile_input button t).1
     = _badgePropertyTouched t
  /\ _ripplePropertyTouched (compile_input button t).1
     = _ripplePropertyTouched t.
Proof. unfold compile_input. repeat case_match; simplify_eq; simpl; tauto. Qed.

Lemma compile_icon_frame icon_of t b :
  label (compile_icon icon_of t b).1 = label t
  /\ badge (compile_icon icon_of t b).1 = badge t
  /\ ripple (compile_icon icon_of t b).1 = ripple t
  /\ _labelPropertyTouched (compile_icon icon_of t b).1
     = _labelPropertyTouched t
  /\ _badgePropertyTouched (compile_icon icon_of t b).1
     = _badgePropertyTouched t
  /\ _ripplePropertyTouched (compile_icon icon_of t b).1
     = _ripplePropertyTouched t.
Proof. unfold compile_icon. repeat case_match; simplify_eq; simpl; tauto. Qed.

Lemma compile_label_frame t b :
  badge (compile_label t b).1 = badge t
  /\ ripple (compile_label t b).1 = ripple t
  /\ _badgePropertyTouched (compile_label t b).1 = _badgePropertyTouched t
  /\ _ripplePropertyTouched (compile_label t b).1 = _ripplePropertyTouched t.
Proof. unfold compile_label. repeat case_match; simplify_eq; simpl; tauto. Qed.

Lemma compile_badge_frame t b :
  label (compile_badge t b).1 = label t
  /\ _labelElement (compile_badge t b).1 = _labelElement t
  /\ ripple (compile_badge t b).1 = ripple t
  /\ _ripplePropertyTouched (compile_badge t b).1 = _ripplePropertyTouched t.
Proof. unfold compile_badge. repeat case_match; simplify_eq; simpl; tauto. Qed.

Lemma compile_ripple_frame t b :
  label (compile_ripple t b).1 = label t
  /\ _labelElement (compile_ripple t b).1 = _labelElement t
  /\ badge (compile_ripple t b).1 = badge t
  /\ _badgeElement (compile_ripple t b).1 = _badgeElement t.
Proof. unfold compile_ripple. repeat case_match; simplify_eq; simpl; tauto. Qed.

(** The fields of the compiled tab in terms of the step that writes them. *)
Lemma compile_fields icon_of this :
  let s1 := compile_button this in
  let s2 := compile_input s1.2 s1.1 in
  let s3 := compile_icon icon_of s2.1 s2.2 in
  let s4 := compile_label s3.1 s3.2 in
  let s5 := compile_badge s4.1 s4.2 in
  let s6 := compile_ripple s5.1 s5.2 in
  label (_compile icon_of this) = label s4.1
  /\ _labelElement (_compile icon_of this) = _labelElement s4.1
  /\ badge (_compile icon_of this) = badge s5.1
  /\ _badgeElement (_compile icon_of this) = _badgeElement s5.1
  /\ ripple (_compile icon_of this) = ripple s6.1
  /\ label s3.1 = label this
  /\ _labelPropertyTouched s3.1 = _labelPropertyTouched this
  /\ badge s4.1 = badge this
  /\ _badgePropertyTouched s4.1 = _badgePropertyTouched this
  /\ ripple s5.1 = ripple this
  /\ _ripplePropertyTouched s5.1 = _ripplePropertyTouched this.
Proof.
  intros s1 s2 s3 s4 s5 s6. rewrite compile_steps. cbv zeta.
  fold s1 s2 s3 s4 s5 s6. simpl.
  pose proof (compile_button_frame this) as (B1 & B2 & B3 & B4 & B5 & B6).
  pose proof (compile_input_frame s1.2 s1.1) as (I1 & I2 & I3 & I4 & I5 & I6).
  pose proof (compile_icon_frame icon_of s2.1 s2.2)
    as (C1 & C2 & C3 & C4 & C5 & C6).
  pose proof (compile_label_frame s3.1 s3.2) as (L1 & L2 & L3 & L4).
  pose proof (compile_badge_frame s4.1 s4.2) as (G1 & G2 & G3 & G4).
  pose proof (compile_ripple_frame s5.1 s5.2) as (R1 & R2 & R3 & R4).
  fold s1 in B1, B2, B3, B4, B5, B6.
  fold s2 in I1, I2, I3, I4, I5, I6.
  fold s3 in C1, C2, C3, C4, C5, C6.
  fold s4 in L1, L2, L3, L4. fold s5 in G1, G2, G3, G4.
  fold s6 in R1, R2, R3, R4.
  repeat split; congruence.
Qed.

Lemma compile_label_outcome t b :
  (truthy (label t) = true ->
   List.filter (matches_class "tabbar__label") b = [] ->
   (compile_label t b).2 = b ++ [Elem (fresh t) "DIV" [] ["tabbar__label"] []]
   /\ _labelElement (compile_label t b).1 = Some (fresh t)
   /\ label (compile_label t b).1 = label t)
  /\ (truthy (label t) = true ->
      forall l rest, List.filter (matches_class "tabbar__label") b = l :: rest ->
      List.NoDup (map node_id b) ->
      In l (compile_label t b).2
      /\ _labelElement (compile_label t b).1 = Some (node_id l)
      /\ label (compile_label t b).1 = label t)
  /\ (truthy (label t) = false ->
      forall l rest, List.filter (matches_class "tabbar__label") b = l :: rest ->
      List.NoDup (map node_id b) ->
      (_labelPropertyTouched t = true ->
       ~ In (node_id l) (map node_id (compile_label t b).2)
       /\ _labelElement (compile_label t b).1 = None
       /\ label (compile_label t b).1 = label t)
      /\ (_labelPropertyTouched t = false ->
          In l (compile_label t b).2
          /\ _labelElement (compile_label t b).1 = Some (node_id l)
          /\ label (compile_label t b).1 = Some (text_content l)))
  /\ (truthy (label t) = false ->
      List.filter (matches_class "tabbar__label") b = [] ->
      (compile_label t b).2 = b
      /\ _labelElement (compile_label t b).1 = None
      /\ label (compile_label t b).1 = label t).
Proof.
  assert (Hkeep : forall l rest,
             List.filter (matches_class "tabbar__label") b = l :: rest ->
             List.NoDup (map node_id b) -> In l (remove_all rest b)).
  { intros l rest Hf Hnd. apply in_remove_all. split.
    - apply (filter_head_in _ _ _ _ Hf).
    - pose proof (NoDup_map_filter node_id (matches_class "tabbar__label") _ Hnd) as Hnd'.
      rewrite Hf in Hnd'. simpl in Hnd'. inversion Hnd'; assumption. }
  unfold compile_label.
  split; [|split; [|split]].
  - intros Hp Hf. rewrite Hf, Hp. simpl. auto.
  - intros Hp l rest Hf Hnd. rewrite Hf, Hp. simpl.
    split; [apply (Hkeep l rest Hf Hnd) | auto].
  - intros Hp l rest Hf Hnd. rewrite Hf, Hp. simpl. split.
    + intros Ht. rewrite Ht. simpl. split; [|auto].
      intros Hin. apply in_map_iff in Hin as (n & Hid & Hin).
      apply in_remove_all in Hin as [Hin _].
      apply in_remove_node in Hin as [_ Hne]. contradiction.
    + intros Ht. rewrite Ht. simpl.
      split; [apply (Hkeep l rest Hf Hnd) | auto].
  - intros Hp Hf. rewrite Hf, Hp. simpl. auto.
Qed.

Lemma compile_badge_outcome t b :
  (truthy (badge t) = true ->
   List.filter (matches_class "tabbar__badge") b = [] ->
   (compile_badge t b).2 = b ++ [Elem (fresh t) "DIV" [] ["tabbar__badge"; "notification"] []]
   /\ _badgeElement (compile_badge t b).1 = Some (fresh t)
   /\ badge (compile_badge t b).1 = badge t)
  /\ (truthy (badge t) = true ->
      forall l rest, List.filter (matches_class "tabbar__badge") b = l :: rest ->
      List.NoDup (map node_id b) ->
      In l (compile_badge t b).2
      /\ _badgeElement (compile_badge t b).1 = Some (node_id l)
      /\ badge (compile_badge t b).1 = badge t)
  /\ (truthy (badge t) = false ->
      forall l rest, List.filter (matches_class "tabbar__badge") b = l :: rest ->
      List.NoDup (map node_id b) ->
      (_badgePropertyTouched t = true ->
       ~ In (node_id l) (map node_id (compile_badge t b).2)
       /\ _badgeElement (compile_badge t b).1 = None
       /\ badge (compile_badge t b).1 = badge t)
      /\ (_badgePropertyTouched t = false ->
          In l (compile_badge t b).2
          /\ _badgeElement (compile_badge t b).1 = Some (node_id l)
          /\ badge (compile_badge t b).1 = Some (text_content l)))
  /\ (truthy (badge t) = false ->
      List.filter (matches_class "tabbar__badge") b = [] ->
      (compile_badge t b).2 = b
      /\ _badgeElement (compile_badge t b).1 = None
      /\ badge (compile_badge t b).1 = badge t).
Proof.
  assert (Hkeep : forall l rest,
             List.filter (matches_class "tabbar__badge") b = l :: rest ->
             List.NoDup (map node_id b) -> In l (remove_all rest b)).
  { intros l rest Hf Hnd. apply in_remove_all. split.
    - apply (filter_head_in _ _ _ _ Hf).
    - pose proof (NoDup_map_filter node_id (matches_class "tabbar__badge") _ Hnd) as Hnd'.
      rewrite Hf in Hnd'. simpl in Hnd'. inversion Hnd'; assumption. }
  unfold compile_badge.
  split; [|split; [|split]].
  - intros Hp Hf. rewrite Hf, Hp. simpl. auto.
  - intros Hp l rest Hf Hnd. rewrite Hf, Hp. simpl.
    split; [apply (Hkeep l rest Hf Hnd) | auto].
  - intros Hp l rest Hf Hnd. rewrite Hf, Hp. simpl. split.
    + intros Ht. rewrite Ht. simpl. split; [|auto].
      intros Hin. apply in_map_iff in Hin as (n & Hid & Hin).
      apply in_remove_all in Hin as [Hin _].
      apply in_remove_node in Hin as [_ Hne]. contradiction.
    + intros Ht. rewrite Ht. simpl.
      split; [apply (Hkeep l rest Hf Hnd) | auto].
  - intros Hp Hf. rewrite Hf, Hp. simpl. auto.
Qed.

Lemma compile_ripple_outcome t b :
  (ripple t = true ->
   List.filter (matches_tag "ONS-RIPPLE") b = [] ->
   (compile_ripple t b).2 = Elem (fresh t) "ONS-RIPPLE" [] [] [] :: b
   /\ ripple (compile_ripple t b).1 = true)
  /\ (ripple t = true ->
      forall r rest, List.filter (matches_tag "ONS-RIPPLE") b = r :: rest ->
      List.NoDup (map node_id b) ->
      In r (compile_ripple t b).2 /\ ripple (compile_ripple t b).1 = true)
  /\ (ripple t = false ->
      forall r rest, List.filter (matches_tag "ONS-RIPPLE") b = r :: rest ->
      List.NoDup (map node_id b) ->
      (_ripplePropertyTouched t = true ->
       ~ In (node_id r) (map node_id (compile_ripple t b).2)
       /\ ripple (compile_ripple t b).1 = false)
      /\ (_ripplePropertyTouched t = false ->
          In r (compile_ripple t b).2
          /\ ripple (compile_ripple t b).1 = true))
  /\ (ripple t = false ->
      List.filter (matches_tag "ONS-RIPPLE") b = [] ->
      (compile_ripple t b).2 = b /\ ripple (compile_ripple t b).1 = false).
Proof.
  assert (Hkeep : forall l rest,
             List.filter (matches_tag "ONS-RIPPLE") b = l :: rest ->
             List.NoDup (map node_id b) -> In l (remove_all rest b)).
  { intros l rest Hf Hnd. apply in_remove_all. split.
    - apply (filter_head_in _ _ _ _ Hf).
    - pose proof (NoDup_map_filter node_id (matches_tag "ONS-RIPPLE") _ Hnd)
        as Hnd'.
      rewrite Hf in Hnd'. simpl in Hnd'. inversion Hnd'; assumption. }
  unfold compile_ripple.
  split; [|split; [|split]].
  - intros Hp Hf. rewrite Hf, Hp. simpl. auto.
  - intros Hp r rest Hf Hnd. rewrite Hf, Hp. simpl.
    split; [apply (Hkeep r rest Hf Hnd) | exact Hp].
  - intros Hp r rest Hf Hnd. rewrite Hf, Hp. simpl. split.
    + intros Ht. rewrite Ht. simpl. split; [|exact Hp].
      intros Hin. apply in_map_iff in Hin as (n & Hid & Hin).
      apply in_remove_all in Hin as [Hin _].
      apply in_remove_node in Hin as [_ Hne]. contradiction.
    + intros Ht. rewrite Ht. simpl.
      split; [apply (Hkeep r rest Hf Hnd) | reflexivity].
  - intros Hp Hf. rewrite Hf, Hp. simpl. auto.
Qed.

End TabButton.

(** ** ons-tab: the click listeners over connections *)

Section TabClickFacts.
Import TabClick.

Lemma filter_add_other (p : listener -> bool) l ls :
  p l = false ->
  List.filter p (addEventListener (Some l) ls) = List.filter p ls.
Proof.
  intros Hp. simpl. case_bool_decide; [reflexivity|].
  rewrite List.filter_app. simpl. rewrite Hp. apply app_nil_r.
Qed.

Lemma filter_remove_other (p : listener -> bool) l ls :
  p l = false ->
  List.filter p (removeEventListener (Some l) ls) = List.filter p ls.
Proof.
  intros Hp. simpl. rewrite filter_comm. apply filter_all.
  intros x Hx. apply filter_In in Hx as [_ Hx].
  apply negb_true_iff. case_bool_decide; [congruence | reflexivity].
Qed.

Lemma in_filter_default k ls :
  In (DefaultOnClick k) ls <-> In (DefaultOnClick k) (List.filter is_default ls).
Proof. rewrite filter_In. simpl. tauto. Qed.

(** The state the listeners are in after any history. *)
Lemma click_run_invariant evs :
  let st := run evs in
  List.filter (fun l => negb (is_default l)) (listeners st)
  = (if isConnected st
     then match handler st with Some f => [OnClick f] | None => [] end
     else [])
  /\ length (List.filter is_default (listeners st))
     = length (List.filter is_connect evs)
  /\ (forall k, In (DefaultOnClick k) (listeners st) -> k < closures st).
Proof.
  unfold run. induction evs as [|ev evs IH] using rev_ind.
  - simpl. split; [reflexivity|]. split; [reflexivity|]. intros k [].
  - rewrite fold_left_app. simpl.
    destruct (fold_left step evs construct) as [c h n ls] eqn:E.
    simpl in IH. destruct IH as (Hon & Hdef & Hk).
    rewrite List.filter_app, length_app. simpl.
    assert (Hfresh : ~ In (DefaultOnClick n) ls).
    { intros Hin. specialize (Hk n Hin). lia. }
    set (on := fun l => negb (is_default l)) in *.
    assert (Hon' : forall f, In (OnClick f) ls <-> In (OnClick f)
                                                     (List.filter on ls)).
    { intros f. rewrite filter_In. simpl. tauto. }
    destruct ev as [| |f]; simpl.
    + (* Connect *)
      unfold connectedCallback, _setupDefaultOnClick, _setupOnClick. simpl.
      set (ls1 := addEventListener (OnClick <$> h) ls).
      assert (Hon1 : List.filter on ls1
                     = match h with Some f => [OnClick f] | None => [] end).
      { unfold ls1. destruct h as [f|]; simpl.
        - destruct c.
          + case_bool_decide as Hin; [exact Hon|].
            exfalso. apply Hin. apply list_elem_of_In, Hon'. rewrite Hon.
            left. reflexivity.
          + case_bool_decide as Hin.
            * exfalso. apply list_elem_of_In, Hon' in Hin.
              rewrite Hon in Hin. destruct Hin.
            * rewrite List.filter_app, Hon. reflexivity.
        - rewrite Hon. destruct c; reflexivity. }
      assert (Hdef1 : List.filter is_default ls1 = List.filter is_default ls).
      { unfold ls1. destruct h as [f|]; [|reflexivity].
        apply filter_add_other. reflexivity. }
      assert (Hfresh1 : ~ In (DefaultOnClick n) ls1).
      { rewrite in_filter_default, Hdef1, <- in_filter_default. exact Hfresh. }
      case_bool_decide as Hin; [apply list_elem_of_In in Hin; contradiction|].
      rewrite !List.filter_app, length_app. simpl.
      rewrite Hon1, Hdef1, app_nil_r.
      split; [reflexivity|]. split; [simpl; lia|].
      intros k Hink. apply in_app_or in Hink as [Hink|[Hink|[]]].
      * apply in_filter_default in Hink. rewrite Hdef1 in Hink.
        apply in_filter_default in Hink. specialize (Hk k Hink). lia.
      * injection Hink as <-. lia.
    + (* Disconnect *)
      unfold disconnectedCallback, _setupDefaultOnClick, _setupOnClick. simpl.
      set (ls1 := removeEventListener (OnClick <$> h) ls).
      assert (Hon1 : List.filter on ls1 = []).
      { unfold ls1. destruct h as [f|]; simpl.
        - rewrite filter_comm, Hon. destruct c; [|reflexivity]. simpl.
          case_bool_decide; [reflexivity | contradiction].
        - rewrite Hon. destruct c; reflexivity. }
      assert (Hdef1 : List.filter is_default ls1 = List.filter is_default ls).
      { unfold ls1. destruct h as [f|]; [|reflexivity].
        apply filter_remove_other. reflexivity. }
      rewrite (filter_comm on), Hon1. simpl.
      rewrite filter_comm.
      rewrite (filter_all (fun x => negb (bool_decide (x = DefaultOnClick n)))).
      * rewrite Hdef1. split; [reflexivity|]. split; [lia|].
        intros k Hink. apply filter_In in Hink as [Hink _].
        apply in_filter_default in Hink. rewrite Hdef1 in Hink.
        apply in_filter_default in Hink. specialize (Hk k Hink). lia.
      * intros x Hx. apply negb_true_iff. case_bool_decide as Hxn;
          [|reflexivity].
        subst x. rewrite Hdef1 in Hx. apply in_filter_default in Hx.
        contradiction.
    + (* SetOnClick *)
      unfold set_onClick, _setupOnClick. simpl.
      set (ls1 := removeEventListener (OnClick <$> h) ls).
      assert (Hon1 : List.filter on ls1 = []).
      { unfold ls1. destruct h as [g|]; simpl.
        - rewrite filter_comm, Hon. destruct c; [|reflexivity]. simpl.
          case_bool_decide; [reflexivity | contradiction].
        - rewrite Hon. destruct c; reflexivity. }
      assert (Hdef1 : List.filter is_default ls1 = List.filter is_default ls).
      { unfold ls1. destruct h as [g|]; [|reflexivity].
        apply filter_remove_other. reflexivity. }
      destruct c.
      * destruct f as [f|]; simpl.
        -- case_bool_decide as Hin.
           ++ exfalso. apply list_elem_of_In in Hin.
              assert (In (OnClick f) (List.filter on ls1))
                by (apply filter_In; auto).
              rewrite Hon1 in H. destruct H.
           ++ rewrite !List.filter_app. simpl.
              rewrite Hon1, Hdef1, app_nil_r.
              split; [reflexivity|]. split; [lia|].
              intros k Hink. apply in_app_or in Hink as [Hink|[Hink|[]]];
                [|discriminate].
              apply in_filter_default in Hink. rewrite Hdef1 in Hink.
              apply in_filter_default in Hink. apply (Hk k Hink).
        -- rewrite Hon1, Hdef1. split; [reflexivity|]. split; [lia|].
           intros k Hink. apply in_filter_default in Hink.
           rewrite Hdef1 in Hink. apply in_filter_default in Hink.
           apply (Hk k Hink).
      * assert (E2 : List.filter on (removeEventListener (OnClick <$> f) ls1)
                     = []).
        { destruct f as [f|]; simpl; [|exact Hon1].
          rewrite filter_comm, Hon1. reflexivity. }
        assert (E3 : List.filter is_default
                       (removeEventListener (OnClick <$> f) ls1)
                     = List.filter is_default ls).
        { destruct f as [f|]; simpl; [|exact Hdef1].
          rewrite <- Hdef1. apply (filter_remove_other is_default (OnClick f)).
          reflexivity. }
        rewrite E2, E3. split; [reflexivity|]. split; [lia|].
        intros k Hink. apply in_filter_default in Hink.
        rewrite E3 in Hink. apply in_filter_default in Hink.
        apply (Hk k Hink).
Qed.

End TabClickFacts.

(** ** ons-tabbar: watched tabs and the active index *)

(** The decimal form of an integer starts with a digit or a minus sign,
    so it is none of an array's property names. *)
Lemma pretty_N_go_head (x : N) (s : string) :
  numeric_head s = true -> numeric_head (pretty_N_go x s) = true.
Proof.
  revert s. induction (N.lt_wf_0 x) as [x _ IH]; intros s Hs.
  assert (x = 0 \/ 0 < x)%N as [->|Hx] by lia.
  - rewrite pretty_N_go_0. exact Hs.
  - rewrite pretty_N_go_step by exact Hx. apply IH.
    + apply N.div_lt; [exact Hx | reflexivity].
    + unfold pretty_N_char. repeat case_match; reflexivity.
Qed.

Lemma pretty_Z_head (z : Z) : numeric_head (pretty z) = true.
Proof.
  assert (HN : forall p : positive, numeric_head (pretty (N.pos p)) = true).
  { intros p. unfold pretty, pretty_N.
    destruct (decide (N.pos p = 0%N)) as [H|_]; [discriminate H|].
    rewrite pretty_N_go_step by reflexivity. apply pretty_N_go_head.
    unfold pretty_N_char. repeat case_match; reflexivity. }
  destruct z as [|p|p]; [reflexivity | exact (HN p) | reflexivity].
Qed.

Lemma array_members_index (z : Z) : array_members (pretty z) = false.
Proof.
  pose proof (pretty_Z_head z) as H. unfold array_members.
  destruct (pretty z) as [|c s]; [reflexivity|].
  apply bool_decide_eq_false_2. intros Hin.
  repeat (apply elem_of_cons in Hin as [Hin|Hin];
          [injection Hin as -> _; discriminate H|]).
  inversion Hin.
Qed.

Lemma tabbar_events_distinct (assigned : list node) :
  In (TabbarTabs.SlotChange assigned) tabbar_events ->
  List.NoDup (map node_id assigned).
Proof.
  intros [H|[H|[H|[]]]]; try discriminate H;
    injection H as <-; simpl; repeat constructor; simpl; intuition discriminate.
Qed.

Lemma tabbar_events_run :
  exists st,
    TabbarTabs.run array_members tabbar_events = Some st
    /\ TabbarTabs.active_index st = Some "1"
    /\ TabbarTabs._tabElements st = Some [3].
Proof.
  eexists. split; [reflexivity|]. split; reflexivity.
Qed.

Section TabbarTabsFacts.
Import TabbarTabs.

Lemma indexOf_bounds x l :
  (indexOf x l = -1)%Z \/ (0 <= indexOf x l < Z.of_nat (length l))%Z.
Proof.
  induction l as [|y l IH]; simpl; [left; reflexivity|].
  destruct (Nat.eqb y x); [right; lia|].
  destruct (Z.ltb_spec (indexOf x l) 0); [left; reflexivity | right; lia].
Qed.

Lemma indexOf_absent x l : ~ In x l <-> indexOf x l = (-1)%Z.
Proof.
  induction l as [|y l IH]; simpl; [tauto|].
  destruct (Nat.eqb_spec y x) as [->|Hne].
  - split; [intros H; exfalso; apply H; left; reflexivity | discriminate].
  - destruct (Z.ltb_spec (indexOf x l) 0) as [Hlt|Hge].
    + destruct (indexOf_bounds x l) as [E|E]; [|lia].
      split; [reflexivity|]. intros _ [H|H]; [congruence|].
      apply IH in E. contradiction.
    + split; [|lia]. intros Hnot. exfalso.
      assert (indexOf x l = (-1)%Z) by (apply IH; tauto). lia.
Qed.

Lemma indexOf_nth x l i :
  indexOf x l = Z.of_nat i -> nth_error l i = Some x.
Proof.
  revert i. induction l as [|y l IH]; simpl; intros i; [lia|].
  destruct (Nat.eqb_spec y x) as [->|Hne].
  - intros H. assert (i = 0) by lia. subst i. reflexivity.
  - destruct (Z.ltb_spec (indexOf x l) 0) as [Hlt|Hge]; [lia|].
    intros H. destruct i as [|i]; [lia|]. simpl. apply IH. lia.
Qed.

Lemma find_index_key n : forall s i,
  s <= i < s + n ->
  List.find (fun j => String.eqb (pretty (Z.of_nat j)) (pretty (Z.of_nat i)))
            (seq s n) = Some i.
Proof.
  induction n as [|n IH]; intros s i Hi; [lia|]. simpl.
  destruct (String.eqb_spec (pretty (Z.of_nat s)) (pretty (Z.of_nat i)))
    as [E|E].
  - apply (inj pretty) in E. f_equal. lia.
  - apply IH. assert (s <> i) by (intros ->; contradiction). lia.
Qed.

Lemma find_other_key z n s :
  (forall j, s <= j < s + n -> Z.of_nat j <> z) ->
  List.find (fun j => String.eqb (pretty (Z.of_nat j)) (pretty z)) (seq s n)
  = None.
Proof.
  intros H. apply find_absent. intros j Hj. apply in_seq in Hj.
  apply String.eqb_neq. intros E. apply (inj pretty) in E.
  apply (H j Hj E).
Qed.

(** Reading the element at the index [indexOf] has written. *)
Lemma array_get_indexOf array_member x l :
  (forall z : Z, array_member (pretty z) = false) ->
  array_get array_member (Some (pretty (indexOf x l))) l
  = if bool_decide (x ∈ l) then Element x else NoValue.
Proof.
  intros Hmember. unfold array_get.
  destruct (indexOf_bounds x l) as [E|E].
  - rewrite E. rewrite find_other_key by (intros j _; lia).
    rewrite Hmember. apply indexOf_absent in E.
    case_bool_decide as Hin; [|reflexivity].
    apply list_elem_of_In in Hin. contradiction.
  - destruct (Z_of_nat_complete (indexOf x l)) as [i Hi]; [lia|].
    rewrite Hi. rewrite find_index_key by lia.
    rewrite (indexOf_nth x l i Hi).
    case_bool_decide as Hin; [reflexivity|].
    exfalso. apply Hin, list_elem_of_In.
    apply (nth_error_In l i), (indexOf_nth x l i Hi).
Qed.

Lemma array_get_index array_member (z : Z) l :
  (forall z : Z, array_member (pretty z) = false) ->
  array_get array_member (Some (pretty z)) l <> Other.
Proof.
  intros Hmember. unfold array_get.
  destruct (List.find _ _) as [i|]; [|rewrite Hmember; discriminate].
  destruct (nth_error l i); discriminate.
Qed.

Lemma fold_watch added : forall st,
  List.NoDup added ->
  _watchedTabs (fold_left watch added st)
  = list_to_set added ∪ _watchedTabs st
  /\ (forall x,
        length (List.filter (fun l => Nat.eqb (fst l) x)
                            (active_listeners (fold_left watch added st)))
        = length (List.filter (fun l => Nat.eqb (fst l) x)
                              (active_listeners st))
          + (if bool_decide (x ∈ added) then 1 else 0))
  /\ _tabElements (fold_left watch added st) = _tabElements st
  /\ active_index (fold_left watch added st) = active_index st
  /\ deactivated (fold_left watch added st) = deactivated st.
Proof.
  induction added as [|a added IH]; intros st Hnd; cbn [fold_left].
  - split; [set_solver|]. split; [|auto]. intros x.
    case_bool_decide as E; [set_solver | lia].
  - inversion Hnd as [|? ? Ha Hnd']; subst.
    destruct (IH (watch st a) Hnd') as (Hw & Hc & Ht & Hi & Hd).
    rewrite Hw, Ht, Hi, Hd. unfold watch at 1 2 3 4. cbn [_watchedTabs
      _tabElements active_index deactivated].
    split; [set_solver|]. split; [|auto]. intros x. rewrite Hc.
    unfold watch. cbn [active_listeners].
    rewrite List.filter_app, length_app. cbn [List.filter fst].
    destruct (Nat.eqb_spec a x) as [->|Hne]; cbn [length].
    + case_bool_decide as E1; [apply list_elem_of_In in E1; contradiction|].
      case_bool_decide as E2; [lia | set_solver].
    + case_bool_decide as E1; case_bool_decide as E2; try lia; set_solver.
Qed.

Lemma assigned_tabs_app evs1 evs2 :
  assigned_tabs (evs1 ++ evs2) = assigned_tabs evs1 ++ assigned_tabs evs2.
Proof. unfold assigned_tabs. apply flat_map_app. Qed.

(** What holds of the tab bar after any history of slot changes and
    [active] events. *)
Lemma tabbar_run_invariant array_member evs :
  array_member "null" = false ->
  (forall z : Z, array_member (pretty z) = false) ->
  (forall assigned, In (SlotChange assigned) evs ->
                    List.NoDup (map node_id assigned)) ->
  exists st,
    run array_member evs = Some st
    /\ _watchedTabs st = list_to_set (assigned_tabs evs)
    /\ (forall x,
          length (List.filter (fun l => Nat.eqb (fst l) x)
                              (active_listeners st))
          = if bool_decide (x ∈ assigned_tabs evs) then 1 else 0)
    /\ (active_index st = None
        \/ exists z : Z, active_index st = Some (pretty z))
    /\ (_tabElements st = None -> active_listeners st = []).
Proof.
  intros Hnull Hmember. unfold run.
  induction evs as [|ev evs IH] using rev_ind; intros Hnd.
  - exists construct. cbn [fold_left]. split; [reflexivity|].
    split; [set_solver|]. split; [|auto]. intros x.
    case_bool_decide as E; [set_solver | reflexivity].
  - destruct IH as (st & Hrun & Hw & Hc & Hidx & Hnone).
    { intros assigned Hin. apply Hnd, in_or_app. left. exact Hin. }
    rewrite fold_left_app, Hrun. simpl. rewrite assigned_tabs_app.
    destruct ev as [assigned|target]; simpl.
    + rewrite app_nil_r.
      set (tabs := map node_id
                       (List.filter
                          (fun e => String.eqb (node_name e) "ONS-TAB")
                          assigned)).
      assert (Hndt : List.NoDup tabs).
      { apply NoDup_map_filter, Hnd, in_or_app. right. left. reflexivity. }
      unfold _onSlotChange. fold tabs.
      set (added := List.filter
                      (fun tab => negb (bool_decide (tab ∈ _watchedTabs st)))
                      tabs).
      assert (Hadd : forall x, x ∈ added <-> x ∈ tabs /\ x ∉ _watchedTabs st).
      { intros x. unfold added. rewrite !list_elem_of_In, filter_In.
        rewrite negb_true_iff, bool_decide_eq_false. reflexivity. }
      destruct (fold_watch added
                  (Tabbar (Some tabs) (_watchedTabs st) (active_listeners st)
                          (bound st) (active_index st) (deactivated st)))
        as (Hw' & Hc' & Ht' & Hi' & Hd').
      { apply List.NoDup_filter, Hndt. }
      eexists. split; [reflexivity|]. simpl in *.
      rewrite Hw', Hi', Ht'.
      split; [|split; [|split; [exact Hidx | discriminate]]].
      * apply set_eq. intros x. rewrite elem_of_union, !elem_of_list_to_set.
        rewrite Hadd, Hw, elem_of_list_to_set, elem_of_app.
        destruct (decide (x ∈ assigned_tabs evs)); tauto.
      * intros x. rewrite Hc', Hc.
        destruct (bool_decide (x ∈ assigned_tabs evs)) eqn:E1.
        -- apply bool_decide_eq_true in E1.
           rewrite (bool_decide_eq_false_2 (x ∈ added))
             by (rewrite Hadd, Hw, elem_of_list_to_set; tauto).
           rewrite bool_decide_eq_true_2 by (apply elem_of_app; auto).
           reflexivity.
        -- apply bool_decide_eq_false in E1.
           destruct (bool_decide (x ∈ tabs)) eqn:E2.
           ++ apply bool_decide_eq_true in E2.
              rewrite (bool_decide_eq_true_2 (x ∈ added))
                by (rewrite Hadd, Hw, elem_of_list_to_set; tauto).
              rewrite bool_decide_eq_true_2 by (apply elem_of_app; auto).
              reflexivity.
           ++ apply bool_decide_eq_false in E2.
              rewrite (bool_decide_eq_false_2 (x ∈ added))
                by (rewrite Hadd; tauto).
              rewrite bool_decide_eq_false_2
                by (rewrite elem_of_app; tauto).
              reflexivity.
    + rewrite app_nil_r. unfold dispatch.
      specialize (Hc target) as Hct.
      destruct (List.filter (fun l => Nat.eqb (fst l) target)
                            (active_listeners st)) as [|l [|l' ls]] eqn:Hf;
        simpl in Hct.
      * simpl. exists st. auto.
      * simpl. unfold _onActive.
        destruct (_tabElements st) as [tabs|] eqn:Ht.
        -- assert (Hget : array_get array_member (active_index st) tabs
                          <> Other).
           { destruct Hidx as [->|[z ->]].
             - simpl. rewrite Hnull. discriminate.
             - apply array_get_index, Hmember. }
           destruct (array_get array_member (active_index st) tabs);
             [| |contradiction]; eexists; (split; [reflexivity|]); simpl;
             rewrite ?Ht; (split; [exact Hw|]); (split; [exact Hc|]);
             (split; [right; eexists; reflexivity | discriminate]).
        -- rewrite (Hnone eq_refl) in Hf. discriminate.
      * destruct (bool_decide (target ∈ assigned_tabs evs)); simpl in Hct; lia.
Qed.

Lemma tabbar_active array_member evs st target tabs :
  array_member "null" = false ->
  (forall z : Z, array_member (pretty z) = false) ->
  (forall assigned, In (SlotChange assigned) evs ->
                    List.NoDup (map node_id assigned)) ->
  run array_member evs = Some st ->
  In target (assigned_tabs evs) ->
  _tabElements st = Some tabs ->
  exists st',
    step array_member st (Active target) = Some st'
    /\ active_index st' = Some (pretty (indexOf target tabs))
    /\ array_get array_member (active_index st') tabs
       = (if bool_decide (target ∈ tabs) then Element target else NoValue)
    /\ deactivated st'
       = deactivated st
         ++ match array_get array_member (active_index st) tabs with
            | Element lastActive => [lastActive]
            | _ => []
            end
    /\ _tabElements st' = Some tabs
    /\ active_listeners st' = active_listeners st.
Proof.
  intros Hnull Hmember Hnd Hrun Hin Ht.
  destruct (tabbar_run_invariant array_member evs Hnull Hmember Hnd)
    as (st0 & Hrun0 & Hw & Hc & Hidx & Hnone).
  rewrite Hrun in Hrun0. injection Hrun0 as <-.
  specialize (Hc target).
  rewrite bool_decide_eq_true_2 in Hc by (apply list_elem_of_In, Hin).
  simpl. unfold dispatch.
  destruct (List.filter (fun l => Nat.eqb (fst l) target)
                        (active_listeners st)) as [|l [|l' ls]];
    simpl in Hc; try lia.
  simpl. unfold _onActive. rewrite Ht.
  assert (Hget : array_get array_member (active_index st) tabs <> Other).
  { destruct Hidx as [->|[z ->]].
    - simpl. rewrite Hnull. discriminate.
    - apply array_get_index, Hmember. }
  destruct (array_get array_member (active_index st) tabs) as [x| |];
    [| |contradiction]; eexists; (split; [reflexivity|]); simpl;
    (split; [reflexivity|]);
    (split; [apply array_get_indexOf, Hmember|]);
    rewrite ?app_nil_r; auto.
Qed.

End TabbarTabsFacts.

(** ** ons-list-item: the expanded class when no animation runs *)

Section ExpansionIdle.
Import Expansion.

Lemma expansion_idle_invariant e evs :
  Forall (fun ev => match ev with
                    | ExpandableChanged _ | ExpandedClassChanged _ => False
                    | _ => True
                    end) evs ->
  let st := run evs (construct true e e) in
  expandable st = true
  /\ in_flight st = (if _expanding st then 1 else 0)
  /\ (_expanding st = false -> expanded_class st = expanded st).
Proof.
  unfold run. induction evs as [|ev evs IH] using rev_ind; intros Hall.
  - simpl. auto.
  - apply Forall_app in Hall as [Hall Hev].
    apply Forall_cons in Hev as [Hev _].
    specialize (IH Hall). rewrite fold_left_app. simpl.
    destruct (fold_left step evs (construct true e e))
      as [ea ed cl ex d an fl]. simpl in IH.
    destruct IH as (-> & -> & Hcl).
    destruct ev as [v|v|v| |]; try contradiction; simpl;
      unfold _animateExpansion; simpl.
    + destruct ex; simpl; [repeat split; auto; discriminate|].
      specialize (Hcl eq_refl). subst cl.
      destruct v, ed; simpl; repeat split; auto; discriminate.
    + destruct ex; simpl; repeat split; auto.
    + destruct ex; simpl; [repeat split; auto; discriminate|].
      specialize (Hcl eq_refl). subst cl.
      destruct ed; simpl; repeat split; auto; discriminate.
Qed.

End ExpansionIdle.

(** ** Properties of the code beyond the specification's claims *)

(** A plain list item is compiled once and for all.  For an item without
    the [expandable] attribute whose children are distinct nodes, each
    carrying at most one role class, and that has the [ripple] attribute or
    at most one [ons-ripple] child, a second [_compile] returns the item
    the first one produced. *)
Theorem list_item_plain_compile_is_idempotent :
  forall (i : nat) (t : string) (a : list (string * string))
         (cl : list string) (kids : list node),
    has_attr "expandable" a = false ->
    List.NoDup (map node_id kids) ->
    forallb ListItem.one_role kids = true ->
    has_attr "ripple" a = true
    \/ length (List.filter (matches_tag "ONS-RIPPLE") kids) <= 1 ->
    ListItem._compile (ListItem._compile (Elem i t a cl kids))
    = ListItem._compile (Elem i t a cl kids).
Proof. exact plain_second_compile. Qed.

Lemma list_item_plain_compile_is_idempotent_witness :
  ListItem._compile (ListItem._compile item_two_rights)
  = ListItem._compile item_two_rights.
Proof.
  apply (list_item_plain_compile_is_idempotent 0 "ONS-LIST-ITEM" []
           ["list-item"] (children item_two_rights)).
  - reflexivity.
  - simpl. repeat (constructor; [simpl; intuition lia|]). constructor.
  - reflexivity.
  - right. simpl. lia.
Defined.

(** After [_compile] the button of a tab holds at most one
    [.tabbar__icon], one [.tabbar__label], one [.tabbar__badge] and one
    [ons-ripple] child, whatever it held before. *)
Theorem tab_button_holds_at_most_one_of_each :
  forall (icon_of : node -> Tab.value) (this : Tab.tab) (n : node),
    In n (Tab.childNodes (Tab._compile icon_of this)) ->
    is_node (Tab.compile_button this).2 n = true -> is_element n = true ->
    length (List.filter (matches_class "tabbar__icon") (children n)) <= 1
    /\ length (List.filter (matches_class "tabbar__label") (children n)) <= 1
    /\ length (List.filter (matches_class "tabbar__badge") (children n)) <= 1
    /\ length (List.filter (matches_tag "ONS-RIPPLE") (children n)) <= 1.
Proof. exact button_role_counts. Qed.

Lemma tab_button_holds_at_most_one_of_each_witness :
  exists n, In n (Tab.childNodes (Tab._compile icon_attribute tab_with_wrappers))
            /\ node_id n = 1
            /\ length (List.filter (matches_class "tabbar__label")
                                   (children n)) <= 1.
Proof.
  eexists. split; [left; reflexivity|]. split; [reflexivity|].
  apply (tab_button_holds_at_most_one_of_each icon_attribute tab_with_wrappers);
    [left; reflexivity | reflexivity | reflexivity].
Defined.

(** After [_compile] every child of the tab is the button or the input
    element the tab records, and the tab always records one.  A tab
    without an [input] child gets a new hidden radio input, which is then
    its only [input] child. *)
Theorem tab_children_are_button_and_input :
  forall (icon_of : node -> Tab.value) (this : Tab.tab),
    (exists i,
        Tab._inputElement (Tab._compile icon_of this) = Some i
        /\ forall n, In n (Tab.childNodes (Tab._compile icon_of this)) ->
                     is_node (Tab.compile_button this).2 n = true
                     \/ is_node i n = true)
    /\ ((forall n, In n (Tab.childNodes this) ->
                   is_ref (Tab._automaticallyAddedButton this) n = true ->
                   matches_tag "INPUT" n = false) ->
        List.filter (matches_tag "INPUT") (Tab.childNodes this) = [] ->
        exists n,
          In n (Tab.childNodes (Tab._compile icon_of this))
          /\ Tab._inputElement (Tab._compile icon_of this) = Some (node_id n)
          /\ matches_tag "INPUT" n = true
          /\ node_attributes n
             = [("type", "radio"); ("style", "display: none;")]
          /\ forall m, In m (Tab.childNodes (Tab._compile icon_of this)) ->
                       matches_tag "INPUT" m = true ->
                       node_id m = node_id n).
Proof.
  intros icon_of this. split.
  - apply tab_children.
  - apply tab_creates_input.
Qed.

Lemma tab_children_are_button_and_input_witness :
  exists n,
    In n (Tab.childNodes (Tab._compile icon_attribute tab_with_content))
    /\ matches_tag "INPUT" n = true
    /\ node_attributes n = [("type", "radio"); ("style", "display: none;")].
Proof.
  destruct (proj2 (tab_children_are_button_and_input icon_attribute
                     tab_with_content))
    as (n & Hn & _ & Hm & Ha & _).
  - simpl. intros n _ H. discriminate H.
  - reflexivity.
  - exists n. auto.
Defined.

(** The children of the button that no step of [_compile] selects (no
    [.tabbar__icon], [.tabbar__label], [.tabbar__badge], [ons-ripple]) are
    never removed nor reordered: they are, in order, the ones the button
    holds after the input step, that is its own children followed by the
    tab's other children.  The identities in that list are distinct and
    older than the tab's next fresh identity. *)
Theorem tab_button_keeps_user_content :
  forall (icon_of : node -> Tab.value) (this : Tab.tab) (n : node),
    let start :=
      Tab.compile_input (Tab.compile_button this).2 (Tab.compile_button this).1 in
    List.NoDup (map node_id start.2) ->
    (forall x, In x start.2 -> node_id x < Tab.fresh start.1) ->
    In n (Tab.childNodes (Tab._compile icon_of this)) ->
    is_node (Tab.compile_button this).2 n = true -> is_element n = true ->
    List.filter (fun x => negb (TabContent.role_node x)) (children n)
    = List.filter (fun x => negb (TabContent.role_node x)) start.2.
Proof. exact button_keeps_content. Qed.

Lemma tab_button_keeps_user_content_witness :
  exists n,
    In n (Tab.childNodes (Tab._compile icon_attribute tab_with_content))
    /\ List.filter (fun x => negb (TabContent.role_node x)) (children n)
       = [Text 1 "Home"; Elem 2 "SPAN" [] [] [Text 3 "!"]].
Proof.
  eexists. split; [left; reflexivity|].
  apply (tab_button_keeps_user_content icon_attribute tab_with_content).
  - vm_compute. repeat constructor; simpl; intuition discriminate.
  - vm_compute. intros x [<-|[<-|[]]]; simpl; lia.
  - left. reflexivity.
  - reflexivity.
  - reflexivity.
Defined.

(** The LABEL step of [_compile], from the child list [start.2] of the
    button when the step begins.  With a non-empty [label] attribute the
    step appends a new [div.tabbar__label] when the button has none and
    keeps the first one otherwise.  With the attribute absent or empty
    and a first such child [l]: if the label property was touched, [l]
    is removed and no element is recorded; if not, [l] stays, is recorded,
    and the attribute takes its text content.  With neither, nothing
    changes.  The attribute and the recorded element are those of the
    tab after [_compile]. *)
Theorem tab_label_created_kept_deleted_or_rehydrated :
  forall (icon_of : node -> Tab.value) (this : Tab.tab),
    let s2 :=
      Tab.compile_input (Tab.compile_button this).2 (Tab.compile_button this).1 in
    let start := Tab.compile_icon icon_of s2.1 s2.2 in
    let after := Tab.compile_label start.1 start.2 in
    (Tab.truthy (Tab.label this) = true ->
     List.filter (matches_class "tabbar__label") start.2 = [] ->
     after.2 = start.2 ++ [Elem (Tab.fresh start.1) "DIV" [] ["tabbar__label"] []]
     /\ Tab._labelElement (Tab._compile icon_of this) = Some (Tab.fresh start.1)
     /\ Tab.label (Tab._compile icon_of this) = Tab.label this)
    /\ (Tab.truthy (Tab.label this) = true ->
        forall l rest, List.filter (matches_class "tabbar__label") start.2 = l :: rest ->
        List.NoDup (map node_id start.2) ->
        In l after.2
        /\ Tab._labelElement (Tab._compile icon_of this) = Some (node_id l)
        /\ Tab.label (Tab._compile icon_of this) = Tab.label this)
    /\ (Tab.truthy (Tab.label this) = false ->
        forall l rest, List.filter (matches_class "tabbar__label") start.2 = l :: rest ->
        List.NoDup (map node_id start.2) ->
        (Tab._labelPropertyTouched this = true ->
         ~ In (node_id l) (map node_id after.2)
         /\ Tab._labelElement (Tab._compile icon_of this) = None
         /\ Tab.label (Tab._compile icon_of this) = Tab.label this)
        /\ (Tab._labelPropertyTouched this = false ->
            In l after.2
            /\ Tab._labelElement (Tab._compile icon_of this) = Some (node_id l)
            /\ Tab.label (Tab._compile icon_of this)
               = Some (Tab.text_content l)))
    /\ (Tab.truthy (Tab.label this) = false ->
        List.filter (matches_class "tabbar__label") start.2 = [] ->
        after.2 = start.2
        /\ Tab._labelElement (Tab._compile icon_of this) = None
        /\ Tab.label (Tab._compile icon_of this) = Tab.label this).
Proof.
  intros icon_of this.
  pose proof (compile_fields icon_of this) as H. cbv zeta in H.
  destruct H as (Hl & Hle & Hb & Hbe & Hr & Hl3 & Ht3 & Hb4 & Ht4 & Hr5 & Ht5).
  cbv zeta. rewrite Hl, Hle, <- Hl3, <- Ht3.
  apply compile_label_outcome.
Qed.

Lemma tab_label_rehydrated_witness :
  Tab.label (Tab._compile icon_attribute tab_with_wrappers) = Some "Home".
Proof.
  destruct (tab_label_created_kept_deleted_or_rehydrated icon_attribute
              tab_with_wrappers) as (_ & _ & H & _).
  destruct (H eq_refl label_wrapper [] eq_refl) as [_ Hkeep].
  - vm_compute. repeat constructor; simpl; intuition discriminate.
  - destruct (Hkeep eq_refl) as (_ & _ & Hlabel). exact Hlabel.
Defined.

(** The BADGE step of [_compile], from the child list [start.2] of the
    button when the step begins.  With a non-empty [badge] attribute the
    step appends a new [div.tabbar__badge.notification] when the button has none and
    keeps the first one otherwise.  With the attribute absent or empty
    and a first such child [l]: if the badge property was touched, [l]
    is removed and no element is recorded; if not, [l] stays, is recorded,
    and the attribute takes its text content.  With neither, nothing
    changes.  The attribute and the recorded element are those of the
    tab after [_compile]. *)
Theorem tab_badge_created_kept_deleted_or_rehydrated :
  forall (icon_of : node -> Tab.value) (this : Tab.tab),
    let s2 :=
      Tab.compile_input (Tab.compile_button this).2 (Tab.compile_button this).1 in
    let s3 := Tab.compile_icon icon_of s2.1 s2.2 in
    let start := Tab.compile_label s3.1 s3.2 in
    let after := Tab.compile_badge start.1 start.2 in
    (Tab.truthy (Tab.badge this) = true ->
     List.filter (matches_class "tabbar__badge") start.2 = [] ->
     after.2 = start.2 ++ [Elem (Tab.fresh start.1) "DIV" []
                           ["tabbar__badge"; "notification"] []]
     /\ Tab._badgeElement (Tab._compile icon_of this) = Some (Tab.fresh start.1)
     /\ Tab.badge (Tab._compile icon_of this) = Tab.badge this)
    /\ (Tab.truthy (Tab.badge this) = true ->
        forall l rest, List.filter (matches_class "tabbar__badge") start.2 = l :: rest ->
        List.NoDup (map node_id start.2) ->
        In l after.2
        /\ Tab._badgeElement (Tab._compile icon_of this) = Some (node_id l)
        /\ Tab.badge (Tab._compile icon_of this) = Tab.badge this)
    /\ (Tab.truthy (Tab.badge this) = false ->
        forall l rest, List.filter (matches_class "tabbar__badge") start.2 = l :: rest ->
        List.NoDup (map node_id start.2) ->
        (Tab._badgePropertyTouched this = true ->
         ~ In (node_id l) (map node_id after.2)
         /\ Tab._badgeElement (Tab._compile icon_of this) = None
         /\ Tab.badge (Tab._compile icon_of this) = Tab.badge this)
        /\ (Tab._badgePropertyTouched this = false ->
            In l after.2
            /\ Tab._badgeElement (Tab._compile icon_of this) = Some (node_id l)
            /\ Tab.badge (Tab._compile icon_of this)
               = Some (Tab.text_content l)))
    /\ (Tab.truthy (Tab.badge this) = false ->
        List.filter (matches_class "tabbar__badge") start.2 = [] ->
        after.2 = start.2
        /\ Tab._badgeElement (Tab._compile icon_of this) = None
        /\ Tab.badge (Tab._compile icon_of this) = Tab.badge this).
Proof.
  intros icon_of this.
  pose proof (compile_fields icon_of this) as H. cbv zeta in H.
  destruct H as (Hl & Hle & Hb & Hbe & Hr & Hl3 & Ht3 & Hb4 & Ht4 & Hr5 & Ht5).
  cbv zeta. rewrite Hb, Hbe, <- Hb4, <- Ht4.
  apply compile_badge_outcome.
Qed.

Lemma tab_badge_rehydrated_witness :
  Tab.badge (Tab._compile icon_attribute tab_with_wrappers) = Some "3".
Proof.
  destruct (tab_badge_created_kept_deleted_or_rehydrated icon_attribute
              tab_with_wrappers) as (_ & _ & H & _).
  destruct (H eq_refl badge_wrapper [] eq_refl) as [_ Hkeep].
  - vm_compute. repeat constructor; simpl; intuition discriminate.
  - destruct (Hkeep eq_refl) as (_ & _ & Hbadge). exact Hbadge.
Defined.

(** The RIPPLE step of [_compile], from the child list [start.2] of the
    button when the step begins.  With the [ripple] property set, a new
    [ons-ripple] becomes the button's first child when it has none, and a
    present one is kept.  With the property unset and a first [ons-ripple]
    child [r]: if the property was touched, [r] is removed; if not, [r]
    stays and the property becomes set.  With neither, nothing changes. *)
Theorem tab_ripple_created_kept_deleted_or_adopted :
  forall (icon_of : node -> Tab.value) (this : Tab.tab),
    let s2 :=
      Tab.compile_input (Tab.compile_button this).2 (Tab.compile_button this).1 in
    let s3 := Tab.compile_icon icon_of s2.1 s2.2 in
    let s4 := Tab.compile_label s3.1 s3.2 in
    let start := Tab.compile_badge s4.1 s4.2 in
    let after := Tab.compile_ripple start.1 start.2 in
    (Tab.ripple this = true ->
     List.filter (matches_tag "ONS-RIPPLE") start.2 = [] ->
     after.2 = Elem (Tab.fresh start.1) "ONS-RIPPLE" [] [] [] :: start.2
     /\ Tab.ripple (Tab._compile icon_of this) = true)
    /\ (Tab.ripple this = true ->
        forall r rest,
          List.filter (matches_tag "ONS-RIPPLE") start.2 = r :: rest ->
          List.NoDup (map node_id start.2) ->
          In r after.2 /\ Tab.ripple (Tab._compile icon_of this) = true)
    /\ (Tab.ripple this = false ->
        forall r rest,
          List.filter (matches_tag "ONS-RIPPLE") start.2 = r :: rest ->
          List.NoDup (map node_id start.2) ->
          (Tab._ripplePropertyTouched this = true ->
           ~ In (node_id r) (map node_id after.2)
           /\ Tab.ripple (Tab._compile icon_of this) = false)
          /\ (Tab._ripplePropertyTouched this = false ->
              In r after.2
              /\ Tab.ripple (Tab._compile icon_of this) = true))
    /\ (Tab.ripple this = false ->
        List.filter (matches_tag "ONS-RIPPLE") start.2 = [] ->
        after.2 = start.2
        /\ Tab.ripple (Tab._compile icon_of this) = false).
Proof.
  intros icon_of this.
  pose proof (compile_fields icon_of this) as H. cbv zeta in H.
  destruct H as (Hl & Hle & Hb & Hbe & Hr & Hl3 & Ht3 & Hb4 & Ht4 & Hr5 & Ht5).
  cbv zeta. rewrite Hr, <- Hr5, <- Ht5.
  apply compile_ripple_outcome.
Qed.

Lemma tab_ripple_adopted_witness :
  Tab.ripple (Tab._compile icon_attribute tab_with_wrappers) = true.
Proof.
  destruct (tab_ripple_created_kept_deleted_or_adopted icon_attribute
              tab_with_wrappers) as (_ & _ & H & _).
  destruct (H eq_refl ripple_element [] eq_refl) as [_ Hkeep].
  - vm_compute. repeat constructor; simpl; intuition discriminate.
  - destruct (Hkeep eq_refl) as (_ & Hripple). exact Hripple.
Defined.

(** The click listeners of a tab after any sequence of connections,
    disconnections and assignments to [onClick].  The function [onClick]
    holds is registered exactly while the tab is connected.  Each
    connection registers one more default handler and no disconnection
    removes one, because [_setupDefaultOnClick] creates a new closure for
    the call to [removeEventListener]: the number of default handlers is
    the number of connections so far. *)
Theorem tab_click_listeners_follow_connections :
  forall evs : list TabClick.event,
    let st := TabClick.run evs in
    List.filter (fun l => negb (TabClick.is_default l)) (TabClick.listeners st)
    = (if TabClick.isConnected st
       then match TabClick.handler st with
            | Some f => [TabClick.OnClick f]
            | None => []
            end
       else [])
    /\ length (List.filter TabClick.is_default (TabClick.listeners st))
       = length (List.filter TabClick.is_connect evs).
Proof.
  intros evs. destruct (click_run_invariant evs) as (H1 & H2 & _).
  split; assumption.
Qed.

(** Over any sequence of slot changes (each assigning distinct elements)
    and [active] events, the tab bar holds exactly one [active] listener
    on every [ons-tab] element a slot change has assigned, none on
    anything else, and no event leaves the model. *)
Theorem tabbar_listens_once_to_each_tab :
  forall (array_member : string -> bool) (evs : list TabbarTabs.event),
    array_member "null" = false ->
    (forall z : Z, array_member (pretty z) = false) ->
    (forall assigned, In (TabbarTabs.SlotChange assigned) evs ->
                      List.NoDup (map node_id assigned)) ->
    exists st,
      TabbarTabs.run array_member evs = Some st
      /\ TabbarTabs._watchedTabs st
         = list_to_set (TabbarTabs.assigned_tabs evs)
      /\ forall x,
           length (List.filter (fun l => Nat.eqb (fst l) x)
                               (TabbarTabs.active_listeners st))
           = if bool_decide (x ∈ TabbarTabs.assigned_tabs evs) then 1 else 0.
Proof.
  intros array_member evs Hnull Hmember Hnd.
  destruct (tabbar_run_invariant array_member evs Hnull Hmember Hnd)
    as (st & Hrun & Hw & Hc & _).
  exists st. auto.
Qed.

Lemma tabbar_listens_once_to_each_tab_witness :
  exists st,
    TabbarTabs.run array_members tabbar_events = Some st
    /\ TabbarTabs._watchedTabs st
       = list_to_set (TabbarTabs.assigned_tabs tabbar_events)
    /\ forall x,
         length (List.filter (fun l => Nat.eqb (fst l) x)
                             (TabbarTabs.active_listeners st))
         = if bool_decide (x ∈ TabbarTabs.assigned_tabs tabbar_events)
           then 1 else 0.
Proof.
  apply (tabbar_listens_once_to_each_tab array_members tabbar_events).
  - reflexivity.
  - exact array_members_index.
  - exact tabbar_events_distinct.
Defined.

(** When a watched tab dispatches [active], [_onActive] runs once: the
    tab the [active-index] attribute pointed at (if any) is written
    [active = false], and the attribute becomes the decimal form of the
    target's first position among the tabs of the slot, so that reading
    the attribute back as an index gives the target; for a target that
    is no longer in the slot the attribute becomes [-1], which indexes
    nothing. *)
Theorem tabbar_active_index_names_the_target :
  forall (array_member : string -> bool) (evs : list TabbarTabs.event)
         (st : TabbarTabs.tabbar) (target : nat) (tabs : list nat),
    array_member "null" = false ->
    (forall z : Z, array_member (pretty z) = false) ->
    (forall assigned, In (TabbarTabs.SlotChange assigned) evs ->
                      List.NoDup (map node_id assigned)) ->
    TabbarTabs.run array_member evs = Some st ->
    In target (TabbarTabs.assigned_tabs evs) ->
    TabbarTabs._tabElements st = Some tabs ->
    exists st',
      TabbarTabs.step array_member st (TabbarTabs.Active target) = Some st'
      /\ TabbarTabs.active_index st'
         = Some (pretty (TabbarTabs.indexOf target tabs))
      /\ TabbarTabs.array_get array_member (TabbarTabs.active_index st') tabs
         = (if bool_decide (target ∈ tabs)
            then TabbarTabs.Element target else TabbarTabs.NoValue)
      /\ (target ∉ tabs -> TabbarTabs.active_index st' = Some "-1")
      /\ TabbarTabs.deactivated st'
         = TabbarTabs.deactivated st
           ++ match TabbarTabs.array_get array_member
                      (TabbarTabs.active_index st) tabs with
              | TabbarTabs.Element lastActive => [lastActive]
              | _ => []
              end.
Proof.
  intros array_member evs st target tabs Hnull Hmember Hnd Hrun Hin Ht.
  destruct (tabbar_active array_member evs st target tabs Hnull Hmember Hnd
              Hrun Hin Ht) as (st' & Hstep & Hidx & Hget & Hde & _).
  exists st'. split; [exact Hstep|]. split; [exact Hidx|].
  split; [exact Hget|]. split; [|exact Hde].
  intros Hnot. rewrite Hidx.
  rewrite list_elem_of_In in Hnot. apply indexOf_absent in Hnot.
  rewrite Hnot. reflexivity.
Qed.

Lemma tabbar_active_index_names_the_target_witness :
  exists st st',
    TabbarTabs.run array_members tabbar_events = Some st
    /\ TabbarTabs.step array_members st (TabbarTabs.Active 1) = Some st'
    /\ TabbarTabs.active_index st = Some "1"
    /\ TabbarTabs.active_index st' = Some "-1"
    /\ TabbarTabs.deactivated st' = TabbarTabs.deactivated st.
Proof.
  destruct tabbar_events_run as (st & Hrun & Hidx & Ht).
  destruct (tabbar_active_index_names_the_target array_members tabbar_events
              st 1 [3]) as (st' & Hstep & _ & _ & Hm & Hde).
  - reflexivity.
  - exact array_members_index.
  - exact tabbar_events_distinct.
  - exact Hrun.
  - simpl. auto.
  - exact Ht.
  - exists st, st'. split; [exact Hrun|]. split; [exact Hstep|].
    split; [exact Hidx|]. split.
    + apply Hm. rewrite elem_of_cons. intros [H|H]; [discriminate H|inversion H].
    + rewrite Hde, Hidx. simpl. apply app_nil_r.
Defined.

(** For an expandable list item whose [list-item--expanded] class agrees
    with its [expanded] property at the start, and as long as only the
    [expanded] attribute changes, animations finish and
    [_animateExpansion] is called: whenever no animation is running the
    class agrees with the property, however often the property was
    toggled while an animation ran. *)
Theorem expanded_class_follows_expanded_when_idle :
  forall (e : bool) (evs : list Expansion.event),
    Forall (fun ev => match ev with
                      | Expansion.ExpandableChanged _
                      | Expansion.ExpandedClassChanged _ => False
                      | _ => True
                      end) evs ->
    let st := Expansion.run evs (Expansion.construct true e e) in
    Expansion.in_flight st = (if Expansion._expanding st then 1 else 0)
    /\ (Expansion._expanding st = false ->
        Expansion.expanded_class st = Expansion.expanded st).
Proof.
  intros e evs Hall. destruct (expansion_idle_invariant e evs Hall)
    as (_ & H1 & H2).
  split; assumption.
Qed.

Lemma expanded_class_follows_expanded_witness :
  Expansion.expanded_class
    (Expansion.run [Expansion.ExpandedChanged true;
                    Expansion.ExpandedChanged false;
                    Expansion.AnimationDone]
                   (Expansion.construct true false false))
  = false.
Proof.
  refine (proj2 (expanded_class_follows_expanded_when_idle false
                   [Expansion.ExpandedChanged true;
                    Expansion.ExpandedChanged false;
                    Expansion.AnimationDone] _) eq_refl).
  repeat constructor.
Defined.
